(** * SpikeMonitorCore: a shallow embedding of
    [carlsim/spike_monitor/spike_monitor_core.cpp]

    The class is embedded as a record of its data members; its methods are
    computations in a state-and-failure monad over the monitor and the
    simulator object [snn_] it points to.

    - [assert] is taken as compiled in: a failed assertion aborts (outcome
      [AssertFail]).
    - An out-of-bounds [operator[]] on a vector, and an [fwrite] through a
      pointer that is no open stream, are undefined behaviour (outcome
      [Undefined]).
    - [int], [long int] and [size_t] values are integers of [Z]; signed
      overflow is undefined in C++ and no method relies on wrap-around.
      Where a result depends on the range of [long int], the theorem says
      so ([LONG_MAX]).
    - [float] and [double] are IEEE-754 binary32 and binary64 values in the
      representation of [SpecFloat], every operation rounded to nearest
      even.
    - [print] only formats text for the log and is left out, as are the
      four log stream pointers [fpInf_] ... [fpLog_]: what the methods log
      is recorded in the simulator's [logged] list.

    The file also embeds [SpikeController] of [server/server_windows.cpp],
    the callback that packs the spikes of a simulated second into
    datagrams.  The rest of that file (the socket set-up, the construction
    of the network and the service loop) consists of calls into Winsock
    and the simulator and is left out. *)

From Stdlib Require Import ZArith List Bool Lia String Permutation Sorted.
From Stdlib Require Import Floats.SpecFloat.
From stdpp Require Import base option list gmap.

Local Open Scope Z_scope.

(** ** IEEE-754 arithmetic as the compiler emits it *)

Module IEEE.

Abbreviation float := spec_float.
Abbreviation double := spec_float.

Definition prec32 : Z := 24.
Definition emax32 : Z := 128.
Definition prec64 : Z := 53.
Definition emax64 : Z := 1024.

(** Integer to floating-point conversions. *)
Definition double_of_Z (z : Z) : double := binary_normalize prec64 emax64 z 0 false.
Definition float_of_Z (z : Z) : float := binary_normalize prec32 emax32 z 0 false.

(** The narrowing conversion of a [double] stored into a [float]. *)
Definition float_of_double (x : double) : float :=
  match x with
  | S754_finite s m e => binary_round prec32 emax32 s m e
  | _ => x
  end.

Definition dmul : double -> double -> double := SFmul prec64 emax64.
Definition ddiv : double -> double -> double := SFdiv prec64 emax64.

Definition fadd : float -> float -> float := SFadd prec32 emax32.
Definition fsub : float -> float -> float := SFsub prec32 emax32.
Definition fmul : float -> float -> float := SFmul prec32 emax32.
Definition fdiv : float -> float -> float := SFdiv prec32 emax32.
(** [sqrt] on a [float] argument whose result is stored in a [float]:
    the binary32 square root, which is also what the binary64 square root
    rounded to binary32 gives. *)
Definition fsqrt : float -> float := SFsqrt prec32 emax32.

(** [a < b], [a <= b], [a >= b] *)
Definition flt (a b : float) : bool := SFltb a b.
Definition fle (a b : float) : bool := SFleb a b.
Definition fge (a b : float) : bool := SFleb b a.

Definition fzero : float := S754_zero false.          (* 0.0f *)
Definition fone : float := float_of_Z 1.              (* 1.0f *)
Definition d1000 : double := double_of_Z 1000.        (* 1000.0 *)
Definition d100 : double := double_of_Z 100.          (* 100.0 *)

Definition is_nan (x : spec_float) : bool :=
  match x with S754_nan => true | _ => false end.

End IEEE.
Import IEEE.

(** ** Outcomes and the method monad *)

(** How a call ends: it returns, it aborts in a failed [assert], or it runs
    into behaviour the language leaves undefined. *)
Inductive outcome (A : Type) : Type :=
| Ok (a : A)
| AssertFail
| Undefined.
Arguments Ok {A} a.
Arguments AssertFail {A}.
Arguments Undefined {A}.

(** [FILE*]: a stream handle, [NULL] being 0. *)
Definition FILE := Z.
Definition NULL : FILE := 0.

(** What one [fwrite(&x, sizeof(int), 1, f)] puts on the stream: the first
    [sizeof(int)] bytes of the object at [&x]. *)
Inductive file_item : Type :=
| IntBytes (z : Z)
| FloatBytes (f : float).

Record stream : Type := {
  writable : bool;               (* does fwrite succeed on it *)
  written : list file_item       (* what has been written, oldest first *)
}.

Inductive severity := SevError | SevWarn | SevInfo.

(** Modelled from the spec: the enumeration is declared in
    spike_monitor_core.h, which is not among the sources; the spec has
    [AER] as the only current mode and other representations as an
    extension point. *)
Inductive spikeMonMode_t := AER | OtherMode.

Definition mode_eqb (a b : spikeMonMode_t) : bool :=
  match a, b with
  | AER, AER | OtherMode, OtherMode => true
  | _, _ => false
  end.

(** The data members of [SpikeMonitorCore]. *)
Record SpikeMonitorCore : Type := {
  grpId_ : Z;
  monitorId_ : Z;
  nNeurons_ : Z;
  spikeFileId_ : FILE;
  recordSet_ : bool;
  spkMonLastUpdated_ : Z;
  mode_ : spikeMonMode_t;
  persistentData_ : bool;
  needToWriteFileHeader_ : bool;
  spikeFileSignature_ : Z;
  spikeFileVersion_ : float;
  spkVector_ : list (list Z);
  startTime_ : Z;
  startTimeLast_ : Z;
  stopTime_ : Z;
  accumTime_ : Z;
  totalTime_ : Z;
  needToCalculateFiringRates_ : bool;
  needToSortFiringRates_ : bool;
  firingRates_ : list float;
  firingRatesSorted_ : list float
}.

Definition set_nNeurons_ (v : Z) (m : SpikeMonitorCore) : SpikeMonitorCore :=
  Build_SpikeMonitorCore (grpId_ m) (monitorId_ m) v (spikeFileId_ m) (recordSet_ m)
    (spkMonLastUpdated_ m) (mode_ m) (persistentData_ m) (needToWriteFileHeader_ m)
    (spikeFileSignature_ m) (spikeFileVersion_ m) (spkVector_ m) (startTime_ m) (startTimeLast_
    m) (stopTime_ m) (accumTime_ m) (totalTime_ m) (needToCalculateFiringRates_ m)
    (needToSortFiringRates_ m) (firingRates_ m) (firingRatesSorted_ m).

Definition set_spikeFileId_ (v : FILE) (m : SpikeMonitorCore) : SpikeMonitorCore :=
  Build_SpikeMonitorCore (grpId_ m) (monitorId_ m) (nNeurons_ m) v (recordSet_ m)
    (spkMonLastUpdated_ m) (mode_ m) (persistentData_ m) (needToWriteFileHeader_ m)
    (spikeFileSignature_ m) (spikeFileVersion_ m) (spkVector_ m) (startTime_ m) (startTimeLast_
    m) (stopTime_ m) (accumTime_ m) (totalTime_ m) (needToCalculateFiringRates_ m)
    (needToSortFiringRates_ m) (firingRates_ m) (firingRatesSorted_ m).

Definition set_recordSet_ (v : bool) (m : SpikeMonitorCore) : SpikeMonitorCore :=
  Build_SpikeMonitorCore (grpId_ m) (monitorId_ m) (nNeurons_ m) (spikeFileId_ m) v
    (spkMonLastUpdated_ m) (mode_ m) (persistentData_ m) (needToWriteFileHeader_ m)
    (spikeFileSignature_ m) (spikeFileVersion_ m) (spkVector_ m) (startTime_ m) (startTimeLast_
    m) (stopTime_ m) (accumTime_ m) (totalTime_ m) (needToCalculateFiringRates_ m)
    (needToSortFiringRates_ m) (firingRates_ m) (firingRatesSorted_ m).

Definition set_persistentData_ (v : bool) (m : SpikeMonitorCore) : SpikeMonitorCore :=
  Build_SpikeMonitorCore (grpId_ m) (monitorId_ m) (nNeurons_ m) (spikeFileId_ m) (recordSet_ m)
    (spkMonLastUpdated_ m) (mode_ m) v (needToWriteFileHeader_ m) (spikeFileSignature_ m)
    (spikeFileVersion_ m) (spkVector_ m) (startTime_ m) (startTimeLast_ m) (stopTime_ m)
    (accumTime_ m) (totalTime_ m) (needToCalculateFiringRates_ m) (needToSortFiringRates_ m)
    (firingRates_ m) (firingRatesSorted_ m).

Definition set_needToWriteFileHeader_ (v : bool) (m : SpikeMonitorCore) : SpikeMonitorCore :=
  Build_SpikeMonitorCore (grpId_ m) (monitorId_ m) (nNeurons_ m) (spikeFileId_ m) (recordSet_ m)
    (spkMonLastUpdated_ m) (mode_ m) (persistentData_ m) v (spikeFileSignature_ m)
    (spikeFileVersion_ m) (spkVector_ m) (startTime_ m) (startTimeLast_ m) (stopTime_ m)
    (accumTime_ m) (totalTime_ m) (needToCalculateFiringRates_ m) (needToSortFiringRates_ m)
    (firingRates_ m) (firingRatesSorted_ m).

Definition set_spkVector_ (v : list (list Z)) (m : SpikeMonitorCore) : SpikeMonitorCore :=
  Build_SpikeMonitorCore (grpId_ m) (monitorId_ m) (nNeurons_ m) (spikeFileId_ m) (recordSet_ m)
    (spkMonLastUpdated_ m) (mode_ m) (persistentData_ m) (needToWriteFileHeader_ m)
    (spikeFileSignature_ m) (spikeFileVersion_ m) v (startTime_ m) (startTimeLast_ m) (stopTime_
    m) (accumTime_ m) (totalTime_ m) (needToCalculateFiringRates_ m) (needToSortFiringRates_ m)
    (firingRates_ m) (firingRatesSorted_ m).

Definition set_startTime_ (v : Z) (m : SpikeMonitorCore) : SpikeMonitorCore :=
  Build_SpikeMonitorCore (grpId_ m) (monitorId_ m) (nNeurons_ m) (spikeFileId_ m) (recordSet_ m)
    (spkMonLastUpdated_ m) (mode_ m) (persistentData_ m) (needToWriteFileHeader_ m)
    (spikeFileSignature_ m) (spikeFileVersion_ m) (spkVector_ m) v (startTimeLast_ m) (stopTime_
    m) (accumTime_ m) (totalTime_ m) (needToCalculateFiringRates_ m) (needToSortFiringRates_ m)
    (firingRates_ m) (firingRatesSorted_ m).

Definition set_startTimeLast_ (v : Z) (m : SpikeMonitorCore) : SpikeMonitorCore :=
  Build_SpikeMonitorCore (grpId_ m) (monitorId_ m) (nNeurons_ m) (spikeFileId_ m) (recordSet_ m)
    (spkMonLastUpdated_ m) (mode_ m) (persistentData_ m) (needToWriteFileHeader_ m)
    (spikeFileSignature_ m) (spikeFileVersion_ m) (spkVector_ m) (startTime_ m) v (stopTime_ m)
    (accumTime_ m) (totalTime_ m) (needToCalculateFiringRates_ m) (needToSortFiringRates_ m)
    (firingRates_ m) (firingRatesSorted_ m).

Definition set_stopTime_ (v : Z) (m : SpikeMonitorCore) : SpikeMonitorCore :=
  Build_SpikeMonitorCore (grpId_ m) (monitorId_ m) (nNeurons_ m) (spikeFileId_ m) (recordSet_ m)
    (spkMonLastUpdated_ m) (mode_ m) (persistentData_ m) (needToWriteFileHeader_ m)
    (spikeFileSignature_ m) (spikeFileVersion_ m) (spkVector_ m) (startTime_ m) (startTimeLast_
    m) v (accumTime_ m) (totalTime_ m) (needToCalculateFiringRates_ m) (needToSortFiringRates_
    m) (firingRates_ m) (firingRatesSorted_ m).

Definition set_accumTime_ (v : Z) (m : SpikeMonitorCore) : SpikeMonitorCore :=
  Build_SpikeMonitorCore (grpId_ m) (monitorId_ m) (nNeurons_ m) (spikeFileId_ m) (recordSet_ m)
    (spkMonLastUpdated_ m) (mode_ m) (persistentData_ m) (needToWriteFileHeader_ m)
    (spikeFileSignature_ m) (spikeFileVersion_ m) (spkVector_ m) (startTime_ m) (startTimeLast_
    m) (stopTime_ m) v (totalTime_ m) (needToCalculateFiringRates_ m) (needToSortFiringRates_ m)
    (firingRates_ m) (firingRatesSorted_ m).

Definition set_totalTime_ (v : Z) (m : SpikeMonitorCore) : SpikeMonitorCore :=
  Build_SpikeMonitorCore (grpId_ m) (monitorId_ m) (nNeurons_ m) (spikeFileId_ m) (recordSet_ m)
    (spkMonLastUpdated_ m) (mode_ m) (persistentData_ m) (needToWriteFileHeader_ m)
    (spikeFileSignature_ m) (spikeFileVersion_ m) (spkVector_ m) (startTime_ m) (startTimeLast_
    m) (stopTime_ m) (accumTime_ m) v (needToCalculateFiringRates_ m) (needToSortFiringRates_ m)
    (firingRates_ m) (firingRatesSorted_ m).

Definition set_needToCalculateFiringRates_ (v : bool) (m : SpikeMonitorCore) : SpikeMonitorCore :=
  Build_SpikeMonitorCore (grpId_ m) (monitorId_ m) (nNeurons_ m) (spikeFileId_ m) (recordSet_ m)
    (spkMonLastUpdated_ m) (mode_ m) (persistentData_ m) (needToWriteFileHeader_ m)
    (spikeFileSignature_ m) (spikeFileVersion_ m) (spkVector_ m) (startTime_ m) (startTimeLast_
    m) (stopTime_ m) (accumTime_ m) (totalTime_ m) v (needToSortFiringRates_ m) (firingRates_ m)
    (firingRatesSorted_ m).

Definition set_needToSortFiringRates_ (v : bool) (m : SpikeMonitorCore) : SpikeMonitorCore :=
  Build_SpikeMonitorCore (grpId_ m) (monitorId_ m) (nNeurons_ m) (spikeFileId_ m) (recordSet_ m)
    (spkMonLastUpdated_ m) (mode_ m) (persistentData_ m) (needToWriteFileHeader_ m)
    (spikeFileSignature_ m) (spikeFileVersion_ m) (spkVector_ m) (startTime_ m) (startTimeLast_
    m) (stopTime_ m) (accumTime_ m) (totalTime_ m) (needToCalculateFiringRates_ m) v
    (firingRates_ m) (firingRatesSorted_ m).

Definition set_firingRates_ (v : list float) (m : SpikeMonitorCore) : SpikeMonitorCore :=
  Build_SpikeMonitorCore (grpId_ m) (monitorId_ m) (nNeurons_ m) (spikeFileId_ m) (recordSet_ m)
    (spkMonLastUpdated_ m) (mode_ m) (persistentData_ m) (needToWriteFileHeader_ m)
    (spikeFileSignature_ m) (spikeFileVersion_ m) (spkVector_ m) (startTime_ m) (startTimeLast_
    m) (stopTime_ m) (accumTime_ m) (totalTime_ m) (needToCalculateFiringRates_ m)
    (needToSortFiringRates_ m) v (firingRatesSorted_ m).

Definition set_firingRatesSorted_ (v : list float) (m : SpikeMonitorCore) : SpikeMonitorCore :=
  Build_SpikeMonitorCore (grpId_ m) (monitorId_ m) (nNeurons_ m) (spikeFileId_ m) (recordSet_ m)
    (spkMonLastUpdated_ m) (mode_ m) (persistentData_ m) (needToWriteFileHeader_ m)
    (spikeFileSignature_ m) (spikeFileVersion_ m) (spkVector_ m) (startTime_ m) (startTimeLast_
    m) (stopTime_ m) (accumTime_ m) (totalTime_ m) (needToCalculateFiringRates_ m)
    (needToSortFiringRates_ m) (firingRates_ m) v.

Arguments set_nNeurons_ _ _ /.
Arguments set_spikeFileId_ _ _ /.
Arguments set_recordSet_ _ _ /.
Arguments set_persistentData_ _ _ /.
Arguments set_needToWriteFileHeader_ _ _ /.
Arguments set_spkVector_ _ _ /.
Arguments set_startTime_ _ _ /.
Arguments set_startTimeLast_ _ _ /.
Arguments set_stopTime_ _ _ /.
Arguments set_accumTime_ _ _ /.
Arguments set_totalTime_ _ _ /.
Arguments set_needToCalculateFiringRates_ _ _ /.
Arguments set_needToSortFiringRates_ _ _ /.
Arguments set_firingRates_ _ _ /.
Arguments set_firingRatesSorted_ _ _ /.
(** What the monitor sees of the simulator [CpuSNN] behind [snn_]: the
    clock, the size of each group, the spikes of the monitored group that
    are buffered and not yet delivered, the open streams and the log. *)
Record CpuSNN : Type := {
  simTimeSec : Z;
  simTimeMs : Z;
  groupNumNeurons : Z -> Z;
  buffered : list (Z * Z);                 (* (time, neurId), oldest first *)
  streams : gmap Z stream;
  logged : list (severity * string)
}.

Definition set_buffered (v : list (Z * Z)) (c : CpuSNN) : CpuSNN :=
  Build_CpuSNN (simTimeSec c) (simTimeMs c) (groupNumNeurons c) v (streams c) (logged c).
Definition set_streams (v : gmap Z stream) (c : CpuSNN) : CpuSNN :=
  Build_CpuSNN (simTimeSec c) (simTimeMs c) (groupNumNeurons c) (buffered c) v (logged c).
Definition set_logged (v : list (severity * string)) (c : CpuSNN) : CpuSNN :=
  Build_CpuSNN (simTimeSec c) (simTimeMs c) (groupNumNeurons c) (buffered c) (streams c) v.
Definition set_simTime (sec ms : Z) (c : CpuSNN) : CpuSNN :=
  Build_CpuSNN sec ms (groupNumNeurons c) (buffered c) (streams c) (logged c).

Arguments set_buffered _ _ /.
Arguments set_streams _ _ /.
Arguments set_logged _ _ /.
Arguments set_simTime _ _ _ /.

(** The state a method runs in: the object and the simulator it points to. *)
Record St : Type := { this : SpikeMonitorCore; snn_ : CpuSNN }.

Definition M (A : Type) : Type := St -> outcome (A * St).

Definition ret {A} (a : A) : M A := fun s => Ok (a, s).

Definition bind {A B} (c : M A) (k : A -> M B) : M B :=
  fun s =>
    match c s with
    | Ok (a, s') => k a s'
    | AssertFail => AssertFail
    | Undefined => Undefined
    end.

Notation "x <- c ;; k" := (bind c (fun x => k))
  (at level 100, c at next level, right associativity).
Notation "c ;; k" := (bind c (fun _ => k))
  (at level 100, right associativity).

Definition assert (b : bool) : M unit :=
  fun s => if b then Ok (tt, s) else AssertFail.
Definition undefined {A} : M A := fun _ => Undefined.
Definition gets {A} (f : SpikeMonitorCore -> A) : M A := fun s => Ok (f (this s), s).
Definition modify (f : SpikeMonitorCore -> SpikeMonitorCore) : M unit :=
  fun s => Ok (tt, {| this := f (this s); snn_ := snn_ s |}).
Definition gets_snn {A} (f : CpuSNN -> A) : M A := fun s => Ok (f (snn_ s), s).
Definition modify_snn (f : CpuSNN -> CpuSNN) : M unit :=
  fun s => Ok (tt, {| this := this s; snn_ := f (snn_ s) |}).

(** [for (int i = lo; i < lo + n; i++) acc = body(i, acc);] *)
Fixpoint for_fold {A} (n : nat) (i : Z) (body : Z -> A -> M A) (acc : A) : M A :=
  match n with
  | O => ret acc
  | S n' => acc' <- body i acc ;; for_fold n' (i + 1) body acc'
  end.

Definition for_upto (hi : Z) (body : Z -> M unit) : M unit :=
  for_fold (Z.to_nat hi) 0 (fun i _ => body i) tt.

(** [v[i]] on a [std::vector]: no bounds check. *)
Definition at_index {A} (v : list A) (i : Z) : M A :=
  if (0 <=? i) && (i <? Z.of_nat (length v)) then
    match v !! Z.to_nat i with
    | Some x => ret x
    | None => undefined
    end
  else undefined.

(** The CARLSIM_ERROR / CARLSIM_WARN macros of snn_definitions.h. *)
Definition CARLSIM_ERROR (msg : string) : M unit :=
  modify_snn (fun c => set_logged (logged c ++ [(SevError, msg)]) c).
Definition CARLSIM_WARN (msg : string) : M unit :=
  modify_snn (fun c => set_logged (logged c ++ [(SevWarn, msg)]) c).

(** [fwrite(&x, sizeof(int), 1, f)]: the number of items written. *)
Definition fwrite (x : file_item) (f : FILE) : M Z :=
  fun s =>
    match streams (snn_ s) !! f with
    | None => Undefined
    | Some st =>
        if writable st then
          Ok (1, {| this := this s;
                    snn_ := set_streams
                              (<[f := {| writable := true; written := written st ++ [x] |}]>
                                 (streams (snn_ s))) (snn_ s) |})
        else Ok (0, s)
    end.

(** Inline accessors of the header. *)
Definition isRecording : M bool := gets recordSet_.
Definition getMode : M spikeMonMode_t := gets mode_.
Definition getRecordingTotalTime : M Z := gets totalTime_.
Definition setPersistentData (b : bool) : M unit := modify (set_persistentData_ b).

(** [v.assign(n, x)]; [n] is [nNeurons_], which [init] asserts positive. *)
Definition vec_assign {A} (n : Z) (x : A) : list A := replicate (Z.to_nat n) x.

(** [v.resize(n)] on a vector of vectors *)
Definition vec_resize {A} (n : Z) (v : list (list A)) : list (list A) :=
  take (Z.to_nat n) v ++ replicate (Z.to_nat n - length v)%nat [].

(** [std::sort(first, last)] on floats: the order [operator<] leaves only
    one sorted arrangement of the values, so any sorting algorithm models
    it; this one inserts each value before the first one that is not
    smaller. *)
Fixpoint sort_insert (x : float) (l : list float) : list float :=
  match l with
  | [] => [x]
  | y :: l' => if flt y x then y :: sort_insert x l' else x :: y :: l'
  end.

Fixpoint std_sort (l : list float) : list float :=
  match l with
  | [] => []
  | x :: l' => sort_insert x (std_sort l')
  end.

(** [n * 1000.0 / t] stored in a [float] *)
Definition rate_Hz (n t : Z) : float :=
  float_of_double (ddiv (dmul (double_of_Z n) d1000) (double_of_Z t)).

(** ** The methods, in the order of the source where dependencies allow *)

(* calculate average firing rate for every neuron if we haven't done so already *)
Definition calculateFiringRates : M unit :=
  need <- gets needToCalculateFiringRates_ ;;
  if negb need then ret tt
  else
    md <- getMode ;;
    assert (mode_eqb md AER) ;;
    n <- gets nNeurons_ ;;
    modify (set_firingRates_ (vec_assign n fzero)) ;;
    modify (set_firingRatesSorted_ (vec_assign n fzero)) ;;
    t <- gets totalTime_ ;;
    if t =? 0 then
      CARLSIM_WARN "SpikeMonitorCore: calculateFiringRates has 0 totalTime"
    else
      assert (0 <? t) ;;
      for_upto n (fun i =>
        v <- gets spkVector_ ;;
        row <- at_index v i ;;
        fr <- gets firingRates_ ;;
        _ <- at_index fr i ;;
        t <- gets totalTime_ ;;
        modify (set_firingRates_
                  (<[Z.to_nat i := rate_Hz (Z.of_nat (length row)) t]> fr))) ;;
      modify (set_needToCalculateFiringRates_ false).

(* sort firing rates if we haven't done so already *)
Definition sortFiringRates : M unit :=
  need <- gets needToSortFiringRates_ ;;
  if negb need then ret tt
  else
    calculateFiringRates ;;
    fr <- gets firingRates_ ;;
    modify (set_firingRatesSorted_ fr) ;;
    modify (fun m => set_firingRatesSorted_ (std_sort (firingRatesSorted_ m)) m) ;;
    modify (set_needToSortFiringRates_ false).

Definition clear : M unit :=
  r <- isRecording ;;
  assert (negb r) ;;
  modify (set_recordSet_ false) ;;
  modify (set_startTime_ (-1)) ;;
  modify (set_startTimeLast_ (-1)) ;;
  modify (set_stopTime_ (-1)) ;;
  modify (set_accumTime_ 0) ;;
  modify (set_totalTime_ (-1)) ;;
  n <- gets nNeurons_ ;;
  for_upto n (fun i =>
    v <- gets spkVector_ ;;
    _ <- at_index v i ;;
    modify (set_spkVector_ (<[Z.to_nat i := []]> v))) ;;
  modify (set_needToCalculateFiringRates_ true) ;;
  modify (set_needToSortFiringRates_ true) ;;
  modify (set_firingRates_ []) ;;
  modify (set_firingRatesSorted_ []) ;;
  n <- gets nNeurons_ ;;
  modify (set_firingRates_ (vec_assign n fzero)) ;;
  modify (set_firingRatesSorted_ (vec_assign n fzero)).

Definition getNeuronNumSpikes (neurId : Z) : M Z :=
  r <- isRecording ;;
  assert (negb r) ;;
  n <- gets nNeurons_ ;;
  assert ((0 <=? neurId) && (neurId <? n)) ;;
  md <- getMode ;;
  assert (mode_eqb md AER) ;;
  v <- gets spkVector_ ;;
  row <- at_index v neurId ;;
  ret (Z.of_nat (length row)).

Definition getPopNumSpikes : M Z :=
  r <- isRecording ;;
  assert (negb r) ;;
  n <- gets nNeurons_ ;;
  for_fold (Z.to_nat n) 0
    (fun i nSpk => k <- getNeuronNumSpikes i ;; ret (nSpk + k)) 0.

Definition getPopMeanFiringRate : M float :=
  r <- isRecording ;;
  assert (negb r) ;;
  t <- gets totalTime_ ;;
  if t =? 0 then ret fzero
  else
    nSpk <- getPopNumSpikes ;;
    t' <- getRecordingTotalTime ;;
    n <- gets nNeurons_ ;;
    ret (float_of_double (ddiv (dmul (double_of_Z nSpk) d1000) (double_of_Z (t' * n)))).

Definition getAllFiringRates : M (list float) :=
  r <- isRecording ;;
  assert (negb r) ;;
  calculateFiringRates ;;
  gets firingRates_.

Definition getPopStdFiringRate : M float :=
  r <- isRecording ;;
  assert (negb r) ;;
  t <- gets totalTime_ ;;
  if t =? 0 then ret fzero
  else
    meanRate <- getPopMeanFiringRate ;;
    rates <- getAllFiringRates ;;
    n <- gets nNeurons_ ;;
    if 1 <? n then
      std <- for_fold (Z.to_nat n) 0
               (fun i std =>
                  ri <- at_index rates i ;;
                  ret (fadd std (fmul (fsub ri meanRate) (fsub ri meanRate))))
               fzero ;;
      ret (fsqrt (fdiv std (float_of_Z (n - 1))))
    else ret fzero.

Definition getAllFiringRatesSorted : M (list float) :=
  r <- isRecording ;;
  assert (negb r) ;;
  sortFiringRates ;;
  gets firingRatesSorted_.

Definition getMaxFiringRate : M float :=
  r <- isRecording ;;
  assert (negb r) ;;
  rates <- getAllFiringRatesSorted ;;
  match last rates with
  | Some x => ret x
  | None => undefined
  end.

Definition getMinFiringRate : M float :=
  r <- isRecording ;;
  assert (negb r) ;;
  rates <- getAllFiringRatesSorted ;;
  match head rates with
  | Some x => ret x
  | None => undefined
  end.

Definition getNeuronMeanFiringRate (neurId : Z) : M float :=
  r <- isRecording ;;
  assert (negb r) ;;
  n <- gets nNeurons_ ;;
  assert ((0 <=? neurId) && (neurId <? n)) ;;
  k <- getNeuronNumSpikes neurId ;;
  t <- getRecordingTotalTime ;;
  ret (rate_Hz k t).

(** The body of the counting loop over [firingRatesSorted_]. *)
Definition count_step (min max : float) (counter : Z) (it : float) : Z :=
  if fge it min && fle it max then counter + 1 else counter.

Definition getNumNeuronsWithFiringRate (min max : float) : M Z :=
  r <- isRecording ;;
  assert (negb r) ;;
  assert (fge min fzero && fge max fzero) ;;
  assert (fge max min) ;;
  sortFiringRates ;;
  sorted <- gets firingRatesSorted_ ;;
  ret (fold_left (count_step min max) sorted 0).

Definition getNumSilentNeurons : M Z :=
  r <- isRecording ;;
  assert (negb r) ;;
  getNumNeuronsWithFiringRate fzero fzero.

Definition getPercentNeuronsWithFiringRate (min max : float) : M float :=
  r <- isRecording ;;
  assert (negb r) ;;
  c <- getNumNeuronsWithFiringRate min max ;;
  n <- gets nNeurons_ ;;
  ret (float_of_double (ddiv (dmul (double_of_Z c) d100) (double_of_Z n))).

Definition getPercentSilentNeurons : M float :=
  r <- isRecording ;;
  assert (negb r) ;;
  c <- getNumNeuronsWithFiringRate (float_of_Z 0) (float_of_Z 0) ;;
  n <- gets nNeurons_ ;;
  ret (float_of_double (ddiv (dmul (double_of_Z c) d100) (double_of_Z n))).

Definition getSpikeVector2D : M (list (list Z)) :=
  r <- isRecording ;;
  assert (negb r) ;;
  md <- gets mode_ ;;
  assert (mode_eqb md AER) ;;
  gets spkVector_.

Definition pushAER (time neurId : Z) : M unit :=
  r <- isRecording ;;
  assert r ;;
  md <- getMode ;;
  assert (mode_eqb md AER) ;;
  v <- gets spkVector_ ;;
  row <- at_index v neurId ;;
  modify (set_spkVector_ (<[Z.to_nat neurId := row ++ [time]]> v)).

Fixpoint for_each {A} (l : list A) (body : A -> M unit) : M unit :=
  match l with
  | [] => ret tt
  | x :: l' => body x ;; for_each l' body
  end.

(** Modelled from the spec: [CpuSNN::updateSpikeMonitor] is declared in
    snn.h and defined outside the sources.  The spec has it as the flush
    the monitor asks for before each change of state: the simulator hands
    over the spikes it has buffered for the group, and pushes them into the
    store only while the monitor is recording in mode [AER]; spikes flushed
    at any other moment do not reach the store. *)
Definition updateSpikeMonitor (grpId : Z) : M unit :=
  evs <- gets_snn buffered ;;
  modify_snn (set_buffered []) ;;
  r <- isRecording ;;
  md <- getMode ;;
  if r && mode_eqb md AER then for_each evs (fun ev => pushAER (fst ev) (snd ev))
  else ret tt.

(** [snn_->getSimTimeSec()*1000 + snn_->getSimTimeMs()] *)
Definition currentTimeMs : M Z :=
  sec <- gets_snn simTimeSec ;;
  ms <- gets_snn simTimeMs ;;
  ret (sec * 1000 + ms).

Definition startRecording : M unit :=
  r <- isRecording ;;
  assert (negb r) ;;
  p <- gets persistentData_ ;;
  (if negb p then clear else ret tt) ;;
  g <- gets grpId_ ;;
  updateSpikeMonitor g ;;
  modify (set_needToCalculateFiringRates_ true) ;;
  modify (set_needToSortFiringRates_ true) ;;
  modify (set_recordSet_ true) ;;
  currentTime <- currentTimeMs ;;
  p <- gets persistentData_ ;;
  if p then
    modify (fun m => set_startTime_ (if startTime_ m <? 0 then currentTime else startTime_ m) m) ;;
    modify (set_startTimeLast_ currentTime) ;;
    modify (fun m => set_accumTime_ (if 0 <? totalTime_ m then totalTime_ m else 0) m)
  else
    modify (set_startTime_ currentTime) ;;
    modify (set_startTimeLast_ currentTime) ;;
    modify (set_accumTime_ 0).

Definition stopRecording : M unit :=
  r <- isRecording ;;
  assert r ;;
  t0 <- gets startTime_ ;;
  t1 <- gets startTimeLast_ ;;
  acc <- gets accumTime_ ;;
  assert ((-1 <? t0) && (-1 <? t1) && (-1 <? acc)) ;;
  g <- gets grpId_ ;;
  updateSpikeMonitor g ;;
  modify (set_recordSet_ false) ;;
  now <- currentTimeMs ;;
  modify (set_stopTime_ now) ;;
  modify (fun m => set_totalTime_ (stopTime_ m - startTimeLast_ m + accumTime_ m) m) ;;
  t <- gets totalTime_ ;;
  assert (0 <=? t).

(* write the header section of the spike file *)
Definition writeSpikeFileHeader : M unit :=
  need <- gets needToWriteFileHeader_ ;;
  if negb need then ret tt
  else
    sig <- gets spikeFileSignature_ ;;
    f <- gets spikeFileId_ ;;
    k <- fwrite (IntBytes sig) f ;;
    (if k =? 0 then CARLSIM_ERROR "SpikeMonitorCore: writeSpikeFileHeader has fwrite error"
     else ret tt) ;;
    ver <- gets spikeFileVersion_ ;;
    f <- gets spikeFileId_ ;;
    k <- fwrite (FloatBytes ver) f ;;
    (if k =? 0 then CARLSIM_ERROR "SpikeMonitorCore: writeSpikeFileHeader has fwrite error"
     else ret tt) ;;
    modify (set_needToWriteFileHeader_ false).

Definition setSpikeFileId (spikeFileId : FILE) : M unit :=
  r <- isRecording ;;
  assert (negb r) ;;
  cur <- gets spikeFileId_ ;;
  (if negb (cur =? NULL)
   then CARLSIM_ERROR "SpikeMonitorCore: setSpikeFileId has already been called."
   else ret tt) ;;
  modify (set_spikeFileId_ spikeFileId) ;;
  modify (set_needToWriteFileHeader_ true) ;;
  writeSpikeFileHeader.

Definition init : M unit :=
  g <- gets grpId_ ;;
  n <- gets_snn (fun c => groupNumNeurons c g) ;;
  modify (set_nNeurons_ n) ;;
  assert (0 <? n) ;;
  modify (fun m => set_spkVector_ (vec_resize n (spkVector_ m)) m) ;;
  clear.

(** The constructor.  [raw] is the storage the object is built in: the
    members the constructor does not initialise before [init] start with
    whatever [raw] holds. *)
Definition SpikeMonitorCore_new (raw : SpikeMonitorCore) (snn : CpuSNN)
    (monitorId grpId : Z) : outcome (unit * St) :=
  init {| this := {| grpId_ := grpId;
                     monitorId_ := monitorId;
                     nNeurons_ := -1;
                     spikeFileId_ := NULL;
                     recordSet_ := false;
                     spkMonLastUpdated_ := 0;
                     mode_ := AER;
                     persistentData_ := false;
                     needToWriteFileHeader_ := true;
                     spikeFileSignature_ := 206661989;
                     spikeFileVersion_ := fone;
                     spkVector_ := [];
                     startTime_ := startTime_ raw;
                     startTimeLast_ := startTimeLast_ raw;
                     stopTime_ := stopTime_ raw;
                     accumTime_ := accumTime_ raw;
                     totalTime_ := totalTime_ raw;
                     needToCalculateFiringRates_ := needToCalculateFiringRates_ raw;
                     needToSortFiringRates_ := needToSortFiringRates_ raw;
                     firingRates_ := [];
                     firingRatesSorted_ := [] |};
          snn_ := snn |}.

(** ** Specification-level definitions *)

(** Apply a change to the object and leave the simulator as it is. *)
Definition upd (f : SpikeMonitorCore -> SpikeMonitorCore) (s : St) : St :=
  {| this := f (this s); snn_ := snn_ s |}.
Arguments upd _ _ /.

(** The sign and class of a rounded result. *)
Definition signed_nonzero (s : bool) (x : spec_float) : Prop :=
  match x with
  | S754_finite s' _ _ | S754_infinity s' => s' = s
  | _ => False
  end.

Definition signed_finite (s : bool) (x : spec_float) : Prop :=
  match x with
  | S754_finite s' _ _ => s' = s
  | _ => False
  end.

Definition LONG_MAX : Z := 2 ^ 63 - 1.

(** The rate of every neuron, as the store and the total time determine it. *)
Definition rates_of (m : SpikeMonitorCore) : list float :=
  if totalTime_ m =? 0 then vec_assign (nNeurons_ m) fzero
  else map (fun row => rate_Hz (Z.of_nat (length row)) (totalTime_ m)) (spkVector_ m).

(** The number of spikes of every neuron and of the population. *)
Definition spike_counts (m : SpikeMonitorCore) : list Z :=
  map (fun row => Z.of_nat (length row)) (spkVector_ m).

Definition sumZ (l : list Z) : Z := fold_right Z.add 0 l.

(** The invariant of the object between two method calls. *)
Record wf (m : SpikeMonitorCore) : Prop := {
  wf_neurons : 0 < nNeurons_ m;
  wf_store : Z.of_nat (length (spkVector_ m)) = nNeurons_ m;
  wf_mode : mode_ m = AER;
  wf_rates :
    needToCalculateFiringRates_ m = false ->
    0 < totalTime_ m /\ firingRates_ m = rates_of m;
  wf_sorted :
    needToSortFiringRates_ m = false ->
    firingRatesSorted_ m = std_sort (rates_of m) /\
    (needToCalculateFiringRates_ m = false \/ totalTime_ m = 0);
  wf_recording :
    recordSet_ m = true ->
    needToCalculateFiringRates_ m = true /\ needToSortFiringRates_ m = true
}.

(** The object after [clear()]. *)
Definition cleared (m : SpikeMonitorCore) : SpikeMonitorCore :=
  set_firingRatesSorted_ (vec_assign (nNeurons_ m) fzero)
    (set_firingRates_ (vec_assign (nNeurons_ m) fzero)
      (set_needToSortFiringRates_ true
        (set_needToCalculateFiringRates_ true
          (set_spkVector_ (replicate (length (spkVector_ m)) [])
            (set_totalTime_ (-1)
              (set_accumTime_ 0
                (set_stopTime_ (-1)
                  (set_startTimeLast_ (-1)
                    (set_startTime_ (-1)
                      (set_recordSet_ false m)))))))))).

(** The object and the simulator after [calculateFiringRates()] has
    returned. *)
Definition calculated (m : SpikeMonitorCore) : SpikeMonitorCore :=
  if needToCalculateFiringRates_ m then
    if totalTime_ m =? 0 then
      set_firingRatesSorted_ (vec_assign (nNeurons_ m) fzero)
        (set_firingRates_ (vec_assign (nNeurons_ m) fzero) m)
    else
      set_needToCalculateFiringRates_ false
        (set_firingRates_ (rates_of m)
          (set_firingRatesSorted_ (vec_assign (nNeurons_ m) fzero) m))
  else m.

Definition warn_zero_time : severity * string :=
  (SevWarn, "SpikeMonitorCore: calculateFiringRates has 0 totalTime"%string).

Definition calculated_snn (m : SpikeMonitorCore) (c : CpuSNN) : CpuSNN :=
  if needToCalculateFiringRates_ m && (totalTime_ m =? 0)
  then set_logged (logged c ++ [warn_zero_time]) c
  else c.

(** ... and after [sortFiringRates()]. *)
Definition sorted (m : SpikeMonitorCore) : SpikeMonitorCore :=
  if needToSortFiringRates_ m then
    set_needToSortFiringRates_ false
      (set_firingRatesSorted_ (std_sort (firingRates_ (calculated m))) (calculated m))
  else m.

Definition sorted_snn (m : SpikeMonitorCore) (c : CpuSNN) : CpuSNN :=
  if needToSortFiringRates_ m then calculated_snn m c else c.

(** What a query may change: nothing but the two rate caches and their
    dirty flags, and on the simulator's side nothing but the log. *)
Record query_frame (s s' : St) : Prop := {
  qf_grpId : grpId_ (this s') = grpId_ (this s);
  qf_monitorId : monitorId_ (this s') = monitorId_ (this s);
  qf_nNeurons : nNeurons_ (this s') = nNeurons_ (this s);
  qf_spikeFileId : spikeFileId_ (this s') = spikeFileId_ (this s);
  qf_recordSet : recordSet_ (this s') = recordSet_ (this s);
  qf_lastUpdated : spkMonLastUpdated_ (this s') = spkMonLastUpdated_ (this s);
  qf_mode : mode_ (this s') = mode_ (this s);
  qf_persistent : persistentData_ (this s') = persistentData_ (this s);
  qf_header : needToWriteFileHeader_ (this s') = needToWriteFileHeader_ (this s);
  qf_signature : spikeFileSignature_ (this s') = spikeFileSignature_ (this s);
  qf_version : spikeFileVersion_ (this s') = spikeFileVersion_ (this s);
  qf_spkVector : spkVector_ (this s') = spkVector_ (this s);
  qf_startTime : startTime_ (this s') = startTime_ (this s);
  qf_startTimeLast : startTimeLast_ (this s') = startTimeLast_ (this s);
  qf_stopTime : stopTime_ (this s') = stopTime_ (this s);
  qf_accumTime : accumTime_ (this s') = accumTime_ (this s);
  qf_totalTime : totalTime_ (this s') = totalTime_ (this s);
  qf_simTimeSec : simTimeSec (snn_ s') = simTimeSec (snn_ s);
  qf_simTimeMs : simTimeMs (snn_ s') = simTimeMs (snn_ s);
  qf_groups : groupNumNeurons (snn_ s') = groupNumNeurons (snn_ s);
  qf_buffered : buffered (snn_ s') = buffered (snn_ s);
  qf_streams : streams (snn_ s') = streams (snn_ s)
}.

(** A computation that, whenever it returns, has kept to [query_frame]. *)
Definition framed {A} (c : M A) : Prop :=
  forall s a s', c s = Ok (a, s') -> query_frame s s'.

(** Order notions on lists of rates. *)
Definition non_decreasing (l : list float) : Prop :=
  forall (i : nat) a b, l !! i = Some a -> l !! S i = Some b -> fle a b = true.

Definition is_max_of (x : float) (l : list float) : Prop :=
  In x l /\ Forall (fun y => fle y x = true) l.

Definition is_min_of (x : float) (l : list float) : Prop :=
  In x l /\ Forall (fun y => fle x y = true) l.

(** The number of rates [r] with [min <= r <= max]. *)
Fixpoint count_in_range (min max : float) (l : list float) : Z :=
  match l with
  | [] => 0
  | r :: l' => (if fge r min && fle r max then 1 else 0) + count_in_range min max l'
  end.

(** The sum the standard deviation is the root of. *)
Definition sum_sq_dev (mean : float) (rates : list float) : float :=
  fold_left (fun acc r => fadd acc (fmul (fsub r mean) (fsub r mean))) rates fzero.

(** The store after the spike [(time, neurId)] has been pushed. *)
Definition store_push (v : list (list Z)) (ev : Z * Z) : list (list Z) :=
  match v !! Z.to_nat (snd ev) with
  | Some row => <[Z.to_nat (snd ev) := row ++ [fst ev]]> v
  | None => v
  end.

Definition in_store (m : SpikeMonitorCore) (ev : Z * Z) : Prop :=
  0 <= snd ev < Z.of_nat (length (spkVector_ m)).

(** A monitor that is idle, and one that is idle with a recording
    completed ([stopRecording] has set a total time). *)
Definition idle (m : SpikeMonitorCore) : Prop :=
  wf m /\ recordSet_ m = false.

Definition recorded (m : SpikeMonitorCore) : Prop :=
  wf m /\ recordSet_ m = false /\ 0 <= totalTime_ m.

(** The two states a query that refreshes the caches can end in. *)
Definition after_calculate (s : St) : St :=
  {| this := calculated (this s); snn_ := calculated_snn (this s) (snn_ s) |}.

Definition after_sort (s : St) : St :=
  {| this := sorted (this s); snn_ := sorted_snn (this s) (snn_ s) |}.

(** The mean rate and the standard deviation as the spec words them. *)
Definition mean_rate_spec (m : SpikeMonitorCore) : float :=
  if totalTime_ m =? 0 then fzero
  else float_of_double
         (ddiv (dmul (double_of_Z (sumZ (spike_counts m))) d1000)
               (double_of_Z (totalTime_ m * nNeurons_ m))).

Definition std_rate_spec (m : SpikeMonitorCore) : float :=
  fsqrt (fdiv (sum_sq_dev (mean_rate_spec m) (rates_of m))
              (float_of_Z (nNeurons_ m - 1))).

Definition percent_spec (count n : Z) : float :=
  float_of_double (ddiv (dmul (double_of_Z count) d100) (double_of_Z n)).

(** The clock reading [getSimTimeSec()*1000 + getSimTimeMs()]. *)
Definition current_time (c : CpuSNN) : Z := simTimeSec c * 1000 + simTimeMs c.

(** The state after the buffered spikes have been flushed into a recording
    monitor. *)
Definition flushed (s : St) : St :=
  {| this := set_spkVector_
               (fold_left store_push (buffered (snn_ s)) (spkVector_ (this s))) (this s);
     snn_ := set_buffered [] (snn_ s) |}.

(** The object after [startRecording()] in persistent mode at time [now]. *)
Definition started_persistent (now : Z) (m : SpikeMonitorCore) : SpikeMonitorCore :=
  set_accumTime_ (if 0 <? totalTime_ m then totalTime_ m else 0)
    (set_startTimeLast_ now
      (set_startTime_ (if startTime_ m <? 0 then now else startTime_ m)
        (set_recordSet_ true
          (set_needToSortFiringRates_ true
            (set_needToCalculateFiringRates_ true m))))).

(** ... and in the default mode. *)
Definition started_fresh (now : Z) (m : SpikeMonitorCore) : SpikeMonitorCore :=
  set_accumTime_ 0
    (set_startTimeLast_ now
      (set_startTime_ now
        (set_recordSet_ true
          (set_needToSortFiringRates_ true
            (set_needToCalculateFiringRates_ true (cleared m)))))).

(** The object after [stopRecording()] at time [now]. *)
Definition stopped (now : Z) (m : SpikeMonitorCore) : SpikeMonitorCore :=
  set_totalTime_ (now - startTimeLast_ m + accumTime_ m)
    (set_stopTime_ now (set_recordSet_ false m)).

Definition header_error : severity * string :=
  (SevError, "SpikeMonitorCore: writeSpikeFileHeader has fwrite error"%string).

Definition rebind_error : severity * string :=
  (SevError, "SpikeMonitorCore: setSpikeFileId has already been called."%string).

(** The two items of the header. *)
Definition header_of (m : SpikeMonitorCore) : list file_item :=
  [IntBytes (spikeFileSignature_ m); FloatBytes (spikeFileVersion_ m)].

(** Modelled from the spec: the simulator running for [ms] milliseconds,
    which is outside the sources; the clock advances and the spikes the
    group fires are buffered until the next flush. *)
Definition simulate (ms : Z) (spikes : list (Z * Z)) : M unit :=
  modify_snn (fun c =>
    let t := current_time c + ms in
    set_buffered (buffered c ++ spikes) (set_simTime (t / 1000) (t mod 1000) c)).

(** The object the constructor leaves behind for a group of [n] neurons. *)
Definition fresh_monitor (monitorId grpId n : Z) : SpikeMonitorCore :=
  {| grpId_ := grpId;
     monitorId_ := monitorId;
     nNeurons_ := n;
     spikeFileId_ := NULL;
     recordSet_ := false;
     spkMonLastUpdated_ := 0;
     mode_ := AER;
     persistentData_ := false;
     needToWriteFileHeader_ := true;
     spikeFileSignature_ := 206661989;
     spikeFileVersion_ := fone;
     spkVector_ := replicate (Z.to_nat n) [];
     startTime_ := -1;
     startTimeLast_ := -1;
     stopTime_ := -1;
     accumTime_ := 0;
     totalTime_ := -1;
     needToCalculateFiringRates_ := true;
     needToSortFiringRates_ := true;
     firingRates_ := vec_assign n fzero;
     firingRatesSorted_ := vec_assign n fzero |}.

(** The stream [f] with the items [items] appended. *)
Definition stream_append (f : FILE) (st : stream) (items : list file_item)
    (ss : gmap Z stream) : gmap Z stream :=
  <[f := {| writable := true; written := written st ++ items |}]> ss.

(** ** Concrete monitors used as examples *)

(** A simulator with one group of two neurons and one open stream, 7. *)
Definition snn_example : CpuSNN :=
  {| simTimeSec := 0;
     simTimeMs := 0;
     groupNumNeurons := fun _ => 2;
     buffered := [];
     streams := {[ 7 := {| writable := true; written := [] |} ]};
     logged := [] |}.

(** The monitor right after construction: idle, nothing recorded. *)
Definition s_fresh : St :=
  {| this := fresh_monitor 0 0 2; snn_ := snn_example |}.

(** The monitor one second into a recording started at time 0, with three
    spikes buffered by the simulator. *)
Definition s_recording : St :=
  {| this := started_fresh 0 (fresh_monitor 0 0 2);
     snn_ := set_simTime 1 0 (set_buffered [(10, 0); (20, 0); (30, 1)] snn_example) |}.

(** The same monitor after [stopRecording()]: neuron 0 has spiked at 10 and
    20, neuron 1 at 30, over 1000 ms. *)
Definition s_recorded : St :=
  {| this := stopped 1000 (set_spkVector_ [[10; 20]; [30]] (this s_recording));
     snn_ := set_simTime 1 0 snn_example |}.

(** Two recording windows of 500 ms in persistent mode, with the spikes
    [w1] in the first and [w2] in the second, and then the total time and
    the population spike count. *)
Definition two_windows (w1 w2 : list (Z * Z)) : M (Z * Z) :=
  setPersistentData true ;;
  startRecording ;;
  simulate 500 w1 ;;
  stopRecording ;;
  startRecording ;;
  simulate 500 w2 ;;
  stopRecording ;;
  t <- getRecordingTotalTime ;;
  k <- getPopNumSpikes ;;
  ret (t, k).

(** ** The life of a monitor *)

(** The statistics queries of the public interface. *)
Inductive query : forall A, M A -> Prop :=
| q_getPopMeanFiringRate : query _ getPopMeanFiringRate
| q_getPopStdFiringRate : query _ getPopStdFiringRate
| q_getPopNumSpikes : query _ getPopNumSpikes
| q_getAllFiringRates : query _ getAllFiringRates
| q_getMaxFiringRate : query _ getMaxFiringRate
| q_getMinFiringRate : query _ getMinFiringRate
| q_getNeuronMeanFiringRate i : query _ (getNeuronMeanFiringRate i)
| q_getNeuronNumSpikes i : query _ (getNeuronNumSpikes i)
| q_getAllFiringRatesSorted : query _ getAllFiringRatesSorted
| q_getNumNeuronsWithFiringRate min max : query _ (getNumNeuronsWithFiringRate min max)
| q_getNumSilentNeurons : query _ getNumSilentNeurons
| q_getPercentNeuronsWithFiringRate min max :
    query _ (getPercentNeuronsWithFiringRate min max)
| q_getPercentSilentNeurons : query _ getPercentSilentNeurons
| q_getSpikeVector2D : query _ getSpikeVector2D.

(** One step in the life of a monitor: a call of a public method that
    returns, or the simulator moving on by itself. *)
Inductive step : St -> St -> Prop :=
| step_clear s s' : clear s = Ok (tt, s') -> step s s'
| step_start s s' : startRecording s = Ok (tt, s') -> step s s'
| step_stop s s' : stopRecording s = Ok (tt, s') -> step s s'
| step_push t id s s' : pushAER t id s = Ok (tt, s') -> step s s'
| step_file f s s' : setSpikeFileId f s = Ok (tt, s') -> step s s'
| step_persistent b s s' : setPersistentData b s = Ok (tt, s') -> step s s'
| step_query A (q : M A) a s s' : query A q -> q s = Ok (a, s') -> step s s'
| step_simulator s c : step s {| this := this s; snn_ := c |}.

(** The states a constructed monitor can be in. *)
Inductive reachable : St -> Prop :=
| reachable_new raw snn monitorId grpId s :
    SpikeMonitorCore_new raw snn monitorId grpId = Ok (tt, s) -> reachable s
| reachable_step s s' : reachable s -> step s s' -> reachable s'.

(** A computation that keeps the invariant of an idle monitor. *)
Definition keeps_idle {A} (c : M A) : Prop :=
  forall s a s', idle (this s) -> c s = Ok (a, s') -> idle (this s').

(** The same two windows in the default mode: each start clears. *)
Definition two_windows_default (w1 w2 : list (Z * Z)) : M (Z * Z) :=
  startRecording ;;
  simulate 500 w1 ;;
  stopRecording ;;
  startRecording ;;
  simulate 500 w2 ;;
  stopRecording ;;
  t <- getRecordingTotalTime ;;
  k <- getPopNumSpikes ;;
  ret (t, k).

(** One neuron spiking at 10, 20 and 30 in a window of 1000 ms: its spike
    count and its mean rate. *)
Definition single_neuron_run : outcome ((Z * float) * St) :=
  match SpikeMonitorCore_new (fresh_monitor 0 0 0)
          {| simTimeSec := 0; simTimeMs := 0; groupNumNeurons := fun _ => 1;
             buffered := []; streams := ∅; logged := [] |} 0 0 with
  | Ok (_, s) =>
      (startRecording ;;
       simulate 1000 [(10, 0); (20, 0); (30, 0)] ;;
       stopRecording ;;
       k <- getNeuronNumSpikes 0 ;;
       r <- getNeuronMeanFiringRate 0 ;;
       ret (k, r)) s
  | AssertFail => AssertFail
  | Undefined => Undefined
  end.
(** ** The destructor *)

(** [fclose(f)]: the stream is closed and its handle is dead; closing what
    is not an open stream is undefined. *)
Definition fclose (f : FILE) : M unit :=
  fun s =>
    match streams (snn_ s) !! f with
    | None => Undefined
    | Some _ =>
        Ok (tt, {| this := this s;
                   snn_ := set_streams (delete f (streams (snn_ s))) (snn_ s) |})
    end.

(** [SpikeMonitorCore::~SpikeMonitorCore()] *)
Definition SpikeMonitorCore_delete : M unit :=
  f <- gets spikeFileId_ ;;
  if negb (f =? NULL) then
    fclose f ;;
    modify (set_spikeFileId_ NULL)
  else ret tt.

(** ** More specification-level definitions *)


(** The number of neurons whose spike list is empty. *)
Definition count_silent (v : list (list Z)) : Z :=
  Z.of_nat (length (List.filter (fun row => match row with [] => true | _ => false end) v)).

(** [k] calls of [getAllFiringRates()] in a row. *)
Definition repeat_getAllFiringRates (k : nat) : M unit :=
  for_fold k 0 (fun _ _ => _ <- getAllFiringRates ;; ret tt) tt.

(** A rate that is a number and not below zero. *)
Definition nonneg_rate (r : float) : Prop :=
  is_nan r = false /\ fle fzero r = true.

(** The members no method assigns after the constructor has run. *)
Definition same_identity (m m' : SpikeMonitorCore) : Prop :=
  grpId_ m' = grpId_ m /\
  monitorId_ m' = monitorId_ m /\
  nNeurons_ m' = nNeurons_ m /\
  mode_ m' = mode_ m /\
  spikeFileSignature_ m' = spikeFileSignature_ m /\
  spikeFileVersion_ m' = spikeFileVersion_ m /\
  length (spkVector_ m') = length (spkVector_ m).

(** ** The spike sender of the demo server (server_windows.cpp) *)

Definition BUF_LEN : Z := 128.
Definition INT_MAX : Z := 2 ^ 31 - 1.

(** Conversion to [unsigned int]. *)
Definition to_uint (z : Z) : Z := z mod 2 ^ 32.

Record SOCKADDR_IN : Type := { sin_addr : Z; sin_port : Z }.

(** [ntohs] on the little-endian hosts the server is built for: the two
    bytes of a 16-bit value swapped. *)
Definition ntohs (x : Z) : Z := (x mod 256) * 256 + (x / 256) mod 256.

(** The data members of [SpikeController]. *)
Record SpikeController : Type := {
  dataSocket : Z;
  clientAddr : SOCKADDR_IN;
  buf : list Z;                  (* unsigned int buf[BUF_LEN] *)
  bufPos : Z
}.

(** What leaves the process: the datagrams handed to [sendto], each with
    its socket and destination, and the two numbers of every line [printf]
    writes. *)
Record Wire : Type := {
  datagrams : list (Z * SOCKADDR_IN * list Z);
  console : list (Z * Z)
}.

(** [sendto(s, (char* )words, 4 * length words, 0, to, ...)] on a datagram
    socket: the words leave as one datagram and their size in bytes comes
    back.  The code uses the result for nothing but the line it prints. *)
Definition sendto (sock : Z) (words : list Z) (to : SOCKADDR_IN) (w : Wire) : Z * Wire :=
  (4 * Z.of_nat (length words),
   {| datagrams := datagrams w ++ [(sock, to, words)]; console := console w |}).

(** [sendto] followed by the [printf] that reports it. *)
Definition send_and_report (c : SpikeController) (words : list Z) (w : Wire) : Wire :=
  let '(numByteSent, w') := sendto (dataSocket c) words (clientAddr c) w in
  {| datagrams := datagrams w';
     console := console w' ++ [(numByteSent, ntohs (sin_port (clientAddr c)))] |}.

(** The constructor; [raw] is what the storage of [buf] holds, which the
    constructor leaves as it is. *)
Definition SpikeController_new (raw : list Z) (ds : Z) (cd : SOCKADDR_IN) : SpikeController :=
  {| dataSocket := ds; clientAddr := cd; buf := raw; bufPos := 0 |}.

Definition nextSpikeTime (grpId nid currentTime lastScheduledSpikeTime : Z) : Z :=
  4294967295.

(** [grpId << 24] as an [unsigned int], and the word a neuron id is sent
    as. *)
Definition group_bits (grpId : Z) : Z := to_uint (Z.shiftl grpId 24).
Definition spike_word (id gId : Z) : Z := Z.lor id gId.

(** The body of the inner loop of [update] after [time] and [id] have been
    read: two words into the buffer, and the buffer sent when it is full. *)
Definition put_spike (time word : Z) (st : SpikeController * Wire)
    : outcome (SpikeController * Wire) :=
  let '(c, w) := st in
  if (0 <=? bufPos c) && (bufPos c + 1 <? BUF_LEN) then
    let b := <[Z.to_nat (bufPos c + 1) := word]> (<[Z.to_nat (bufPos c) := time]> (buf c)) in
    let p := bufPos c + 2 in
    if BUF_LEN <=? p then
      Ok ({| dataSocket := dataSocket c; clientAddr := clientAddr c; buf := b; bufPos := 0 |},
          send_and_report c (take (Z.to_nat BUF_LEN) b) w)
    else
      Ok ({| dataSocket := dataSocket c; clientAddr := clientAddr c; buf := b; bufPos := p |},
          w)
  else Undefined.

(** [for (int i = 0; i < timeCnts[t]; i++, pos++)] with [n] passes left *)
Fixpoint spikes_of_ms (n : nat) (simTime gId t : Z) (Nids : list Z) (pos : Z)
    (st : SpikeController * Wire) : outcome (Z * (SpikeController * Wire)) :=
  match n with
  | O => Ok (pos, st)
  | S n' =>
      let time := to_uint (t + simTime - 1000) in
      if (0 <=? pos) && (pos <? Z.of_nat (length Nids)) then
        match Nids !! Z.to_nat pos with
        | Some id =>
            match put_spike time (spike_word id gId) st with
            | Ok st' =>
                if pos <? INT_MAX then spikes_of_ms n' simTime gId t Nids (pos + 1) st'
                else Undefined
            | AssertFail => AssertFail
            | Undefined => Undefined
            end
        | None => Undefined
        end
      else Undefined
  end.

(** [for (int t = ...; t < 1000; t++)] with [n] passes left *)
Fixpoint ms_loop (n : nat) (simTime gId t : Z) (Nids timeCnts : list Z) (pos : Z)
    (st : SpikeController * Wire) : outcome (Z * (SpikeController * Wire)) :=
  match n with
  | O => Ok (pos, st)
  | S n' =>
      match timeCnts !! Z.to_nat t with
      | Some cnt =>
          match spikes_of_ms (Z.to_nat cnt) simTime gId t Nids pos st with
          | Ok (pos', st') => ms_loop n' simTime gId (t + 1) Nids timeCnts pos' st'
          | AssertFail => AssertFail
          | Undefined => Undefined
          end
      | None => Undefined
      end
  end.

(** [SpikeController::update(s, grpId, Nids, timeCnts)], with [simTime]
    what [s->getSimTime()] returns during the call. *)
Definition update (simTime grpId : Z) (Nids timeCnts : list Z)
    (st : SpikeController * Wire) : outcome (SpikeController * Wire) :=
  let gId := group_bits grpId in
  match ms_loop 1000 simTime gId 0 Nids timeCnts 0 st with
  | Ok (_, (c, w)) =>
      Ok ({| dataSocket := dataSocket c; clientAddr := clientAddr c; buf := buf c; bufPos := 0 |},
          if 0 <? bufPos c then send_and_report c (take (Z.to_nat (bufPos c)) (buf c)) w
          else w)
  | AssertFail => AssertFail
  | Undefined => Undefined
  end.

(** The spikes of a second as [update] is handed them: the first
    [timeCnts[0]] ids of [Nids] have fired in millisecond 0, the next
    [timeCnts[1]] in millisecond 1, and so on; each spike is a pair of its
    millisecond and its id. *)
Fixpoint spike_events (t : Z) (timeCnts Nids : list Z) : list (Z * Z) :=
  match timeCnts with
  | [] => []
  | cnt :: rest =>
      map (pair t) (take (Z.to_nat cnt) Nids)
      ++ spike_events (t + 1) rest (drop (Z.to_nat cnt) Nids)
  end.

(** The number of spikes the counts announce. *)
Fixpoint total_spikes (timeCnts : list Z) : nat :=
  match timeCnts with
  | [] => O
  | cnt :: rest => (Z.to_nat cnt + total_spikes rest)%nat
  end.

(** The two words of one spike, and the words of all spikes of a second. *)
Definition spike_words (simTime grpId : Z) (ev : Z * Z) : list Z :=
  [to_uint (fst ev + simTime - 1000); spike_word (snd ev) (group_bits grpId)].

Definition payload (simTime grpId : Z) (Nids timeCnts : list Z) : list Z :=
  flat_map (spike_words simTime grpId) (spike_events 0 (take 1000 timeCnts) Nids).

(** The datagrams and the console lines that sending the word lists [ds]
    from the controller [c] adds. *)
Definition sent_as (c : SpikeController) (ds : list (list Z)) : list (Z * SOCKADDR_IN * list Z) :=
  map (fun d => (dataSocket c, clientAddr c, d)) ds.

Definition reported_as (c : SpikeController) (ds : list (list Z)) : list (Z * Z) :=
  map (fun d => (4 * Z.of_nat (length d), ntohs (sin_port (clientAddr c)))) ds.

(** What holds between two spikes while [update] runs on the controller
    [c0] and the wire [w0]: the buffer has its [BUF_LEN] words and is
    filled up to an even position below [BUF_LEN]; every datagram sent so
    far was a full buffer; and the datagrams sent so far followed by the
    filled part of the buffer are the words of the spikes [done] so far. *)
Definition sender_inv (simTime grpId : Z) (c0 : SpikeController) (w0 : Wire)
    (done : list (Z * Z)) (st : SpikeController * Wire) : Prop :=
  dataSocket (fst st) = dataSocket c0 /\
  clientAddr (fst st) = clientAddr c0 /\
  length (buf (fst st)) = Z.to_nat BUF_LEN /\
  exists (k : nat) (full : list (list Z)),
    bufPos (fst st) = Z.of_nat (2 * k) /\
    (2 * k < Z.to_nat BUF_LEN)%nat /\
    Forall (fun d => length d = Z.to_nat BUF_LEN) full /\
    datagrams (snd st) = datagrams w0 ++ sent_as c0 full /\
    console (snd st) = console w0 ++ reported_as c0 full /\
    concat full ++ take (2 * k) (buf (fst st)) = flat_map (spike_words simTime grpId) done.

(** A series of [update] calls, one per simulated second, each with its
    [(simTime, grpId, Nids, timeCnts)]. *)
Fixpoint updates (calls : list (Z * Z * list Z * list Z)) (st : SpikeController * Wire)
    : outcome (SpikeController * Wire) :=
  match calls with
  | [] => Ok st
  | (simTime, grpId, Nids, timeCnts) :: rest =>
      match update simTime grpId Nids timeCnts st with
      | Ok st' => updates rest st'
      | AssertFail => AssertFail
      | Undefined => Undefined
      end
  end.

(** The arrays of a call are as long as [update] takes them to be:
    [timeCnts] has an entry for each of the 1000 milliseconds, and [Nids]
    an id for every spike the counts announce. *)
Definition arrays_fit (call : Z * Z * list Z * list Z) : Prop :=
  let '(_, _, Nids, timeCnts) := call in
  (1000 <= length timeCnts)%nat /\
  (total_spikes (take 1000 timeCnts) <= length Nids)%nat /\
  Z.of_nat (total_spikes (take 1000 timeCnts)) <= INT_MAX.

Definition payload_of (call : Z * Z * list Z * list Z) : list Z :=
  let '(simTime, grpId, Nids, timeCnts) := call in payload simTime grpId Nids timeCnts.

(** The words of all datagrams on the wire, in the order sent. *)
Definition words_sent (w : Wire) : list Z := concat (map snd (datagrams w)).

(** * Lemmas *)

(** ** Rounding: a conversion or an operation on non-zero operands never
    produces a NaN, and keeps the sign *)

Section Rounding.
Variables prec emax : Z.
Hypothesis Hprec : 0 < prec.
Hypothesis Hemax : 2 <= emax.

Lemma digits2_size p : digits2_pos p = Pos.size p.
Proof. induction p; simpl; congruence. Qed.

Lemma digits2_lower p : 2 ^ (Zpos (digits2_pos p) - 1) <= Zpos p.
Proof.
  rewrite digits2_size.
  pose proof (Pos.size_le p) as H.
  apply Pos2Z.pos_le_pos in H.
  rewrite Pos2Z.inj_pow in H.
  replace (Zpos (Pos.size p)) with (Z.succ (Zpos (Pos.size p) - 1)) in H by lia.
  rewrite Z.pow_succ_r in H by lia. lia.
Qed.

Lemma digits2_upper p k : 0 <= k -> Zpos p < 2 ^ k -> Zpos (digits2_pos p) <= k.
Proof.
  intros Hk Hp. pose proof (digits2_lower p) as Hl.
  destruct (Z_le_gt_dec (Zpos (digits2_pos p)) k) as [|Hgt]; [assumption|exfalso].
  assert (2 ^ k <= 2 ^ (Zpos (digits2_pos p) - 1)) by (apply Z.pow_le_mono_r; lia).
  lia.
Qed.

Lemma shr_m_shr_1 mrs : 0 <= shr_m mrs -> shr_m (shr_1 mrs) = shr_m mrs / 2.
Proof.
  destruct mrs as [m r s]; cbn [shr_m]. intros Hm.
  destruct m as [|[p|p|]|p]; cbn [shr_1 shr_m]; try lia; try reflexivity.
  - apply Z.div_unique with 1; lia.
  - apply Z.div_unique with 0; lia.
Qed.

Lemma shr_m_iter k : forall mrs,
  0 <= shr_m mrs -> shr_m (SpecFloat.iter_pos shr_1 k mrs) = shr_m mrs / 2 ^ Zpos k.
Proof.
  assert (Hnn : forall mrs, 0 <= shr_m mrs -> 0 <= shr_m (shr_1 mrs)).
  { intros mrs H. rewrite shr_m_shr_1 by assumption. apply Z.div_pos; lia. }
  assert (Hpow : forall j, 0 < 2 ^ Zpos j) by (intros; apply Z.pow_pos_nonneg; lia).
  induction k as [k IH|k IH|]; intros mrs Hm; cbn [SpecFloat.iter_pos].
  - rewrite IH, IH, shr_m_shr_1; auto.
    + rewrite !Z.div_div by (pose proof (Hpow k); lia). f_equal.
      replace (Zpos k~1) with (1 + Zpos k + Zpos k) by lia.
      rewrite !Z.pow_add_r by lia. lia.
    + rewrite IH by auto. apply Z.div_pos; [auto|apply Hpow].
  - rewrite IH, IH; auto.
    + rewrite !Z.div_div by (pose proof (Hpow k); lia). f_equal.
      replace (Zpos k~0) with (Zpos k + Zpos k) by lia.
      rewrite !Z.pow_add_r by lia. lia.
    + rewrite IH by auto. apply Z.div_pos; [auto|apply Hpow].
  - rewrite shr_m_shr_1 by assumption. reflexivity.
Qed.

Lemma shr_m_of_loc m l : shr_m (shr_record_of_loc m l) = m.
Proof. destruct l as [|[]]; reflexivity. Qed.

Lemma shr_fexp_pos m e l :
  0 < m -> emin prec emax <= e ->
  exists mrs e', shr_fexp prec emax m e l = (mrs, e') /\
    0 < shr_m mrs <= m /\ e <= e' <= e + Z.max 0 (Zdigits2 m - prec).
Proof.
  intros Hm He. unfold shr_fexp, shr.
  destruct m as [|p|p]; try lia. cbn [Zdigits2].
  set (D := Zpos (digits2_pos p)).
  assert (Hn : fexp prec emax (D + e) - e = D - prec \/ fexp prec emax (D + e) - e <= 0).
  { unfold fexp, emin in *. lia. }
  destruct (fexp prec emax (D + e) - e) as [|n|n] eqn:En.
  - eexists _, _; split; [reflexivity|]. rewrite shr_m_of_loc. lia.
  - destruct Hn as [Hn|Hn]; [|lia].
    eexists _, _; split; [reflexivity|].
    rewrite shr_m_iter by (rewrite shr_m_of_loc; lia).
    rewrite shr_m_of_loc, Hn.
    pose proof (digits2_lower p) as Hl. fold D in Hl.
    assert (Hpow : 2 ^ (D - 1) = 2 ^ (prec - 1) * 2 ^ (D - prec)).
    { rewrite <- Z.pow_add_r by lia. f_equal. lia. }
    assert (0 < 2 ^ (D - prec)) by (apply Z.pow_pos_nonneg; lia).
    assert (0 < 2 ^ (prec - 1)) by (apply Z.pow_pos_nonneg; lia).
    assert (2 ^ (prec - 1) <= Zpos p / 2 ^ (D - prec)).
    { apply Z.div_le_lower_bound; lia. }
    assert (Zpos p / 2 ^ (D - prec) <= Zpos p).
    { apply Z.div_le_upper_bound; nia. }
    lia.
  - eexists _, _; split; [reflexivity|]. rewrite shr_m_of_loc. lia.
Qed.

Lemma round_nearest_even_bounds m l :
  m <= round_nearest_even m l <= m + 1.
Proof. unfold round_nearest_even. destruct l as [|[]]; try destruct (Z.even m); lia. Qed.

Lemma Zdigits2_mono_succ m m' :
  0 < m -> 0 < m' <= m + 1 -> Zdigits2 m' <= Zdigits2 m + 1.
Proof.
  intros Hm Hm'. destruct m as [|p|p], m' as [|p'|p']; try lia. cbn [Zdigits2].
  apply digits2_upper; [lia|].
  pose proof (Pos.size_gt p) as H. rewrite <- digits2_size in H.
  apply Pos2Z.pos_lt_pos in H. rewrite Pos2Z.inj_pow in H.
  rewrite Z.pow_add_r by lia. lia.
Qed.

Lemma binary_round_aux_pos s m e l :
  0 < m -> emin prec emax <= e ->
  signed_nonzero s (binary_round_aux prec emax s m e l) /\
  (e + 2 * Zdigits2 m + 1 <= emax - prec ->
   signed_finite s (binary_round_aux prec emax s m e l)).
Proof.
  intros Hm He. unfold binary_round_aux.
  destruct (shr_fexp_pos m e l Hm He) as (mrs1 & e1 & -> & Hm1 & He1).
  pose proof (round_nearest_even_bounds (shr_m mrs1) (loc_of_shr_record mrs1)) as Hr.
  set (m2 := round_nearest_even (shr_m mrs1) (loc_of_shr_record mrs1)) in *.
  assert (Hm2 : 0 < m2) by lia.
  assert (He1' : emin prec emax <= e1) by lia.
  destruct (shr_fexp_pos m2 e1 loc_Exact Hm2 He1') as (mrs2 & e2 & -> & Hm3 & He2).
  assert (HD : Zdigits2 m2 <= Zdigits2 m + 1).
  { apply Zdigits2_mono_succ; lia. }
  destruct (shr_m mrs2) as [|p|p] eqn:E; try lia.
  destruct (Z.leb_spec e2 (emax - prec)); cbn [signed_nonzero signed_finite]; split; auto.
  intros Hb.
  assert (0 < Zdigits2 m) by (destruct m; simpl; lia).
  lia.
Qed.

Lemma binary_round_aux_nonnan s m e l :
  0 <= m -> binary_round_aux prec emax s m e l <> S754_nan.
Proof.
  intros Hm. unfold binary_round_aux.
  assert (Hshr : forall m e l, 0 <= m -> 0 <= shr_m (fst (shr_fexp prec emax m e l))).
  { clear. intros m e l Hm. unfold shr_fexp, shr.
    destruct (fexp prec emax (Zdigits2 m + e) - e) as [|n|n]; simpl;
      rewrite ?shr_m_of_loc; try lia.
    rewrite shr_m_iter by (rewrite shr_m_of_loc; lia). rewrite shr_m_of_loc.
    apply Z.div_pos; [lia|]. apply Z.pow_pos_nonneg; lia. }
  pose proof (Hshr m e l Hm) as H1.
  destruct (shr_fexp prec emax m e l) as [mrs1 e1]. simpl in H1.
  pose proof (round_nearest_even_bounds (shr_m mrs1) (loc_of_shr_record mrs1)) as Hr.
  set (m2 := round_nearest_even (shr_m mrs1) (loc_of_shr_record mrs1)) in *.
  assert (Hm2 : 0 <= m2) by lia.
  pose proof (Hshr m2 e1 loc_Exact Hm2) as H2.
  destruct (shr_fexp prec emax m2 e1 loc_Exact) as [mrs2 e2]. simpl in H2.
  destruct (shr_m mrs2); try lia; try discriminate.
  destruct (e2 <=? emax - prec); discriminate.
Qed.

Lemma iter_xO_pow p k : Zpos (Pos.iter xO p k) = Zpos p * 2 ^ Zpos k.
Proof.
  induction k as [|k IH] using Pos.peano_ind.
  - simpl. lia.
  - rewrite Pos.iter_succ, Pos2Z.inj_xO, IH, Pos2Z.inj_succ, Z.pow_succ_r by lia. lia.
Qed.

Lemma binary_round_pos s p :
  signed_nonzero s (binary_round prec emax s p 0) /\
  (forall k, prec <= k -> Zpos p < 2 ^ k -> 2 * k + 1 <= emax - prec ->
     signed_finite s (binary_round prec emax s p 0)).
Proof.
  unfold binary_round, shl_align.
  set (D := Zpos (digits2_pos p)).
  assert (HD : 0 < D) by (unfold D; lia).
  assert (Hf : fexp prec emax (D + 0) = D - prec).
  { unfold fexp, emin. lia. }
  rewrite Hf.
  destruct (D - prec - 0) as [|n|n] eqn:En.
  - destruct (binary_round_aux_pos s (Zpos p) 0 loc_Exact) as [H1 H2];
      [lia|unfold emin; lia|].
    split; [exact H1|]. intros k Hk Hp Hb. apply H2. cbn [Zdigits2]. fold D. lia.
  - destruct (binary_round_aux_pos s (Zpos p) 0 loc_Exact) as [H1 H2];
      [lia|unfold emin; lia|].
    split; [exact H1|]. intros k Hk Hp Hb. apply H2. cbn [Zdigits2]. fold D.
    assert (D <= k) by (apply digits2_upper; lia). lia.
  - destruct (binary_round_aux_pos s (Zpos (Pos.iter xO p n)) (D - prec) loc_Exact)
      as [H1 H2]; [lia|unfold emin; lia|].
    split; [exact H1|]. intros k Hk Hp Hb. apply H2. cbn [Zdigits2].
    assert (Zpos (digits2_pos (Pos.iter xO p n)) <= prec).
    { apply digits2_upper; [lia|]. rewrite iter_xO_pow.
      pose proof (Pos.size_gt p) as H. rewrite <- digits2_size in H.
      apply Pos2Z.pos_lt_pos in H. rewrite Pos2Z.inj_pow in H. fold D in H.
      replace prec with (D + Zpos n) by lia.
      rewrite Z.pow_add_r by lia.
      assert (0 < 2 ^ Zpos n) by (apply Z.pow_pos_nonneg; lia). nia. }
    lia.
Qed.

End Rounding.

Lemma binary_round_nonnan prec emax s p e :
  binary_round prec emax s p e <> S754_nan.
Proof.
  unfold binary_round.
  destruct (shl_align p e (fexp prec emax (Zpos (digits2_pos p) + e))) as [mz ez].
  apply binary_round_aux_nonnan. lia.
Qed.

Lemma double_of_Z_nonnan z : double_of_Z z <> S754_nan.
Proof.
  unfold double_of_Z, binary_normalize.
  destruct z; [discriminate | apply binary_round_nonnan ..].
Qed.

Lemma double_of_Z_pos t :
  0 < t <= LONG_MAX -> signed_finite false (double_of_Z t).
Proof.
  intros Ht. unfold double_of_Z, binary_normalize.
  destruct t as [|p|p]; try lia.
  apply (binary_round_pos prec64 emax64) with (k := 63); unfold prec64, emax64; try lia.
  unfold LONG_MAX in Ht. lia.
Qed.

Lemma double_of_Z_neg z : z < 0 -> signed_nonzero true (double_of_Z z).
Proof.
  intros Hz. unfold double_of_Z, binary_normalize.
  destruct z as [|p|p]; try lia.
  apply (binary_round_pos prec64 emax64); unfold prec64, emax64; lia.
Qed.

Lemma float_of_Z_pos z : 0 < z -> signed_nonzero false (float_of_Z z).
Proof.
  intros Hz. unfold float_of_Z, binary_normalize.
  destruct z as [|p|p]; try lia.
  apply (binary_round_pos prec32 emax32); unfold prec32, emax32; lia.
Qed.

Lemma dmul_d1000_nonnan x : x <> S754_nan -> dmul x d1000 <> S754_nan.
Proof.
  intros Hx.
  change d1000 with (S754_finite false 8796093022208000 (-43)).
  unfold dmul, SFmul. destruct x as [sx|sx| |sx mx ex]; try discriminate; try congruence.
  apply binary_round_aux_nonnan. lia.
Qed.

Lemma ddiv_finite_nonnan x y s :
  x <> S754_nan -> signed_finite s y -> ddiv x y <> S754_nan.
Proof.
  intros Hx Hy. unfold ddiv, SFdiv.
  destruct y as [sy|sy| |sy my ey]; try contradiction.
  destruct x as [sx|sx| |sx mx ex]; try discriminate; try congruence.
  unfold SFdiv_core_binary.
  set (m' := match _ with Z0 => _ | Zpos _ => _ | Zneg _ => _ end).
  assert (Hm' : 0 <= m').
  { subst m'. destruct (_ - _ - _); try lia. apply Z.shiftl_nonneg. lia. }
  pose proof (Z_div_mod m' (Zpos my) ltac:(lia)) as Hdiv.
  destruct (Z.div_eucl m' (Zpos my)) as [q r].
  apply binary_round_aux_nonnan. nia.
Qed.

Lemma float_of_double_nonnan x : x <> S754_nan -> float_of_double x <> S754_nan.
Proof.
  intros Hx. destruct x; simpl; try congruence. apply binary_round_nonnan.
Qed.

Lemma rate_Hz_nonnan n t : 0 < t <= LONG_MAX -> is_nan (rate_Hz n t) = false.
Proof.
  intros Ht.
  assert (H : rate_Hz n t <> S754_nan).
  { unfold rate_Hz. apply float_of_double_nonnan.
    apply ddiv_finite_nonnan with (s := false).
    - apply dmul_d1000_nonnan, double_of_Z_nonnan.
    - apply double_of_Z_pos, Ht. }
  destruct (rate_Hz n t); try reflexivity. congruence.
Qed.

(** ** The order of [float] values that are no NaN *)

Ltac cmp_cases :=
  repeat match goal with
  | |- context [Z.compare ?a ?b] => destruct (Z.compare_spec a b)
  | |- context [Pos.compare_cont Eq ?a ?b] =>
      change (Pos.compare_cont Eq a b) with (Pos.compare a b);
      destruct (Pos.compare_spec a b)
  end.

Lemma SFleb_trans x y z :
  SFleb x y = true -> SFleb y z = true -> SFleb x z = true.
Proof.
  unfold SFleb, SFcompare.
  destruct x as [sx|sx| |sx mx ex], y as [sy|sy| |sy my ey], z as [sz|sz| |sz mz ez];
    try destruct sx; try destruct sy; try destruct sz;
    try (intros; simpl in *; congruence);
    cmp_cases; simpl; intros; subst; try congruence; try lia.
Qed.

Lemma SFleb_total x y :
  is_nan x = false -> is_nan y = false -> SFleb x y = true \/ SFleb y x = true.
Proof.
  unfold SFleb, SFcompare.
  destruct x as [sx|sx| |sx mx ex], y as [sy|sy| |sy my ey];
    try destruct sx; try destruct sy; simpl; intros; try discriminate; auto;
    cmp_cases; simpl; subst; auto; try lia.
Qed.

Lemma SFltb_false_leb x y :
  is_nan x = false -> is_nan y = false -> SFltb x y = false -> SFleb y x = true.
Proof.
  unfold SFleb, SFltb, SFcompare.
  destruct x as [sx|sx| |sx mx ex], y as [sy|sy| |sy my ey];
    try destruct sx; try destruct sy; simpl; intros; try discriminate; auto;
    revert H1; cmp_cases; simpl; subst; auto; try lia; try discriminate.
Qed.

Lemma SFltb_leb x y : SFltb x y = true -> SFleb x y = true.
Proof. unfold SFltb, SFleb. destruct (SFcompare x y) as [[]|]; auto. Qed.
(** ** Rounding: how far the exponent and the magnitude of a result can be
    from those of the exact value *)

(** A result that has the sign [s], is no zero and no NaN, and, when it is
    finite, has an exponent of at least [elo] and a magnitude (number of
    digits plus exponent) of at least [maglo]. *)
Definition float_bounds (s : bool) (elo maglo : Z) (x : spec_float) : Prop :=
  match x with
  | S754_finite s' m e => s' = s /\ elo <= e /\ maglo <= Zpos (digits2_pos m) + e
  | S754_infinity s' => s' = s
  | _ => False
  end.

Lemma Zdigits2_bounds m : 0 < m -> 2 ^ (Zdigits2 m - 1) <= m < 2 ^ Zdigits2 m.
Proof.
  destruct m as [|p|p]; try lia. intros _. cbn [Zdigits2].
  split; [apply digits2_lower|].
  pose proof (Pos.size_gt p) as H. rewrite <- digits2_size in H.
  apply Pos2Z.pos_lt_pos in H. rewrite Pos2Z.inj_pow in H. exact H.
Qed.

Lemma Zdigits2_pos m : 0 < m -> 0 < Zdigits2 m.
Proof. destruct m; simpl; lia. Qed.

Lemma Zdigits2_unique m d : 0 < m -> 2 ^ (d - 1) <= m < 2 ^ d -> Zdigits2 m = d.
Proof.
  intros Hm Hd. pose proof (Zdigits2_bounds m Hm) as HD.
  pose proof (Zdigits2_pos m Hm) as HDp.
  destruct (Z.lt_trichotomy (Zdigits2 m) d) as [Hlt|[Heq|Hgt]]; [exfalso|exact Heq|exfalso].
  - assert (2 ^ Zdigits2 m <= 2 ^ (d - 1)) by (apply Z.pow_le_mono_r; lia). lia.
  - assert (0 <= d).
    { destruct (Z.lt_ge_cases d 0) as [Hn|]; [|assumption].
      rewrite (Z.pow_neg_r 2 d Hn) in Hd. lia. }
    assert (2 ^ d <= 2 ^ (Zdigits2 m - 1)) by (apply Z.pow_le_mono_r; lia). lia.
Qed.

Lemma Zdigits2_ge m k : 0 < m -> 2 ^ (k - 1) <= m -> k <= Zdigits2 m.
Proof.
  intros Hm Hk. pose proof (Zdigits2_bounds m Hm) as HD.
  pose proof (Zdigits2_pos m Hm) as HDp.
  destruct (Z_le_gt_dec k (Zdigits2 m)) as [|Hgt]; [assumption|exfalso].
  assert (2 ^ Zdigits2 m <= 2 ^ (k - 1)) by (apply Z.pow_le_mono_r; lia). lia.
Qed.

Lemma Zdigits2_le m m' : 0 < m <= m' -> Zdigits2 m <= Zdigits2 m'.
Proof.
  intros Hm. apply Zdigits2_ge; [lia|].
  pose proof (Zdigits2_bounds m ltac:(lia)). lia.
Qed.

Lemma Zdigits2_div_pow m n :
  0 < m -> 0 <= n < Zdigits2 m -> 0 < m / 2 ^ n /\ Zdigits2 (m / 2 ^ n) = Zdigits2 m - n.
Proof.
  intros Hm Hn. pose proof (Zdigits2_bounds m Hm) as HD.
  set (D := Zdigits2 m) in *.
  assert (Hp : 0 < 2 ^ n) by (apply Z.pow_pos_nonneg; lia).
  assert (H1 : 2 ^ (D - 1) = 2 ^ n * 2 ^ (D - n - 1)).
  { rewrite <- Z.pow_add_r by lia. f_equal. lia. }
  assert (H2 : 2 ^ D = 2 ^ n * 2 ^ (D - n)).
  { rewrite <- Z.pow_add_r by lia. f_equal. lia. }
  assert (Hq : 0 < 2 ^ (D - n - 1)) by (apply Z.pow_pos_nonneg; lia).
  assert (Hlo : 2 ^ (D - n - 1) <= m / 2 ^ n) by (apply Z.div_le_lower_bound; lia).
  assert (Hhi : m / 2 ^ n < 2 ^ (D - n)) by (apply Z.div_lt_upper_bound; lia).
  split; [lia|]. apply Zdigits2_unique; [lia|].
  split; [exact Hlo|exact Hhi].
Qed.

Lemma Zdigits2_mul_pow m n :
  0 < m -> 0 <= n -> Zdigits2 (m * 2 ^ n) = Zdigits2 m + n.
Proof.
  intros Hm Hn. pose proof (Zdigits2_bounds m Hm) as HD.
  pose proof (Zdigits2_pos m Hm) as HDp.
  assert (Hp : 0 < 2 ^ n) by (apply Z.pow_pos_nonneg; lia).
  apply Zdigits2_unique; [nia|].
  replace (Zdigits2 m + n - 1) with (Zdigits2 m - 1 + n) by lia.
  rewrite !Z.pow_add_r by lia. nia.
Qed.

Lemma Zdigits2_mul m1 m2 :
  0 < m1 -> 0 < m2 -> Zdigits2 m1 + Zdigits2 m2 - 1 <= Zdigits2 (m1 * m2).
Proof.
  intros H1 H2. pose proof (Zdigits2_bounds m1 H1). pose proof (Zdigits2_bounds m2 H2).
  pose proof (Zdigits2_pos m1 H1). pose proof (Zdigits2_pos m2 H2).
  apply Zdigits2_ge; [nia|].
  replace (Zdigits2 m1 + Zdigits2 m2 - 1 - 1) with ((Zdigits2 m1 - 1) + (Zdigits2 m2 - 1)) by lia.
  rewrite Z.pow_add_r by lia.
  assert (0 < 2 ^ (Zdigits2 m1 - 1)) by (apply Z.pow_pos_nonneg; lia).
  assert (0 < 2 ^ (Zdigits2 m2 - 1)) by (apply Z.pow_pos_nonneg; lia).
  nia.
Qed.

Section RoundingBounds.
Variables prec emax : Z.
Hypothesis Hprec : 0 < prec.
Hypothesis Hemax : 2 <= emax.

Lemma shr_fexp_mag m e l :
  0 < m -> emin prec emax <= e ->
  exists mrs,
    shr_fexp prec emax m e l = (mrs, e + Z.max 0 (Zdigits2 m - prec)) /\
    0 < shr_m mrs /\ Zdigits2 (shr_m mrs) = Z.min (Zdigits2 m) prec.
Proof.
  intros Hm He. unfold shr_fexp, shr.
  pose proof (Zdigits2_pos m Hm) as HD.
  set (D := Zdigits2 m) in *.
  assert (Hn : fexp prec emax (D + e) - e = Z.max (D - prec) (emin prec emax - e)).
  { unfold fexp. lia. }
  destruct (fexp prec emax (D + e) - e) as [|n|n] eqn:En.
  - eexists; split; [f_equal; lia|]. rewrite shr_m_of_loc. split; [lia|]. fold D. lia.
  - assert (Hnd : Zpos n = D - prec) by lia.
    eexists; split; [f_equal; lia|].
    rewrite shr_m_iter by (rewrite shr_m_of_loc; lia). rewrite shr_m_of_loc.
    destruct (Zdigits2_div_pow m (Zpos n) Hm) as [Hq Hd]; [fold D; lia|].
    split; [exact Hq|]. rewrite Hd. fold D. lia.
  - eexists; split; [f_equal; lia|]. rewrite shr_m_of_loc. split; [lia|]. fold D. lia.
Qed.

Lemma binary_round_aux_bounds s m e l :
  0 < m -> emin prec emax <= e ->
  match binary_round_aux prec emax s m e l with
  | S754_finite s' m' e' =>
      s' = s /\
      e + Z.max 0 (Zdigits2 m - prec) <= e' <= e + Z.max 0 (Zdigits2 m - prec) + 1 /\
      Zdigits2 m + e <= Zpos (digits2_pos m') + e' <= Zdigits2 m + e + 1
  | S754_infinity s' => s' = s
  | _ => False
  end.
Proof.
  intros Hm He. unfold binary_round_aux.
  pose proof (Zdigits2_pos m Hm) as HD.
  destruct (shr_fexp_mag m e l Hm He) as (mrs1 & -> & Hm1 & Hd1).
  pose proof (round_nearest_even_bounds (shr_m mrs1) (loc_of_shr_record mrs1)) as Hr.
  set (m2 := round_nearest_even (shr_m mrs1) (loc_of_shr_record mrs1)) in *.
  assert (Hm2 : 0 < m2) by lia.
  assert (Hd2 : Zdigits2 (shr_m mrs1) <= Zdigits2 m2 <= Zdigits2 (shr_m mrs1) + 1).
  { split; [apply Zdigits2_le; lia|apply Zdigits2_mono_succ; lia]. }
  set (e1 := e + Z.max 0 (Zdigits2 m - prec)) in *.
  assert (He1 : emin prec emax <= e1) by (subst e1; lia).
  destruct (shr_fexp_mag m2 e1 loc_Exact Hm2 He1) as (mrs2 & -> & Hm3 & Hd3).
  destruct (shr_m mrs2) as [|p|p] eqn:E; try lia.
  cbn [Zdigits2] in Hd3.
  destruct (Z.leb_spec (e1 + Z.max 0 (Zdigits2 m2 - prec)) (emax - prec)); [|reflexivity].
  split; [reflexivity|]. subst e1. lia.
Qed.

Lemma digits2_iter_xO p d :
  Zpos (digits2_pos (Pos.iter xO p d)) = Zpos (digits2_pos p) + Zpos d.
Proof.
  change (Zdigits2 (Zpos (Pos.iter xO p d)) = Zdigits2 (Zpos p) + Zpos d).
  rewrite iter_xO_pow. apply Zdigits2_mul_pow; lia.
Qed.

Lemma binary_round_bounds s p e :
  emin prec emax <= e ->
  match binary_round prec emax s p e with
  | S754_finite s' m' e' =>
      s' = s /\
      Z.min e (fexp prec emax (Zpos (digits2_pos p) + e)) <= e'
        <= Z.max e (fexp prec emax (Zpos (digits2_pos p) + e)) + 1 /\
      Zpos (digits2_pos p) + e <= Zpos (digits2_pos m') + e' <= Zpos (digits2_pos p) + e + 1
  | S754_infinity s' => s' = s
  | _ => False
  end.
Proof.
  intros He. unfold binary_round, shl_align.
  set (D := Zpos (digits2_pos p)).
  assert (HD : 0 < D) by (unfold D; lia).
  set (F := fexp prec emax (D + e)).
  assert (HF : F = Z.max (D + e - prec) (emin prec emax)) by reflexivity.
  destruct (F - e) as [|n|n] eqn:En.
  - pose proof (binary_round_aux_bounds s (Zpos p) e loc_Exact ltac:(lia) He) as H.
    cbn [Zdigits2] in H. fold D in H.
    destruct (binary_round_aux prec emax s (Zpos p) e loc_Exact); auto.
    destruct H as (-> & H1 & H2). split; [reflexivity|]. lia.
  - pose proof (binary_round_aux_bounds s (Zpos p) e loc_Exact ltac:(lia) He) as H.
    cbn [Zdigits2] in H. fold D in H.
    destruct (binary_round_aux prec emax s (Zpos p) e loc_Exact); auto.
    destruct H as (-> & H1 & H2). split; [reflexivity|]. lia.
  - assert (HFe : emin prec emax <= F) by lia.
    pose proof (binary_round_aux_bounds s (Zpos (Pos.iter xO p n)) F loc_Exact ltac:(lia) HFe)
      as H.
    cbn [Zdigits2] in H. rewrite digits2_iter_xO in H. fold D in H.
    destruct (binary_round_aux prec emax s (Zpos (Pos.iter xO p n)) F loc_Exact); auto.
    destruct H as (-> & H1 & H2). split; [reflexivity|]. lia.
Qed.

End RoundingBounds.

Lemma double_of_Z_bounds c : 0 < c -> float_bounds false (-52) 1 (double_of_Z c).
Proof.
  intros Hc. unfold double_of_Z, binary_normalize. destruct c as [|p|p]; try lia.
  pose proof (binary_round_bounds prec64 emax64 ltac:(reflexivity) false p 0) as H.
  unfold prec64, emax64, fexp, emin in *.
  destruct (binary_round 53 1024 false p 0); cbn [float_bounds]; try (apply H; lia).
  destruct H as (-> & H1 & H2); [lia|]. split; [reflexivity|]. lia.
Qed.

Lemma double_of_Z_upper t :
  0 < t <= LONG_MAX ->
  exists m e, double_of_Z t = S754_finite false m e /\
              e <= 11 /\ Zpos (digits2_pos m) + e <= 64.
Proof.
  intros Ht. pose proof (double_of_Z_pos t Ht) as Hf.
  unfold double_of_Z, binary_normalize in *. destruct t as [|p|p]; try lia.
  pose proof (binary_round_bounds prec64 emax64 ltac:(reflexivity) false p 0) as H.
  assert (HD : Zpos (digits2_pos p) <= 63).
  { apply digits2_upper; [lia|]. unfold LONG_MAX in Ht. lia. }
  unfold prec64, emax64, fexp, emin in *.
  destruct (binary_round 53 1024 false p 0) as [| | |s m e]; try contradiction.
  destruct H as (-> & H1 & H2); [lia|]. exists m, e. split; [reflexivity|]. lia.
Qed.

Lemma dmul_d1000_bounds x :
  float_bounds false (-52) 1 x -> float_bounds false (-95) 10 (dmul x d1000).
Proof.
  change d1000 with (S754_finite false 8796093022208000 (-43)).
  unfold dmul, SFmul. destruct x as [sx|sx| |sx mx ex]; cbn [float_bounds]; try contradiction.
  - intros ->. reflexivity.
  - intros (-> & He & Hmag).
    pose proof (binary_round_aux_bounds prec64 emax64 ltac:(reflexivity) false
                  (Zpos (mx * 8796093022208000)) (ex + -43) loc_Exact ltac:(lia)) as H.
    pose proof (Zdigits2_mul (Zpos mx) 8796093022208000 ltac:(lia) ltac:(lia)) as Hd.
    change (Zpos mx * 8796093022208000) with (Zpos (mx * 8796093022208000)) in Hd.
    change (Zdigits2 8796093022208000) with 53 in Hd.
    cbn [Zdigits2] in Hd, H.
    unfold prec64, emax64, emin in *. cbn [xorb].
    destruct (binary_round_aux 53 1024 false (Zpos (mx * 8796093022208000)) (ex + -43) loc_Exact);
      cbn [float_bounds]; try (apply H; lia).
    destruct H as (-> & H1 & H2); [lia|]. split; [reflexivity|]. lia.
Qed.

Lemma ddiv_bounds y mz ez :
  float_bounds false (-95) 10 y ->
  ez <= 11 -> Zpos (digits2_pos mz) + ez <= 64 ->
  float_bounds false (-107) (-106) (ddiv y (S754_finite false mz ez)).
Proof.
  intros Hy Hez Hmz. unfold ddiv, SFdiv.
  destruct y as [sy|sy| |sy my ey]; cbn [float_bounds] in *; try contradiction.
  - subst. reflexivity.
  - destruct Hy as (-> & Hey & Hmy). cbn [xorb].
    unfold SFdiv_core_binary. cbn [Zdigits2].
    set (d1 := Zpos (digits2_pos my)) in *. set (d2 := Zpos (digits2_pos mz)) in *.
    assert (Hd1 : 0 < d1) by (unfold d1; lia).
    assert (Hd2 : 0 < d2) by (unfold d2; lia).
    set (e' := Z.min (fexp prec64 emax64 (d1 + ey - (d2 + ez))) (ey - ez)).
    assert (He' : -107 <= e' <= ey - ez /\ d2 - d1 + 53 <= ey - ez - e').
    { subst e'. unfold fexp, emin, prec64, emax64. lia. }
    set (sh := ey - ez - e') in *.
    set (m' := match sh with Z0 => Zpos my | Zpos _ => Z.shiftl (Zpos my) sh | Zneg _ => 0 end).
    assert (Hm' : m' = Zpos my * 2 ^ sh).
    { subst m'. destruct sh eqn:Es; try lia.
      apply Z.shiftl_mul_pow2. lia. }
    pose proof (Zdigits2_bounds (Zpos my) ltac:(lia)) as Hby. cbn [Zdigits2] in Hby. fold d1 in Hby.
    pose proof (Zdigits2_bounds (Zpos mz) ltac:(lia)) as Hbz. cbn [Zdigits2] in Hbz. fold d2 in Hbz.
    assert (Hge : Zpos mz <= m').
    { rewrite Hm'.
      assert (2 ^ d2 <= 2 ^ (d1 - 1) * 2 ^ sh).
      { rewrite <- Z.pow_add_r by lia. apply Z.pow_le_mono_r; lia. }
      assert (0 < 2 ^ sh) by (apply Z.pow_pos_nonneg; lia).
      nia. }
    pose proof (Z_div_mod m' (Zpos mz) ltac:(lia)) as Hdiv.
    destruct (Z.div_eucl m' (Zpos mz)) as [q r].
    assert (Hq : 0 < q) by nia.
    pose proof (binary_round_aux_bounds prec64 emax64 ltac:(reflexivity) false q e'
                  (new_location (Zpos mz) r) Hq) as H.
    unfold prec64, emax64, emin in *.
    destruct (binary_round_aux 53 1024 false q e' (new_location (Zpos mz) r));
      cbn [float_bounds]; try (apply H; lia).
    destruct H as (-> & H1 & H2); [lia|]. split; [reflexivity|].
    pose proof (Zdigits2_pos q Hq). lia.
Qed.

Lemma float_of_double_pos q elo maglo :
  -149 <= elo -> float_bounds false elo maglo q -> signed_nonzero false (float_of_double q).
Proof.
  intros Hlo Hq. destruct q as [sq|sq| |sq mq eq]; cbn [float_bounds] in Hq; try contradiction.
  - exact Hq.
  - destruct Hq as (-> & He & _). cbn [float_of_double].
    pose proof (binary_round_bounds prec32 emax32 ltac:(reflexivity) false mq eq) as H.
    unfold prec32, emax32, emin in *.
    destruct (binary_round 24 128 false mq eq); cbn [signed_nonzero]; apply H; lia.
Qed.

(** A neuron that has spiked has a rate above zero, whatever the rounding;
    one that has not has the rate zero. *)
Lemma rate_Hz_pos c t :
  0 < c -> 0 < t <= LONG_MAX -> signed_nonzero false (rate_Hz c t).
Proof.
  intros Hc Ht. unfold rate_Hz.
  destruct (double_of_Z_upper t Ht) as (mz & ez & -> & Hez & Hmz).
  apply float_of_double_pos with (elo := -107) (maglo := -106); [lia|].
  apply ddiv_bounds; [|assumption..].
  apply dmul_d1000_bounds, double_of_Z_bounds, Hc.
Qed.

Lemma rate_Hz_zero t : 0 < t <= LONG_MAX -> rate_Hz 0 t = fzero.
Proof.
  intros Ht. unfold rate_Hz.
  destruct (double_of_Z_upper t Ht) as (mz & ez & -> & _). reflexivity.
Qed.


Lemma signed_nonzero_above_zero r :
  signed_nonzero false r ->
  is_nan r = false /\ fle fzero r = true /\ fle r fzero = false.
Proof.
  destruct r as [s|s| |s m e]; cbn [signed_nonzero]; try contradiction;
    intros ->; repeat split; reflexivity.
Qed.

(** ** [std::sort] *)

Lemma sort_insert_perm x l : Permutation (sort_insert x l) (x :: l).
Proof.
  induction l as [|y l IH]; simpl; [reflexivity|].
  destruct (flt y x); [|reflexivity].
  rewrite IH. apply perm_swap.
Qed.

Lemma std_sort_perm l : Permutation (std_sort l) l.
Proof.
  induction l as [|x l IH]; simpl; [reflexivity|].
  rewrite sort_insert_perm. now constructor.
Qed.

Lemma std_sort_length l : length (std_sort l) = length l.
Proof. apply Permutation_length, std_sort_perm. Qed.

Lemma fle_refl x : is_nan x = false -> fle x x = true.
Proof. intros H. destruct (SFleb_total x x H H); assumption. Qed.

Lemma sort_insert_sorted x l :
  is_nan x = false ->
  Forall (fun y => is_nan y = false) l ->
  StronglySorted (fun a b => fle a b = true) l ->
  StronglySorted (fun a b => fle a b = true) (sort_insert x l).
Proof.
  intros Hx Hl Hs. induction Hs as [|y l Hs IH Hy]; simpl.
  - repeat constructor.
  - inversion Hl as [|? ? Hny Hl']; subst.
    destruct (flt y x) eqn:E.
    + constructor; [auto|].
      apply (Permutation_Forall (Permutation_sym (sort_insert_perm x l))).
      constructor; [apply SFltb_leb, E | exact Hy].
    + assert (Hxy : fle x y = true) by (apply SFltb_false_leb; assumption).
      constructor; [constructor; assumption|].
      constructor; [exact Hxy|].
      eapply Forall_impl; [exact Hy|].
      intros z Hz. simpl in Hz. eapply SFleb_trans; eassumption.
Qed.

Lemma std_sort_sorted l :
  Forall (fun y => is_nan y = false) l ->
  StronglySorted (fun a b => fle a b = true) (std_sort l).
Proof.
  induction 1 as [|x l Hx Hl IH]; simpl; [constructor|].
  apply sort_insert_sorted; auto.
  apply (Permutation_Forall (Permutation_sym (std_sort_perm l))), Hl.
Qed.

Lemma std_sort_zeros n : std_sort (replicate n fzero) = replicate n fzero.
Proof.
  induction n as [|n IH]; simpl; [reflexivity|].
  rewrite IH. destruct n; reflexivity.
Qed.

Lemma sorted_non_decreasing l :
  StronglySorted (fun a b => fle a b = true) l -> non_decreasing l.
Proof.
  induction 1 as [|x l Hs IH Hx]; intros i a b Ha Hb; [discriminate|].
  destruct i as [|i]; simpl in *.
  - injection Ha as <-. destruct l as [|y l]; [discriminate|].
    injection Hb as <-. now inversion Hx.
  - eapply IH; eassumption.
Qed.

Lemma sorted_last_max l x :
  Forall (fun y => is_nan y = false) l ->
  StronglySorted (fun a b => fle a b = true) l ->
  last l = Some x -> Forall (fun y => fle y x = true) l.
Proof.
  intros Hn Hs. revert x. induction Hs as [|y l Hs IH Hy]; intros x Hx; [constructor|].
  inversion Hn as [|? ? Hny Hn']; subst.
  destruct l as [|z l].
  - injection Hx as <-. constructor; [apply fle_refl, Hny|constructor].
  - change (last (z :: l) = Some x) in Hx.
    constructor; [|apply IH; assumption].
    assert (Hin : In x (z :: l)).
    { apply list_elem_of_In, list_elem_of_lookup. rewrite last_lookup in Hx. eauto. }
    rewrite Forall_forall in Hy. apply Hy, list_elem_of_In, Hin.
Qed.

Lemma sorted_head_min l x :
  Forall (fun y => is_nan y = false) l ->
  StronglySorted (fun a b => fle a b = true) l ->
  head l = Some x -> Forall (fun y => fle x y = true) l.
Proof.
  intros Hn Hs Hx. destruct Hs as [|y l Hs Hy]; [constructor|].
  injection Hx as <-. inversion Hn; subst.
  constructor; [apply fle_refl; assumption|exact Hy].
Qed.

Lemma count_in_range_perm min max l l' :
  Permutation l l' -> count_in_range min max l = count_in_range min max l'.
Proof. induction 1; simpl; lia. Qed.

Lemma fold_count_step min max l acc :
  fold_left (count_step min max) l acc = acc + count_in_range min max l.
Proof.
  revert acc. induction l as [|r l IH]; intros acc; simpl; [lia|].
  rewrite IH. unfold count_step. destruct (fge r min && fle r max); lia.
Qed.

(** ** Running the primitives *)

(** The reduction that evaluates updates and member accesses of the two
    records, and nothing else. *)
Declare Reduction members :=
  cbn [this snn_ upd
       grpId_ monitorId_ nNeurons_ spikeFileId_ recordSet_ spkMonLastUpdated_ mode_
       persistentData_ needToWriteFileHeader_ spikeFileSignature_ spikeFileVersion_
       spkVector_ startTime_ startTimeLast_ stopTime_ accumTime_ totalTime_
       needToCalculateFiringRates_ needToSortFiringRates_ firingRates_ firingRatesSorted_
       set_nNeurons_ set_spikeFileId_ set_recordSet_ set_persistentData_
       set_needToWriteFileHeader_ set_spkVector_ set_startTime_ set_startTimeLast_
       set_stopTime_ set_accumTime_ set_totalTime_ set_needToCalculateFiringRates_
       set_needToSortFiringRates_ set_firingRates_ set_firingRatesSorted_
       simTimeSec simTimeMs groupNumNeurons buffered streams logged
       set_buffered set_streams set_logged set_simTime].

Ltac proj_eval t := eval members in t.

Ltac proj_simpl :=
  match goal with |- ?G => let G' := proj_eval G in change G' end.

Ltac proj_simpl_all :=
  repeat match goal with
         | H : ?T |- _ => let T' := proj_eval T in progress change T' in H
         end;
  proj_simpl.

(** Name the members of the object and of the simulator, so that every
    update yields a state in which each member is given. *)
Ltac open_state s :=
  let m := fresh "m" in
  let c := fresh "c" in
  destruct s as [m c]; destruct m, c; proj_simpl_all.

Lemma run_bind {A B} (c : M A) (k : A -> M B) s a s' :
  c s = Ok (a, s') -> (bind c k) s = k a s'.
Proof. unfold bind. now intros ->. Qed.

Lemma run_bind_fail {A B} (c : M A) (k : A -> M B) s :
  c s = AssertFail -> (bind c k) s = AssertFail.
Proof. unfold bind. now intros ->. Qed.

Lemma bind_assoc {A B C} (c : M A) (k1 : A -> M B) (k2 : B -> M C) s :
  bind (bind c k1) k2 s = bind c (fun a => bind (k1 a) k2) s.
Proof. unfold bind. destruct (c s) as [[a s']| |]; reflexivity. Qed.

(** One step of a method body whose first statement is a primitive. *)
Ltac mstep :=
  cbn [negb andb mode_eqb];
  lazymatch goal with
  | |- bind (bind ?c ?k1) ?k2 ?s = _ => rewrite (bind_assoc c k1 k2 s)
  | |- bind (gets ?f) ?k ?s = _ =>
      let v := proj_eval (f (this s)) in
      change (bind (gets f) k s) with (k v s)
  | |- bind (gets_snn ?f) ?k ?s = _ =>
      let v := proj_eval (f (snn_ s)) in
      change (bind (gets_snn f) k s) with (k v s)
  | |- bind (modify ?f) ?k ?s = _ =>
      let s' := proj_eval ({| this := f (this s); snn_ := snn_ s |}) in
      change (bind (modify f) k s) with (k tt s')
  | |- bind (modify_snn ?f) ?k ?s = _ =>
      let s' := proj_eval ({| this := this s; snn_ := f (snn_ s) |}) in
      change (bind (modify_snn f) k s) with (k tt s')
  | |- bind (ret ?a) ?k ?s = _ => change (bind (ret a) k s) with (k a s)
  | |- bind (assert true) ?k ?s = _ => change (bind (assert true) k s) with (k tt s)
  | |- bind (assert false) ?k ?s = _ =>
      rewrite (run_bind_fail (assert false) k s eq_refl)
  end;
  cbv beta.

Lemma at_index_ok {A} (v : list A) (i : nat) x s :
  v !! i = Some x -> at_index v (Z.of_nat i) s = Ok (x, s).
Proof.
  intros H. unfold at_index.
  pose proof (lookup_lt_Some _ _ _ H) as Hlt.
  rewrite Nat2Z.id, H.
  destruct (Z.leb_spec 0 (Z.of_nat i)); [|lia].
  destruct (Z.ltb_spec (Z.of_nat i) (Z.of_nat (length v))); [reflexivity|lia].
Qed.

Lemma at_index_out {A} (v : list A) (i : Z) s :
  ~ (0 <= i < Z.of_nat (length v)) -> at_index v i s = @Undefined (A * St).
Proof.
  intros H. unfold at_index.
  destruct (Z.leb_spec 0 i), (Z.ltb_spec i (Z.of_nat (length v))); simpl; try reflexivity.
  lia.
Qed.

(** ** The loops *)

Lemma clear_loop k : forall (i : nat) s,
  (i + k <= length (spkVector_ (this s)))%nat ->
  for_fold k (Z.of_nat i)
    (fun i _ =>
       v <- gets spkVector_ ;;
       _ <- at_index v i ;;
       modify (set_spkVector_ (<[Z.to_nat i := []]> v))) tt s
  = Ok (tt, upd (fun m => set_spkVector_
                   (take i (spkVector_ m) ++ replicate k [] ++ drop (i + k) (spkVector_ m)) m) s).
Proof.
  induction k as [|k IH]; intros i s Hlen.
  - rewrite Nat.add_0_r. cbn [for_fold]. unfold ret.
    open_state s. cbn [replicate app]. now rewrite take_drop.
  - cbn [for_fold].
    destruct (lookup_lt_is_Some_2 (spkVector_ (this s)) i ltac:(lia)) as [row Hrow].
    open_state s. repeat mstep.
    erewrite run_bind by (apply at_index_ok, Hrow). cbv beta.
    repeat mstep. rewrite Nat2Z.id.
    replace (Z.of_nat i + 1) with (Z.of_nat (S i)) by lia.
    rewrite IH by (proj_simpl; rewrite length_insert; lia).
    proj_simpl. do 4 f_equal.
    rewrite (take_S_r _ _ []) by (apply list_lookup_insert_eq; lia).
    rewrite take_insert_ge by lia.
    rewrite drop_insert_lt by lia.
    rewrite <- app_assoc. now replace (i + S k)%nat with (S (i + k)) by lia.
Qed.

(** ** The methods, one by one *)

Lemma clear_ok s :
  recordSet_ (this s) = false ->
  Z.of_nat (length (spkVector_ (this s))) = nNeurons_ (this s) ->
  clear s = Ok (tt, upd cleared s).
Proof.
  intros Hrec Hlen. open_state s. rewrite Hrec. unfold clear, isRecording.
  repeat mstep.
  erewrite run_bind; cycle 1.
  { unfold for_upto.
    rewrite <- Hlen, Nat2Z.id. apply (clear_loop _ 0%nat). cbn. lia. }
  cbv beta. proj_simpl. repeat mstep. unfold modify, cleared. proj_simpl.
  rewrite take_0, Nat.add_0_l, drop_all, app_nil_r, Hlen. reflexivity.
Qed.

Lemma calc_loop k : forall (i : nat) s,
  (i + k <= length (spkVector_ (this s)))%nat ->
  length (firingRates_ (this s)) = length (spkVector_ (this s)) ->
  for_fold k (Z.of_nat i)
    (fun i _ =>
       v <- gets spkVector_ ;;
       row <- at_index v i ;;
       fr <- gets firingRates_ ;;
       _ <- at_index fr i ;;
       t <- gets totalTime_ ;;
       modify (set_firingRates_
                 (<[Z.to_nat i := rate_Hz (Z.of_nat (length row)) t]> fr))) tt s
  = Ok (tt, upd (fun m => set_firingRates_
                   (take i (firingRates_ m) ++
                    map (fun row => rate_Hz (Z.of_nat (length row)) (totalTime_ m))
                      (take k (drop i (spkVector_ m))) ++
                    drop (i + k) (firingRates_ m)) m) s).
Proof.
  induction k as [|k IH]; intros i s Hlen Hfr.
  - rewrite Nat.add_0_r. cbn [for_fold]. unfold ret.
    open_state s. rewrite take_0. cbn [map app]. now rewrite take_drop.
  - cbn [for_fold].
    destruct (lookup_lt_is_Some_2 (spkVector_ (this s)) i ltac:(lia)) as [row Hrow].
    destruct (lookup_lt_is_Some_2 (firingRates_ (this s)) i ltac:(lia)) as [r0 Hr0].
    open_state s.
    repeat mstep.
    erewrite run_bind by (apply at_index_ok, Hrow). cbv beta.
    repeat mstep.
    erewrite run_bind by (apply at_index_ok, Hr0). cbv beta.
    repeat mstep. rewrite Nat2Z.id.
    replace (Z.of_nat i + 1) with (Z.of_nat (S i)) by lia.
    rewrite IH by (proj_simpl; rewrite ?length_insert; lia).
    proj_simpl. do 4 f_equal.
    rewrite (take_S_r _ _ (rate_Hz (Z.of_nat (length row)) totalTime_0))
      by (apply list_lookup_insert_eq; lia).
    rewrite take_insert_ge by lia.
    rewrite drop_insert_lt by lia.
    rewrite (drop_S _ _ _ Hrow). cbn [firstn map].
    rewrite <- app_assoc. now replace (i + S k)%nat with (S (i + k)) by lia.
Qed.

Lemma calculateFiringRates_ok s :
  mode_ (this s) = AER ->
  Z.of_nat (length (spkVector_ (this s))) = nNeurons_ (this s) ->
  (needToCalculateFiringRates_ (this s) = true -> 0 <= totalTime_ (this s)) ->
  calculateFiringRates s
  = Ok (tt, {| this := calculated (this s);
               snn_ := calculated_snn (this s) (snn_ s) |}).
Proof.
  intros Hmode Hlen Ht. unfold calculateFiringRates, calculated, calculated_snn, getMode.
  mstep. destruct (needToCalculateFiringRates_ (this s)) eqn:Hneed; cbn [negb andb].
  2: { unfold ret. now destruct s. }
  specialize (Ht eq_refl).
  mstep. rewrite Hmode. repeat mstep.
  cbn [totalTime_ set_firingRatesSorted_ set_firingRates_].
  destruct (Z.eqb_spec (totalTime_ (this s)) 0) as [Hz|Hnz].
  - reflexivity.
  - destruct (Z.ltb_spec 0 (totalTime_ (this s))) as [Hpos|]; [|lia].
    mstep.
    erewrite run_bind; cycle 1.
    { unfold for_upto. cbn [nNeurons_ set_firingRatesSorted_ set_firingRates_].
      rewrite <- Hlen, Nat2Z.id. apply (calc_loop _ 0%nat).
      - cbn. lia.
      - cbn. unfold vec_assign. rewrite length_replicate. lia. }
    cbv beta. unfold modify, upd. cbn [this snn_]. f_equal. f_equal. f_equal.
    unfold rates_of. destruct (Z.eqb_spec (totalTime_ (this s)) 0); [lia|].
    proj_simpl. rewrite take_0, drop_0, Nat.add_0_l. cbn [app].
    rewrite drop_ge by (unfold vec_assign; rewrite length_replicate; lia).
    rewrite app_nil_r, firstn_all, Hlen. reflexivity.
Qed.

Lemma calculateFiringRates_unset s :
  mode_ (this s) = AER ->
  needToCalculateFiringRates_ (this s) = true ->
  totalTime_ (this s) < 0 ->
  calculateFiringRates s = AssertFail.
Proof.
  intros Hmode Hneed Ht. unfold calculateFiringRates, getMode.
  mstep. rewrite Hneed. cbn [negb].
  mstep. rewrite Hmode. repeat mstep.
  cbn [totalTime_ set_firingRatesSorted_ set_firingRates_].
  destruct (Z.eqb_spec (totalTime_ (this s)) 0); [lia|].
  destruct (Z.ltb_spec 0 (totalTime_ (this s))); [lia|].
  reflexivity.
Qed.

Lemma sortFiringRates_ok s :
  mode_ (this s) = AER ->
  Z.of_nat (length (spkVector_ (this s))) = nNeurons_ (this s) ->
  (needToCalculateFiringRates_ (this s) = true -> 0 <= totalTime_ (this s)) ->
  sortFiringRates s
  = Ok (tt, {| this := sorted (this s); snn_ := sorted_snn (this s) (snn_ s) |}).
Proof.
  intros Hmode Hlen Ht. unfold sortFiringRates, sorted, sorted_snn.
  mstep. destruct (needToSortFiringRates_ (this s)) eqn:Hneed; cbn [negb].
  2: { unfold ret. now destruct s. }
  erewrite run_bind by (apply calculateFiringRates_ok; assumption).
  cbv beta. repeat mstep. reflexivity.
Qed.

Lemma sortFiringRates_unset s :
  mode_ (this s) = AER ->
  needToCalculateFiringRates_ (this s) = true ->
  needToSortFiringRates_ (this s) = true ->
  totalTime_ (this s) < 0 ->
  sortFiringRates s = AssertFail.
Proof.
  intros Hmode Hcalc Hsort Ht. unfold sortFiringRates.
  mstep. rewrite Hsort. cbn [negb].
  apply run_bind_fail, calculateFiringRates_unset; assumption.
Qed.

Lemma getNeuronNumSpikes_ok s (i : nat) row :
  recordSet_ (this s) = false ->
  mode_ (this s) = AER ->
  Z.of_nat (length (spkVector_ (this s))) = nNeurons_ (this s) ->
  spkVector_ (this s) !! i = Some row ->
  getNeuronNumSpikes (Z.of_nat i) s = Ok (Z.of_nat (length row), s).
Proof.
  intros Hrec Hmode Hlen Hrow. unfold getNeuronNumSpikes, isRecording, getMode.
  pose proof (lookup_lt_Some _ _ _ Hrow) as Hlt.
  mstep. rewrite Hrec. repeat mstep.
  destruct (Z.leb_spec 0 (Z.of_nat i)); [|lia].
  destruct (Z.ltb_spec (Z.of_nat i) (nNeurons_ (this s))); [|lia].
  repeat mstep. rewrite Hmode. repeat mstep.
  erewrite run_bind by (apply at_index_ok, Hrow). reflexivity.
Qed.

Lemma getNeuronNumSpikes_range s i :
  recordSet_ (this s) = false ->
  ~ (0 <= i < nNeurons_ (this s)) ->
  getNeuronNumSpikes i s = AssertFail.
Proof.
  intros Hrec Hi. unfold getNeuronNumSpikes, isRecording.
  mstep. rewrite Hrec. repeat mstep.
  destruct (Z.leb_spec 0 i), (Z.ltb_spec i (nNeurons_ (this s))); try reflexivity. lia.
Qed.

Lemma popnum_loop k : forall (i : nat) s acc,
  recordSet_ (this s) = false ->
  mode_ (this s) = AER ->
  Z.of_nat (length (spkVector_ (this s))) = nNeurons_ (this s) ->
  (i + k <= length (spkVector_ (this s)))%nat ->
  for_fold k (Z.of_nat i)
    (fun i nSpk => k <- getNeuronNumSpikes i ;; ret (nSpk + k)) acc s
  = Ok (acc + sumZ (map (fun row => Z.of_nat (length row))
                      (take k (drop i (spkVector_ (this s))))), s).
Proof.
  induction k as [|k IH]; intros i s acc Hrec Hmode Hlen Hik.
  - rewrite take_0. cbn. unfold ret. do 3 f_equal. lia.
  - cbn [for_fold].
    destruct (lookup_lt_is_Some_2 (spkVector_ (this s)) i ltac:(lia)) as [row Hrow].
    mstep. erewrite run_bind by (eapply getNeuronNumSpikes_ok; eassumption).
    cbv beta. mstep.
    replace (Z.of_nat i + 1) with (Z.of_nat (S i)) by lia.
    rewrite IH by (auto; lia).
    rewrite (drop_S _ _ _ Hrow). cbn [firstn map sumZ fold_right].
    do 2 f_equal. unfold sumZ. lia.
Qed.

Lemma getPopNumSpikes_ok s :
  recordSet_ (this s) = false ->
  mode_ (this s) = AER ->
  Z.of_nat (length (spkVector_ (this s))) = nNeurons_ (this s) ->
  getPopNumSpikes s = Ok (sumZ (spike_counts (this s)), s).
Proof.
  intros Hrec Hmode Hlen. unfold getPopNumSpikes, isRecording.
  mstep. rewrite Hrec. repeat mstep.
  rewrite <- Hlen, Nat2Z.id.
  rewrite (popnum_loop _ 0%nat) by (auto; lia).
  rewrite drop_0, firstn_all. reflexivity.
Qed.

Lemma getPopMeanFiringRate_ok s :
  recordSet_ (this s) = false ->
  mode_ (this s) = AER ->
  Z.of_nat (length (spkVector_ (this s))) = nNeurons_ (this s) ->
  getPopMeanFiringRate s
  = Ok (if totalTime_ (this s) =? 0 then fzero
        else float_of_double
               (ddiv (dmul (double_of_Z (sumZ (spike_counts (this s)))) d1000)
                     (double_of_Z (totalTime_ (this s) * nNeurons_ (this s)))), s).
Proof.
  intros Hrec Hmode Hlen. unfold getPopMeanFiringRate, isRecording, getRecordingTotalTime.
  mstep. rewrite Hrec. repeat mstep.
  destruct (totalTime_ (this s) =? 0); [reflexivity|].
  erewrite run_bind by (apply getPopNumSpikes_ok; assumption).
  cbv beta. repeat mstep. reflexivity.
Qed.

(** ** The caches and the invariant *)

Lemma rates_of_length m :
  Z.of_nat (length (spkVector_ m)) = nNeurons_ m ->
  length (rates_of m) = Z.to_nat (nNeurons_ m).
Proof.
  intros H. unfold rates_of, vec_assign.
  destruct (totalTime_ m =? 0); rewrite ?length_replicate, ?length_map; lia.
Qed.

Lemma rates_of_nonnan m :
  0 <= totalTime_ m <= LONG_MAX ->
  Forall (fun r => is_nan r = false) (rates_of m).
Proof.
  intros Ht. unfold rates_of, vec_assign.
  destruct (Z.eqb_spec (totalTime_ m) 0).
  - apply Forall_replicate. reflexivity.
  - apply Forall_map, Forall_forall. intros row _. apply rate_Hz_nonnan. lia.
Qed.

Lemma rates_of_ext m m' :
  nNeurons_ m' = nNeurons_ m -> spkVector_ m' = spkVector_ m ->
  totalTime_ m' = totalTime_ m -> rates_of m' = rates_of m.
Proof. unfold rates_of. now intros -> -> ->. Qed.

Lemma calculated_same m :
  nNeurons_ (calculated m) = nNeurons_ m /\
  spkVector_ (calculated m) = spkVector_ m /\
  totalTime_ (calculated m) = totalTime_ m /\
  recordSet_ (calculated m) = recordSet_ m /\
  mode_ (calculated m) = mode_ m.
Proof.
  unfold calculated. destruct (needToCalculateFiringRates_ m); [|easy].
  destruct (totalTime_ m =? 0); easy.
Qed.

Lemma calculated_rates m :
  wf m -> 0 <= totalTime_ m -> firingRates_ (calculated m) = rates_of m.
Proof.
  intros Hwf Ht. unfold calculated.
  destruct (needToCalculateFiringRates_ m) eqn:Hneed.
  - unfold rates_of. destruct (totalTime_ m =? 0); reflexivity.
  - now apply (wf_rates m Hwf).
Qed.

Lemma calculated_wf m :
  wf m -> recordSet_ m = false -> 0 <= totalTime_ m -> wf (calculated m).
Proof.
  intros Hwf Hrec Ht. unfold calculated.
  destruct (needToCalculateFiringRates_ m) eqn:Hneed; [|assumption].
  destruct Hwf as [Hn Hst Hmd Hr Hs _].
  destruct (Z.eqb_spec (totalTime_ m) 0) as [Hz|Hnz].
  - constructor; proj_simpl; try assumption.
    + congruence.
    + intros _. split; [|now right].
      unfold rates_of. proj_simpl. rewrite Hz. cbn [Z.eqb].
      unfold vec_assign. now rewrite std_sort_zeros.
    + congruence.
  - constructor; proj_simpl; try assumption.
    + intros _. split; [lia|reflexivity].
    + intros Hsort. destruct (Hs Hsort) as [_ [H|H]]; [congruence|lia].
    + congruence.
Qed.

Lemma sorted_cache m :
  wf m -> 0 <= totalTime_ m -> firingRatesSorted_ (sorted m) = std_sort (rates_of m).
Proof.
  intros Hwf Ht. unfold sorted.
  destruct (needToSortFiringRates_ m) eqn:Hneed.
  - proj_simpl. now rewrite calculated_rates.
  - now apply (wf_sorted m Hwf).
Qed.

Lemma sorted_wf m :
  wf m -> recordSet_ m = false -> 0 <= totalTime_ m -> wf (sorted m).
Proof.
  intros Hwf Hrec Ht. unfold sorted.
  destruct (needToSortFiringRates_ m) eqn:Hneed; [|assumption].
  pose proof (calculated_wf m Hwf Hrec Ht) as Hc.
  pose proof (calculated_rates m Hwf Ht) as Hr.
  assert (Hflag : needToCalculateFiringRates_ (calculated m) = false \/ totalTime_ m = 0).
  { unfold calculated. destruct (needToCalculateFiringRates_ m) eqn:E; [|now left].
    destruct (Z.eqb_spec (totalTime_ m) 0); [now right|now left]. }
  assert (Hsame : rates_of (calculated m) = rates_of m /\
                  totalTime_ (calculated m) = totalTime_ m).
  { unfold calculated. destruct (needToCalculateFiringRates_ m); [|easy].
    destruct (totalTime_ m =? 0); easy. }
  destruct Hsame as [Hsame Htt].
  assert (Hrec' : recordSet_ (calculated m) = false).
  { destruct (calculated_same m) as (_ & _ & _ & H & _). congruence. }
  destruct Hc as [Hn Hst Hmd Hrc Hs _].
  constructor; proj_simpl; try assumption; [|congruence].
  intros _. split.
  - rewrite Hr, <- Hsame. reflexivity.
  - rewrite Htt. exact Hflag.
Qed.

Lemma sorted_same m :
  nNeurons_ (sorted m) = nNeurons_ m /\
  spkVector_ (sorted m) = spkVector_ m /\
  totalTime_ (sorted m) = totalTime_ m /\
  recordSet_ (sorted m) = recordSet_ m /\
  mode_ (sorted m) = mode_ m.
Proof.
  unfold sorted. destruct (needToSortFiringRates_ m); [|easy].
  proj_simpl. apply calculated_same.
Qed.

Lemma recorded_calculated m :
  recorded m -> recorded (calculated m) /\ rates_of (calculated m) = rates_of m.
Proof.
  intros (Hwf & Hrec & Ht).
  destruct (calculated_same m) as (Hn & Hv & Htt & Hr & _).
  split; [split; [|split]|].
  - now apply calculated_wf.
  - congruence.
  - lia.
  - now apply rates_of_ext.
Qed.

Lemma recorded_sorted m :
  recorded m -> recorded (sorted m) /\ rates_of (sorted m) = rates_of m.
Proof.
  intros (Hwf & Hrec & Ht).
  destruct (sorted_same m) as (Hn & Hv & Htt & Hr & _).
  split; [split; [|split]|].
  - now apply sorted_wf.
  - congruence.
  - lia.
  - now apply rates_of_ext.
Qed.

Lemma sorted_clean m : needToSortFiringRates_ (sorted m) = false.
Proof. unfold sorted. now destruct (needToSortFiringRates_ m) eqn:E. Qed.

Lemma after_sort_idempotent s : after_sort (after_sort s) = after_sort s.
Proof.
  unfold after_sort at 1. cbn [this snn_ after_sort].
  unfold sorted at 1, sorted_snn at 1. now rewrite sorted_clean.
Qed.

Lemma getAllFiringRates_ok s :
  recorded (this s) ->
  getAllFiringRates s = Ok (rates_of (this s), after_calculate s).
Proof.
  intros (Hwf & Hrec & Ht). unfold getAllFiringRates, isRecording.
  mstep. rewrite Hrec. repeat mstep.
  erewrite run_bind
    by (apply calculateFiringRates_ok; [apply Hwf|apply Hwf|intros; exact Ht]).
  cbv beta. unfold gets, after_calculate. cbn [this].
  now rewrite calculated_rates.
Qed.

Lemma getAllFiringRatesSorted_ok s :
  recorded (this s) ->
  getAllFiringRatesSorted s = Ok (std_sort (rates_of (this s)), after_sort s).
Proof.
  intros (Hwf & Hrec & Ht). unfold getAllFiringRatesSorted, isRecording.
  mstep. rewrite Hrec. repeat mstep.
  erewrite run_bind
    by (apply sortFiringRates_ok; [apply Hwf|apply Hwf|intros; exact Ht]).
  cbv beta. unfold gets, after_sort. cbn [this].
  now rewrite sorted_cache.
Qed.

Lemma rates_nonempty m : wf m -> rates_of m <> [].
Proof.
  intros Hwf H. pose proof (rates_of_length m (wf_store m Hwf)) as Hl.
  rewrite H in Hl. cbn [length] in Hl.
  pose proof (wf_neurons m Hwf). lia.
Qed.

Lemma std_sort_nonempty l : l <> [] -> std_sort l <> [].
Proof.
  intros Hl H. apply Hl. apply (f_equal length) in H.
  rewrite std_sort_length in H. now destruct l.
Qed.

Lemma getMaxFiringRate_ok s :
  recorded (this s) ->
  exists x, last (std_sort (rates_of (this s))) = Some x /\
            getMaxFiringRate s = Ok (x, after_sort s).
Proof.
  intros Hr. pose proof Hr as (Hwf & Hrec & Ht).
  destruct (last (std_sort (rates_of (this s)))) as [x|] eqn:E.
  - exists x. split; [reflexivity|].
    unfold getMaxFiringRate, isRecording.
    mstep. rewrite Hrec. repeat mstep.
    erewrite run_bind by (apply getAllFiringRatesSorted_ok, Hr).
    cbv beta. now rewrite E.
  - exfalso. apply last_None in E. revert E.
    apply std_sort_nonempty, rates_nonempty, Hwf.
Qed.

Lemma getMinFiringRate_ok s :
  recorded (this s) ->
  exists x, head (std_sort (rates_of (this s))) = Some x /\
            getMinFiringRate s = Ok (x, after_sort s).
Proof.
  intros Hr. pose proof Hr as (Hwf & Hrec & Ht).
  destruct (head (std_sort (rates_of (this s)))) as [x|] eqn:E.
  - exists x. split; [reflexivity|].
    unfold getMinFiringRate, isRecording.
    mstep. rewrite Hrec. repeat mstep.
    erewrite run_bind by (apply getAllFiringRatesSorted_ok, Hr).
    cbv beta. now rewrite E.
  - exfalso. apply head_None in E. revert E.
    apply std_sort_nonempty, rates_nonempty, Hwf.
Qed.

Lemma std_loop (rates : list float) mean k : forall (i : nat) s acc,
  (i + k <= length rates)%nat ->
  for_fold k (Z.of_nat i)
    (fun i std =>
       ri <- at_index rates i ;;
       ret (fadd std (fmul (fsub ri mean) (fsub ri mean)))) acc s
  = Ok (fold_left (fun acc r => fadd acc (fmul (fsub r mean) (fsub r mean)))
          (take k (drop i rates)) acc, s).
Proof.
  induction k as [|k IH]; intros i s acc Hik.
  - now rewrite take_0.
  - cbn [for_fold].
    destruct (lookup_lt_is_Some_2 rates i ltac:(lia)) as [r Hr].
    mstep. erewrite run_bind by (apply at_index_ok, Hr). cbv beta. mstep.
    replace (Z.of_nat i + 1) with (Z.of_nat (S i)) by lia.
    rewrite IH by lia. now rewrite (drop_S _ _ _ Hr).
Qed.

Lemma getPopStdFiringRate_ok s :
  recorded (this s) ->
  getPopStdFiringRate s
  = Ok (if totalTime_ (this s) =? 0 then fzero
        else if 1 <? nNeurons_ (this s) then std_rate_spec (this s) else fzero,
        if totalTime_ (this s) =? 0 then s else after_calculate s).
Proof.
  intros Hr. pose proof Hr as (Hwf & Hrec & Ht).
  unfold getPopStdFiringRate, isRecording.
  mstep. rewrite Hrec. repeat mstep.
  destruct (totalTime_ (this s) =? 0) eqn:Hz; [reflexivity|].
  erewrite run_bind
    by (apply getPopMeanFiringRate_ok; [assumption|apply Hwf|apply Hwf]).
  cbv beta.
  erewrite run_bind by (apply getAllFiringRates_ok, Hr).
  cbv beta. mstep.
  destruct (calculated_same (this s)) as (Hn & _).
  change (this (after_calculate s)) with (calculated (this s)). rewrite Hn.
  destruct (1 <? nNeurons_ (this s)); [|reflexivity].
  rewrite <- (rates_of_length (this s)) by apply Hwf.
  erewrite run_bind by (apply (std_loop _ _ _ 0%nat); lia).
  cbv beta. rewrite drop_0, firstn_all.
  unfold std_rate_spec, sum_sq_dev, mean_rate_spec. now rewrite Hz.
Qed.

Lemma getNumNeuronsWithFiringRate_ok s min max :
  recorded (this s) ->
  fge min fzero = true -> fge max fzero = true -> fge max min = true ->
  getNumNeuronsWithFiringRate min max s
  = Ok (count_in_range min max (rates_of (this s)), after_sort s).
Proof.
  intros (Hwf & Hrec & Ht) Hmin Hmax Hmm.
  unfold getNumNeuronsWithFiringRate, isRecording.
  mstep. rewrite Hrec. repeat mstep.
  rewrite Hmin, Hmax, Hmm. repeat mstep.
  erewrite run_bind
    by (apply sortFiringRates_ok; [apply Hwf|apply Hwf|intros; exact Ht]).
  cbv beta. mstep. unfold ret, after_sort. cbn [this].
  rewrite sorted_cache, fold_count_step by assumption.
  rewrite (count_in_range_perm _ _ _ _ (std_sort_perm _)). reflexivity.
Qed.

(** ** Recording: [pushAER], the flush, [startRecording], [stopRecording] *)

Lemma store_push_length v ev : length (store_push v ev) = length v.
Proof.
  unfold store_push. destruct (v !! Z.to_nat (snd ev)); [apply length_insert|reflexivity].
Qed.

Lemma fold_store_push_length evs : forall v,
  length (fold_left store_push evs v) = length v.
Proof.
  induction evs as [|ev evs IH]; intros v; cbn [fold_left]; [reflexivity|].
  now rewrite IH, store_push_length.
Qed.

Lemma pushAER_ok s t id :
  recordSet_ (this s) = true ->
  mode_ (this s) = AER ->
  0 <= id < Z.of_nat (length (spkVector_ (this s))) ->
  pushAER t id s
  = Ok (tt, upd (fun m => set_spkVector_ (store_push (spkVector_ m) (t, id)) m) s).
Proof.
  intros Hrec Hmode Hid. unfold pushAER, isRecording, getMode.
  mstep. rewrite Hrec. repeat mstep. rewrite Hmode. repeat mstep.
  destruct (lookup_lt_is_Some_2 (spkVector_ (this s)) (Z.to_nat id) ltac:(lia))
    as [row Hrow].
  erewrite run_bind
    by (rewrite <- (Z2Nat.id id) by lia; apply at_index_ok, Hrow).
  cbv beta. unfold modify, upd, store_push. cbn [snd fst]. now rewrite Hrow.
Qed.

Lemma pushAER_idle s t id :
  recordSet_ (this s) = false -> pushAER t id s = AssertFail.
Proof. intros Hrec. unfold pushAER, isRecording. mstep. now rewrite Hrec. Qed.

Lemma pushAER_not_AER s t id :
  recordSet_ (this s) = true -> mode_ (this s) <> AER -> pushAER t id s = AssertFail.
Proof.
  intros Hrec Hmode. unfold pushAER, isRecording, getMode.
  mstep. rewrite Hrec. repeat mstep.
  destruct (mode_ (this s)); [congruence|reflexivity].
Qed.

Lemma pushAER_out_of_range s t id :
  recordSet_ (this s) = true ->
  mode_ (this s) = AER ->
  ~ (0 <= id < Z.of_nat (length (spkVector_ (this s)))) ->
  pushAER t id s = Undefined.
Proof.
  intros Hrec Hmode Hid. unfold pushAER, isRecording, getMode.
  mstep. rewrite Hrec. repeat mstep. rewrite Hmode. repeat mstep.
  unfold bind. now rewrite at_index_out.
Qed.

Lemma flush_loop evs : forall s,
  recordSet_ (this s) = true ->
  mode_ (this s) = AER ->
  Forall (in_store (this s)) evs ->
  for_each evs (fun ev => pushAER (fst ev) (snd ev)) s
  = Ok (tt, upd (fun m => set_spkVector_ (fold_left store_push evs (spkVector_ m)) m) s).
Proof.
  induction evs as [|[t id] evs IH]; intros s Hrec Hmode Hin.
  - cbn [for_each fold_left]. unfold ret. now open_state s.
  - inversion Hin as [|? ? H1 H2]; subst. cbn [for_each fst snd].
    erewrite run_bind by (apply pushAER_ok; assumption).
    cbv beta. rewrite IH; try assumption.
    + now open_state s.
    + eapply Forall_impl; [exact H2|]. intros ev Hev. unfold in_store in *.
      proj_simpl. now rewrite store_push_length.
Qed.

Lemma in_store_dec m ev : {in_store m ev} + {~ in_store m ev}.
Proof.
  unfold in_store.
  destruct (Z_le_dec 0 (snd ev)), (Z_lt_dec (snd ev) (Z.of_nat (length (spkVector_ m))));
    (left; lia) || (right; lia).
Defined.

Lemma flush_loop_undefined evs : forall s,
  recordSet_ (this s) = true ->
  mode_ (this s) = AER ->
  ~ Forall (in_store (this s)) evs ->
  for_each evs (fun ev => pushAER (fst ev) (snd ev)) s = Undefined.
Proof.
  induction evs as [|[t id] evs IH]; intros s Hrec Hmode Hin.
  - exfalso. apply Hin. constructor.
  - cbn [for_each fst snd].
    destruct (in_store_dec (this s) (t, id)) as [H1|H1].
    + erewrite run_bind by (apply pushAER_ok; assumption).
      cbv beta. apply IH; [now destruct s as [[] ?]..|].
      intros H2. apply Hin. constructor; [exact H1|].
      eapply Forall_impl; [exact H2|]. intros ev Hev. unfold in_store in *.
      revert Hev. destruct s as [[] ?]. proj_simpl. now rewrite store_push_length.
    + unfold bind. now rewrite pushAER_out_of_range.
Qed.

Lemma updateSpikeMonitor_idle g s :
  recordSet_ (this s) = false ->
  updateSpikeMonitor g s
  = Ok (tt, {| this := this s; snn_ := set_buffered [] (snn_ s) |}).
Proof.
  intros Hrec. unfold updateSpikeMonitor, isRecording, getMode.
  repeat mstep. now rewrite Hrec.
Qed.

Lemma updateSpikeMonitor_recording g s :
  recordSet_ (this s) = true ->
  mode_ (this s) = AER ->
  Forall (in_store (this s)) (buffered (snn_ s)) ->
  updateSpikeMonitor g s = Ok (tt, flushed s).
Proof.
  intros Hrec Hmode Hin. unfold updateSpikeMonitor, isRecording, getMode.
  repeat mstep. rewrite Hrec, Hmode. cbn [andb mode_eqb].
  rewrite flush_loop by assumption. reflexivity.
Qed.

Lemma startRecording_persistent s :
  recordSet_ (this s) = false ->
  persistentData_ (this s) = true ->
  startRecording s
  = Ok (tt, {| this := started_persistent (current_time (snn_ s)) (this s);
               snn_ := set_buffered [] (snn_ s) |}).
Proof.
  intros Hrec Hp. unfold startRecording, isRecording, currentTimeMs.
  mstep. rewrite Hrec. repeat mstep. rewrite Hp. repeat mstep.
  erewrite run_bind by (apply updateSpikeMonitor_idle, Hrec).
  cbv beta. open_state s. repeat mstep. rewrite Hp. repeat mstep. reflexivity.
Qed.

Lemma startRecording_fresh s :
  recordSet_ (this s) = false ->
  persistentData_ (this s) = false ->
  Z.of_nat (length (spkVector_ (this s))) = nNeurons_ (this s) ->
  startRecording s
  = Ok (tt, {| this := started_fresh (current_time (snn_ s)) (this s);
               snn_ := set_buffered [] (snn_ s) |}).
Proof.
  intros Hrec Hp Hlen. unfold startRecording, isRecording, currentTimeMs.
  mstep. rewrite Hrec. repeat mstep. rewrite Hp. cbn [negb].
  erewrite run_bind by (apply clear_ok; assumption).
  cbv beta. open_state s. unfold cleared. proj_simpl. repeat mstep.
  erewrite run_bind by (apply updateSpikeMonitor_idle; reflexivity).
  cbv beta. proj_simpl. repeat mstep. rewrite Hp. repeat mstep. reflexivity.
Qed.

Lemma startRecording_recording s :
  recordSet_ (this s) = true -> startRecording s = AssertFail.
Proof. intros Hrec. unfold startRecording, isRecording. mstep. now rewrite Hrec. Qed.

Lemma stopRecording_run s :
  recordSet_ (this s) = true ->
  mode_ (this s) = AER ->
  Forall (in_store (this s)) (buffered (snn_ s)) ->
  -1 < startTime_ (this s) -> -1 < startTimeLast_ (this s) -> -1 < accumTime_ (this s) ->
  stopRecording s
  = if 0 <=? current_time (snn_ s) - startTimeLast_ (this s) + accumTime_ (this s)
    then Ok (tt, upd (stopped (current_time (snn_ s))) (flushed s))
    else AssertFail.
Proof.
  intros Hrec Hmode Hin H0 H1 H2. unfold stopRecording, isRecording, currentTimeMs.
  mstep. rewrite Hrec. repeat mstep.
  destruct (Z.ltb_spec (-1) (startTime_ (this s))); [|lia].
  destruct (Z.ltb_spec (-1) (startTimeLast_ (this s))); [|lia].
  destruct (Z.ltb_spec (-1) (accumTime_ (this s))); [|lia].
  repeat mstep.
  erewrite run_bind by (apply updateSpikeMonitor_recording; assumption).
  cbv beta. unfold flushed, stopped, current_time. open_state s. repeat mstep.
  unfold assert. destruct (0 <=? _); reflexivity.
Qed.

Lemma stopRecording_idle s :
  recordSet_ (this s) = false -> stopRecording s = AssertFail.
Proof. intros Hrec. unfold stopRecording, isRecording. mstep. now rewrite Hrec. Qed.

Lemma stopRecording_unset s :
  recordSet_ (this s) = true ->
  ~ (-1 < startTime_ (this s) /\ -1 < startTimeLast_ (this s) /\ -1 < accumTime_ (this s)) ->
  stopRecording s = AssertFail.
Proof.
  intros Hrec H. unfold stopRecording, isRecording.
  mstep. rewrite Hrec. repeat mstep.
  destruct (Z.ltb_spec (-1) (startTime_ (this s))),
           (Z.ltb_spec (-1) (startTimeLast_ (this s))),
           (Z.ltb_spec (-1) (accumTime_ (this s))); try reflexivity.
  lia.
Qed.

Lemma stopRecording_undefined s :
  recordSet_ (this s) = true ->
  mode_ (this s) = AER ->
  ~ Forall (in_store (this s)) (buffered (snn_ s)) ->
  -1 < startTime_ (this s) -> -1 < startTimeLast_ (this s) -> -1 < accumTime_ (this s) ->
  stopRecording s = Undefined.
Proof.
  intros Hrec Hmode Hin H0 H1 H2. unfold stopRecording, isRecording.
  mstep. rewrite Hrec. repeat mstep.
  destruct (Z.ltb_spec (-1) (startTime_ (this s))); [|lia].
  destruct (Z.ltb_spec (-1) (startTimeLast_ (this s))); [|lia].
  destruct (Z.ltb_spec (-1) (accumTime_ (this s))); [|lia].
  repeat mstep. unfold updateSpikeMonitor, isRecording, getMode. repeat mstep.
  rewrite Hrec, Hmode. cbn [andb mode_eqb]. unfold bind.
  rewrite flush_loop_undefined; auto.
Qed.

Lemma clear_recording s : recordSet_ (this s) = true -> clear s = AssertFail.
Proof. intros Hrec. unfold clear, isRecording. mstep. rewrite Hrec. now mstep. Qed.

(** ** The log file *)

Lemma fwrite_ok x f s st :
  streams (snn_ s) !! f = Some st ->
  writable st = true ->
  fwrite x f s
  = Ok (1, {| this := this s;
              snn_ := set_streams (stream_append f st [x] (streams (snn_ s))) (snn_ s) |}).
Proof. intros Hf Hw. unfold fwrite. now rewrite Hf, Hw. Qed.

Lemma fwrite_closed x f s :
  streams (snn_ s) !! f = None -> fwrite x f s = Undefined.
Proof. intros Hf. unfold fwrite. now rewrite Hf. Qed.

Lemma writeSpikeFileHeader_noop s :
  needToWriteFileHeader_ (this s) = false -> writeSpikeFileHeader s = Ok (tt, s).
Proof. intros H. unfold writeSpikeFileHeader. mstep. now rewrite H. Qed.

Lemma writeSpikeFileHeader_writes s st :
  needToWriteFileHeader_ (this s) = true ->
  streams (snn_ s) !! spikeFileId_ (this s) = Some st ->
  writable st = true ->
  writeSpikeFileHeader s
  = Ok (tt, {| this := set_needToWriteFileHeader_ false (this s);
               snn_ := set_streams
                         (stream_append (spikeFileId_ (this s)) st (header_of (this s))
                            (streams (snn_ s))) (snn_ s) |}).
Proof.
  intros Hneed Hf Hw. unfold writeSpikeFileHeader.
  mstep. rewrite Hneed. repeat mstep.
  erewrite run_bind by (apply fwrite_ok; eassumption).
  cbv beta. cbn [Z.eqb]. open_state s. repeat mstep.
  erewrite run_bind; cycle 1.
  { apply fwrite_ok; proj_simpl; [apply lookup_insert_eq|reflexivity]. }
  cbv beta. cbn [Z.eqb]. repeat mstep. unfold modify. proj_simpl.
  unfold stream_append, header_of. proj_simpl.
  rewrite insert_insert_eq. cbn [written]. now rewrite <- app_assoc.
Qed.

Lemma setSpikeFileId_ok s f st :
  recordSet_ (this s) = false ->
  streams (snn_ s) !! f = Some st ->
  writable st = true ->
  setSpikeFileId f s
  = Ok (tt, {| this := set_needToWriteFileHeader_ false (set_spikeFileId_ f (this s));
               snn_ := set_streams
                         (stream_append f st (header_of (this s)) (streams (snn_ s)))
                         (set_logged
                            (logged (snn_ s) ++
                             if spikeFileId_ (this s) =? NULL then [] else [rebind_error])
                            (snn_ s)) |}).
Proof.
  intros Hrec Hf Hw. unfold setSpikeFileId, isRecording.
  mstep. rewrite Hrec. repeat mstep. open_state s.
  destruct (spikeFileId_0 =? NULL); cbn [negb]; unfold CARLSIM_ERROR; repeat mstep.
  - rewrite (writeSpikeFileHeader_writes _ st) by (proj_simpl; auto).
    proj_simpl. now rewrite app_nil_r.
  - rewrite (writeSpikeFileHeader_writes _ st) by (proj_simpl; auto).
    reflexivity.
Qed.

Lemma setSpikeFileId_recording f s :
  recordSet_ (this s) = true -> setSpikeFileId f s = AssertFail.
Proof. intros Hrec. unfold setSpikeFileId, isRecording. mstep. rewrite Hrec. now mstep. Qed.

Lemma setSpikeFileId_closed f s :
  recordSet_ (this s) = false ->
  streams (snn_ s) !! f = None ->
  setSpikeFileId f s = Undefined.
Proof.
  intros Hrec Hf. unfold setSpikeFileId, isRecording, writeSpikeFileHeader, CARLSIM_ERROR.
  mstep. rewrite Hrec. repeat mstep. open_state s.
  destruct (spikeFileId_0 =? NULL); cbn [negb]; repeat mstep;
    unfold bind, fwrite; proj_simpl; now rewrite Hf.
Qed.

Lemma setSpikeFileId_unwritable f s st :
  recordSet_ (this s) = false ->
  streams (snn_ s) !! f = Some st ->
  writable st = false ->
  setSpikeFileId f s
  = Ok (tt, {| this := set_needToWriteFileHeader_ false (set_spikeFileId_ f (this s));
               snn_ := set_logged
                         (logged (snn_ s) ++
                          (if spikeFileId_ (this s) =? NULL then [] else [rebind_error]) ++
                          [header_error; header_error])
                         (snn_ s) |}).
Proof.
  intros Hrec Hf Hw. unfold setSpikeFileId, isRecording, writeSpikeFileHeader, CARLSIM_ERROR.
  mstep. rewrite Hrec. repeat mstep. open_state s.
  assert (Hfw : forall x m c,
            streams c = streams0 ->
            fwrite x f {| this := m; snn_ := c |} = Ok (0, {| this := m; snn_ := c |})).
  { intros x m c Hc. unfold fwrite. cbn [snn_]. now rewrite Hc, Hf, Hw. }
  destruct (spikeFileId_0 =? NULL); cbn [negb]; repeat mstep;
    (erewrite run_bind by (apply Hfw; reflexivity)); cbv beta; cbn [Z.eqb]; repeat mstep;
    (erewrite run_bind by (apply Hfw; reflexivity)); cbv beta; cbn [Z.eqb]; repeat mstep;
    unfold modify; proj_simpl; rewrite <- ?app_assoc; reflexivity.
Qed.

(** ** The constructor *)

Lemma SpikeMonitorCore_new_ok raw snn monitorId grpId :
  0 < groupNumNeurons snn grpId ->
  SpikeMonitorCore_new raw snn monitorId grpId
  = Ok (tt, {| this := fresh_monitor monitorId grpId (groupNumNeurons snn grpId);
               snn_ := snn |}).
Proof.
  intros Hn. unfold SpikeMonitorCore_new, init. destruct snn. proj_simpl_all.
  repeat mstep.
  destruct (Z.ltb_spec 0 (groupNumNeurons0 grpId)); [|lia].
  repeat mstep.
  rewrite clear_ok.
  - unfold cleared, fresh_monitor, vec_resize. proj_simpl.
    rewrite take_nil. cbn [app length]. rewrite Nat.sub_0_r, length_replicate.
    reflexivity.
  - reflexivity.
  - proj_simpl. unfold vec_resize. rewrite take_nil. cbn [app length].
    rewrite Nat.sub_0_r, length_replicate. lia.
Qed.

Lemma SpikeMonitorCore_new_empty raw snn monitorId grpId :
  groupNumNeurons snn grpId <= 0 ->
  SpikeMonitorCore_new raw snn monitorId grpId = AssertFail.
Proof.
  intros Hn. unfold SpikeMonitorCore_new, init. destruct snn. proj_simpl_all.
  repeat mstep.
  destruct (Z.ltb_spec 0 (groupNumNeurons0 grpId)); [lia|].
  now repeat mstep.
Qed.

(** ** The invariant is established and kept *)

Lemma wf_dirty m :
  0 < nNeurons_ m ->
  Z.of_nat (length (spkVector_ m)) = nNeurons_ m ->
  mode_ m = AER ->
  needToCalculateFiringRates_ m = true ->
  needToSortFiringRates_ m = true ->
  wf m.
Proof. intros. constructor; auto; congruence. Qed.

Lemma wf_fresh monitorId grpId n : 0 < n -> wf (fresh_monitor monitorId grpId n).
Proof.
  intros Hn. apply wf_dirty; try reflexivity; [exact Hn|].
  cbn [fresh_monitor spkVector_ nNeurons_]. rewrite length_replicate. lia.
Qed.

Lemma wf_cleared m : wf m -> wf (cleared m).
Proof.
  intros [Hn Hl Hm _ _ _]. destruct m. unfold cleared. proj_simpl_all.
  apply wf_dirty; proj_simpl; auto.
  rewrite length_replicate. exact Hl.
Qed.

Lemma wf_started_persistent now m : wf m -> wf (started_persistent now m).
Proof.
  intros [Hn Hl Hm _ _ _]. destruct m. unfold started_persistent. proj_simpl_all.
  apply wf_dirty; proj_simpl; auto.
Qed.

Lemma wf_started_fresh now m : wf m -> wf (started_fresh now m).
Proof.
  intros [Hn Hl Hm _ _ _]. destruct m. unfold started_fresh, cleared. proj_simpl_all.
  apply wf_dirty; proj_simpl; auto.
  rewrite length_replicate. exact Hl.
Qed.

Lemma wf_pushed m evs :
  wf m -> recordSet_ m = true ->
  wf (set_spkVector_ (fold_left store_push evs (spkVector_ m)) m).
Proof.
  intros [Hn Hl Hm _ _ Hr] Hrec. destruct (Hr Hrec) as [Hc Hs].
  destruct m. proj_simpl_all. apply wf_dirty; proj_simpl; auto.
  now rewrite fold_store_push_length.
Qed.

Lemma wf_stopped now m : wf m -> recordSet_ m = true -> wf (stopped now m).
Proof.
  intros [Hn Hl Hm _ _ Hr] Hrec. destruct (Hr Hrec) as [Hc Hs].
  destruct m. unfold stopped. proj_simpl_all. apply wf_dirty; proj_simpl; auto.
Qed.

Lemma wf_file f b m :
  wf m -> wf (set_needToWriteFileHeader_ b (set_spikeFileId_ f m)).
Proof.
  intros [Hn Hl Hm Hr Hs Hrec]. destruct m. proj_simpl_all.
  constructor; proj_simpl; auto.
Qed.

(** ** What a query leaves alone *)

Lemma query_frame_refl s : query_frame s s.
Proof. constructor; reflexivity. Qed.

Lemma query_frame_trans s1 s2 s3 :
  query_frame s1 s2 -> query_frame s2 s3 -> query_frame s1 s3.
Proof. intros [] []. constructor; congruence. Qed.

Lemma framed_ret {A} (a : A) : framed (ret a).
Proof. intros s a' s' H. injection H as _ <-. apply query_frame_refl. Qed.

Lemma framed_bind {A B} (c : M A) (k : A -> M B) :
  framed c -> (forall a, framed (k a)) -> framed (bind c k).
Proof.
  intros Hc Hk s b s' H. unfold bind in H.
  destruct (c s) as [[a s1]| |] eqn:E; try discriminate.
  eapply query_frame_trans; [eapply Hc, E|eapply Hk, H].
Qed.

Lemma framed_assert b : framed (assert b).
Proof.
  intros s a s' H. unfold assert in H. destruct b; [|discriminate].
  injection H as _ <-. apply query_frame_refl.
Qed.

Lemma framed_undefined {A} : framed (@undefined A).
Proof. intros s a s' H. discriminate. Qed.

Lemma framed_gets {A} (f : SpikeMonitorCore -> A) : framed (gets f).
Proof. intros s a s' H. injection H as _ <-. apply query_frame_refl. Qed.

Lemma framed_at_index {A} (v : list A) i : framed (at_index v i).
Proof.
  unfold at_index. destruct (_ && _); [|apply framed_undefined].
  destruct (v !! Z.to_nat i); [apply framed_ret|apply framed_undefined].
Qed.

Lemma framed_for_fold {A} (body : Z -> A -> M A) n :
  (forall i acc, framed (body i acc)) -> forall i acc, framed (for_fold n i body acc).
Proof.
  intros Hb. induction n as [|n IH]; intros i acc; cbn [for_fold].
  - apply framed_ret.
  - apply framed_bind; [apply Hb|intros a; apply IH].
Qed.

Lemma framed_set_firingRates v : framed (modify (set_firingRates_ v)).
Proof. intros s a s' H. injection H as _ <-. constructor; reflexivity. Qed.

Lemma framed_set_firingRatesSorted v : framed (modify (set_firingRatesSorted_ v)).
Proof. intros s a s' H. injection H as _ <-. constructor; reflexivity. Qed.

Lemma framed_sort_cache :
  framed (modify (fun m => set_firingRatesSorted_ (std_sort (firingRatesSorted_ m)) m)).
Proof. intros s a s' H. injection H as _ <-. constructor; reflexivity. Qed.

Lemma framed_set_needToCalculate b : framed (modify (set_needToCalculateFiringRates_ b)).
Proof. intros s a s' H. injection H as _ <-. constructor; reflexivity. Qed.

Lemma framed_set_needToSort b : framed (modify (set_needToSortFiringRates_ b)).
Proof. intros s a s' H. injection H as _ <-. constructor; reflexivity. Qed.

Lemma framed_warn msg : framed (CARLSIM_WARN msg).
Proof. intros s a s' H. injection H as _ <-. constructor; reflexivity. Qed.

Ltac framed_step :=
  first
    [ apply framed_bind; [|intros ?]
    | apply framed_ret
    | apply framed_assert
    | apply framed_undefined
    | apply framed_gets
    | apply framed_at_index
    | apply framed_set_firingRates
    | apply framed_set_firingRatesSorted
    | apply framed_sort_cache
    | apply framed_set_needToCalculate
    | apply framed_set_needToSort
    | apply framed_warn
    | apply framed_for_fold; intros ? ?
    | match goal with |- framed (if ?b then _ else _) => destruct b end
    | match goal with |- framed (match ?o with Some _ => _ | None => _ end) => destruct o end ].

Lemma framed_calculateFiringRates : framed calculateFiringRates.
Proof. unfold calculateFiringRates, getMode, for_upto. repeat framed_step. Qed.

Lemma framed_sortFiringRates : framed sortFiringRates.
Proof.
  unfold sortFiringRates.
  repeat first [apply framed_calculateFiringRates | framed_step].
Qed.

Lemma framed_getNeuronNumSpikes i : framed (getNeuronNumSpikes i).
Proof. unfold getNeuronNumSpikes, isRecording, getMode. repeat framed_step. Qed.

Lemma framed_getPopNumSpikes : framed getPopNumSpikes.
Proof.
  unfold getPopNumSpikes, isRecording.
  repeat first [apply framed_getNeuronNumSpikes | framed_step].
Qed.

Lemma framed_getPopMeanFiringRate : framed getPopMeanFiringRate.
Proof.
  unfold getPopMeanFiringRate, isRecording, getRecordingTotalTime.
  repeat first [apply framed_getPopNumSpikes | framed_step].
Qed.

Lemma framed_getAllFiringRates : framed getAllFiringRates.
Proof.
  unfold getAllFiringRates, isRecording.
  repeat first [apply framed_calculateFiringRates | framed_step].
Qed.

Lemma framed_getPopStdFiringRate : framed getPopStdFiringRate.
Proof.
  unfold getPopStdFiringRate, isRecording.
  repeat first [apply framed_getPopMeanFiringRate | apply framed_getAllFiringRates
               | framed_step].
Qed.

Lemma framed_getAllFiringRatesSorted : framed getAllFiringRatesSorted.
Proof.
  unfold getAllFiringRatesSorted, isRecording.
  repeat first [apply framed_sortFiringRates | framed_step].
Qed.

Lemma framed_getMaxFiringRate : framed getMaxFiringRate.
Proof.
  unfold getMaxFiringRate, isRecording.
  repeat first [apply framed_getAllFiringRatesSorted | framed_step].
Qed.

Lemma framed_getMinFiringRate : framed getMinFiringRate.
Proof.
  unfold getMinFiringRate, isRecording.
  repeat first [apply framed_getAllFiringRatesSorted | framed_step].
Qed.

Lemma framed_getNumNeuronsWithFiringRate min max :
  framed (getNumNeuronsWithFiringRate min max).
Proof.
  unfold getNumNeuronsWithFiringRate, isRecording.
  repeat first [apply framed_sortFiringRates | framed_step].
Qed.

Lemma framed_getNumSilentNeurons : framed getNumSilentNeurons.
Proof.
  unfold getNumSilentNeurons, isRecording.
  repeat first [apply framed_getNumNeuronsWithFiringRate | framed_step].
Qed.

Lemma framed_getSpikeVector2D : framed getSpikeVector2D.
Proof. unfold getSpikeVector2D, isRecording. repeat framed_step. Qed.

(** ** Queries on a monitor whose total time is unset *)

Lemma getAllFiringRates_unset s :
  recordSet_ (this s) = false -> mode_ (this s) = AER ->
  needToCalculateFiringRates_ (this s) = true -> totalTime_ (this s) < 0 ->
  getAllFiringRates s = AssertFail.
Proof.
  intros Hrec Hmode Hneed Ht. unfold getAllFiringRates, isRecording.
  mstep. rewrite Hrec. repeat mstep.
  apply run_bind_fail, calculateFiringRates_unset; assumption.
Qed.

Lemma getAllFiringRatesSorted_unset s :
  recordSet_ (this s) = false -> mode_ (this s) = AER ->
  needToCalculateFiringRates_ (this s) = true ->
  needToSortFiringRates_ (this s) = true -> totalTime_ (this s) < 0 ->
  getAllFiringRatesSorted s = AssertFail.
Proof.
  intros Hrec Hmode Hcalc Hsort Ht. unfold getAllFiringRatesSorted, isRecording.
  mstep. rewrite Hrec. repeat mstep.
  apply run_bind_fail, sortFiringRates_unset; assumption.
Qed.

Lemma getNumNeuronsWithFiringRate_unset s min max :
  recordSet_ (this s) = false -> mode_ (this s) = AER ->
  needToCalculateFiringRates_ (this s) = true ->
  needToSortFiringRates_ (this s) = true -> totalTime_ (this s) < 0 ->
  getNumNeuronsWithFiringRate min max s = AssertFail.
Proof.
  intros Hrec Hmode Hcalc Hsort Ht. unfold getNumNeuronsWithFiringRate, isRecording.
  mstep. rewrite Hrec. repeat mstep.
  destruct (fge min fzero && fge max fzero); [|reflexivity]. repeat mstep.
  destruct (fge max min); [|reflexivity]. repeat mstep.
  apply run_bind_fail, sortFiringRates_unset; assumption.
Qed.

Lemma getNumSilentNeurons_unset s :
  recordSet_ (this s) = false -> mode_ (this s) = AER ->
  needToCalculateFiringRates_ (this s) = true ->
  needToSortFiringRates_ (this s) = true -> totalTime_ (this s) < 0 ->
  getNumSilentNeurons s = AssertFail.
Proof.
  intros Hrec Hmode Hcalc Hsort Ht. unfold getNumSilentNeurons, isRecording.
  mstep. rewrite Hrec. repeat mstep.
  apply getNumNeuronsWithFiringRate_unset; assumption.
Qed.

Lemma getPercentSilentNeurons_unset s :
  recordSet_ (this s) = false -> mode_ (this s) = AER ->
  needToCalculateFiringRates_ (this s) = true ->
  needToSortFiringRates_ (this s) = true -> totalTime_ (this s) < 0 ->
  getPercentSilentNeurons s = AssertFail.
Proof.
  intros Hrec Hmode Hcalc Hsort Ht. unfold getPercentSilentNeurons, isRecording.
  mstep. rewrite Hrec. repeat mstep.
  apply run_bind_fail, getNumNeuronsWithFiringRate_unset; assumption.
Qed.

Lemma getPopStdFiringRate_unset s :
  recordSet_ (this s) = false -> mode_ (this s) = AER ->
  Z.of_nat (length (spkVector_ (this s))) = nNeurons_ (this s) ->
  needToCalculateFiringRates_ (this s) = true -> totalTime_ (this s) < 0 ->
  getPopStdFiringRate s = AssertFail.
Proof.
  intros Hrec Hmode Hlen Hcalc Ht. unfold getPopStdFiringRate, isRecording.
  mstep. rewrite Hrec. repeat mstep.
  destruct (Z.eqb_spec (totalTime_ (this s)) 0); [lia|].
  erewrite run_bind by (apply getPopMeanFiringRate_ok; assumption).
  cbv beta. apply run_bind_fail, getAllFiringRates_unset; assumption.
Qed.

Lemma sumZ_counts_empty k :
  sumZ (map (fun row : list Z => Z.of_nat (length row)) (replicate k [])) = 0.
Proof. induction k as [|k IH]; cbn; [reflexivity|exact IH]. Qed.

Lemma zero_over_negative z :
  z < 0 ->
  float_of_double (ddiv (dmul (double_of_Z 0) d1000) (double_of_Z z)) = S754_zero true.
Proof.
  intros Hz. pose proof (double_of_Z_neg z Hz) as H.
  change (dmul (double_of_Z 0) d1000) with (S754_zero false).
  destruct (double_of_Z z) as [| | |sz mz ez]; cbn in H; try contradiction; now subst.
Qed.

(** ** Silent neurons and percentages *)

Lemma getNumSilentNeurons_ok s :
  recorded (this s) ->
  getNumSilentNeurons s
  = Ok (count_in_range fzero fzero (rates_of (this s)), after_sort s).
Proof.
  intros Hr. pose proof Hr as (Hwf & Hrec & Ht). unfold getNumSilentNeurons, isRecording.
  mstep. rewrite Hrec. repeat mstep.
  now apply getNumNeuronsWithFiringRate_ok.
Qed.

Lemma getPercentSilentNeurons_ok s :
  recorded (this s) ->
  getPercentSilentNeurons s
  = Ok (percent_spec (count_in_range fzero fzero (rates_of (this s))) (nNeurons_ (this s)),
        after_sort s).
Proof.
  intros Hr. pose proof Hr as (Hwf & Hrec & Ht). unfold getPercentSilentNeurons, isRecording.
  mstep. rewrite Hrec. repeat mstep.
  change (float_of_Z 0) with fzero.
  erewrite run_bind by (now apply getNumNeuronsWithFiringRate_ok).
  cbv beta. repeat mstep. unfold ret, percent_spec.
  destruct (sorted_same (this s)) as (Hn & _).
  change (this (after_sort s)) with (sorted (this s)). now rewrite Hn.
Qed.

(** ** The standard deviation of all-zero rates *)

Lemma sum_sq_dev_zeros k : sum_sq_dev fzero (replicate k fzero) = fzero.
Proof.
  unfold sum_sq_dev. induction k as [|k IH]; cbn [replicate fold_left]; [reflexivity|].
  exact IH.
Qed.

Lemma std_rate_zero m :
  totalTime_ m = 0 -> 1 < nNeurons_ m -> std_rate_spec m = fzero.
Proof.
  intros Ht Hn. unfold std_rate_spec, mean_rate_spec, rates_of, vec_assign.
  rewrite Ht. cbn [Z.eqb]. rewrite sum_sq_dev_zeros.
  pose proof (float_of_Z_pos (nNeurons_ m - 1) ltac:(lia)) as H.
  destruct (float_of_Z (nNeurons_ m - 1)) as [| | |sz mz ez]; cbn in H;
    try contradiction; now subst.
Qed.

(** ** Counting the spikes in the store *)

Lemma sumZ_counts_insert (v : list (list Z)) : forall i row t,
  v !! i = Some row ->
  sumZ (map (fun row => Z.of_nat (length row)) (<[i := row ++ [t]]> v))
  = sumZ (map (fun row => Z.of_nat (length row)) v) + 1.
Proof.
  induction v as [|r v IH]; intros i row t Hi; [discriminate|].
  destruct i as [|i]; cbn -[Z.of_nat Z.add length] in *.
  - injection Hi as ->. rewrite length_app. cbn [length]. lia.
  - rewrite (IH _ _ _ Hi). unfold sumZ. lia.
Qed.

Lemma sumZ_counts_push v ev :
  0 <= snd ev < Z.of_nat (length v) ->
  sumZ (map (fun row => Z.of_nat (length row)) (store_push v ev))
  = sumZ (map (fun row => Z.of_nat (length row)) v) + 1.
Proof.
  intros Hev. unfold store_push.
  destruct (lookup_lt_is_Some_2 v (Z.to_nat (snd ev)) ltac:(lia)) as [row Hrow].
  rewrite Hrow. now apply sumZ_counts_insert.
Qed.

Lemma sumZ_counts_flush evs : forall v,
  Forall (fun ev => 0 <= snd ev < Z.of_nat (length v)) evs ->
  sumZ (map (fun row => Z.of_nat (length row)) (fold_left store_push evs v))
  = sumZ (map (fun row => Z.of_nat (length row)) v) + Z.of_nat (length evs).
Proof.
  induction evs as [|ev evs IH]; intros v Hin; cbn [fold_left length]; [lia|].
  inversion Hin as [|? ? H1 H2]; subst.
  rewrite IH.
  - rewrite sumZ_counts_push by assumption. lia.
  - eapply Forall_impl; [exact H2|]. intros e He. cbn beta in *.
    now rewrite store_push_length.
Qed.

(** ** The example monitors *)

Lemma s_fresh_idle : idle (this s_fresh).
Proof. split; [apply wf_fresh; lia|reflexivity]. Qed.

Lemma s_recording_wf : wf (this s_recording).
Proof. apply wf_started_fresh, wf_fresh. lia. Qed.

Lemma s_recorded_recorded : recorded (this s_recorded).
Proof.
  split; [|split; [reflexivity|cbn; lia]].
  apply wf_dirty; reflexivity.
Qed.

(** ** Every reachable monitor satisfies the invariant *)

Lemma keeps_idle_ret {A} (a : A) : keeps_idle (ret a).
Proof. intros s a' s' Hi H. now injection H as _ <-. Qed.

Lemma keeps_idle_bind {A B} (c : M A) (k : A -> M B) :
  keeps_idle c -> (forall a, keeps_idle (k a)) -> keeps_idle (bind c k).
Proof.
  intros Hc Hk s b s' Hi H. unfold bind in H.
  destruct (c s) as [[a s1]| |] eqn:E; try discriminate.
  eapply Hk; [eapply Hc; eassumption|eassumption].
Qed.

Lemma keeps_idle_assert b : keeps_idle (assert b).
Proof.
  intros s a s' Hi H. unfold assert in H. destruct b; [|discriminate].
  now injection H as _ <-.
Qed.

Lemma keeps_idle_undefined {A} : keeps_idle (@undefined A).
Proof. intros s a s' Hi H. discriminate. Qed.

Lemma keeps_idle_gets {A} (f : SpikeMonitorCore -> A) : keeps_idle (gets f).
Proof. intros s a s' Hi H. now injection H as _ <-. Qed.

Lemma keeps_idle_at_index {A} (v : list A) i : keeps_idle (at_index v i).
Proof.
  unfold at_index. destruct (_ && _); [|apply keeps_idle_undefined].
  destruct (v !! Z.to_nat i); [apply keeps_idle_ret|apply keeps_idle_undefined].
Qed.

Lemma keeps_idle_for_fold {A} (body : Z -> A -> M A) n :
  (forall i acc, keeps_idle (body i acc)) ->
  forall i acc, keeps_idle (for_fold n i body acc).
Proof.
  intros Hb. induction n as [|n IH]; intros i acc; cbn [for_fold].
  - apply keeps_idle_ret.
  - apply keeps_idle_bind; [apply Hb|intros a; apply IH].
Qed.

Lemma wf_unset m :
  wf m -> totalTime_ m < 0 ->
  needToCalculateFiringRates_ m = true /\ needToSortFiringRates_ m = true.
Proof.
  intros Hwf Ht.
  assert (Hc : needToCalculateFiringRates_ m = true).
  { destruct (needToCalculateFiringRates_ m) eqn:E; [reflexivity|].
    destruct (wf_rates m Hwf E). lia. }
  split; [exact Hc|].
  destruct (needToSortFiringRates_ m) eqn:E; [reflexivity|].
  destruct (wf_sorted m Hwf E) as [_ [H|H]]; [congruence|lia].
Qed.

Lemma keeps_idle_calculateFiringRates : keeps_idle calculateFiringRates.
Proof.
  intros s a s' [Hwf Hrec] H.
  destruct (Z_lt_le_dec (totalTime_ (this s)) 0) as [Hneg|Hpos].
  - destruct (wf_unset _ Hwf Hneg) as [Hc _].
    rewrite calculateFiringRates_unset in H by first [assumption | apply (wf_mode _ Hwf)].
    discriminate.
  - rewrite calculateFiringRates_ok in H by first [apply (wf_mode _ Hwf) | apply (wf_store _ Hwf) | intros; assumption].
    injection H as _ <-. cbn [this].
    split; [now apply calculated_wf|].
    destruct (calculated_same (this s)) as (_ & _ & _ & Hr & _). congruence.
Qed.

Lemma keeps_idle_sortFiringRates : keeps_idle sortFiringRates.
Proof.
  intros s a s' [Hwf Hrec] H.
  destruct (needToSortFiringRates_ (this s)) eqn:Hneed.
  - destruct (Z_lt_le_dec (totalTime_ (this s)) 0) as [Hneg|Hpos].
    + destruct (wf_unset _ Hwf Hneg) as [Hc Hs].
      rewrite sortFiringRates_unset in H by first [assumption | apply (wf_mode _ Hwf)].
      discriminate.
    + rewrite sortFiringRates_ok in H by first [apply (wf_mode _ Hwf) | apply (wf_store _ Hwf) | intros; assumption].
      injection H as _ <-. cbn [this].
      split; [now apply sorted_wf|].
      destruct (sorted_same (this s)) as (_ & _ & _ & Hr & _). congruence.
  - unfold sortFiringRates, bind, gets, ret in H. rewrite Hneed in H. cbn [negb] in H.
    injection H as _ <-. now split.
Qed.

Ltac keeps_idle_step :=
  first
    [ apply keeps_idle_calculateFiringRates
    | apply keeps_idle_sortFiringRates
    | apply keeps_idle_bind; [|intros ?]
    | apply keeps_idle_ret
    | apply keeps_idle_assert
    | apply keeps_idle_undefined
    | apply keeps_idle_gets
    | apply keeps_idle_at_index
    | apply keeps_idle_for_fold; intros ? ?
    | match goal with |- keeps_idle (if ?b then _ else _) => destruct b end
    | match goal with
      | |- keeps_idle (match ?o with Some _ => _ | None => _ end) => destruct o
      end ].

Create HintDb queries.
#[local] Hint Unfold getPopMeanFiringRate getPopStdFiringRate getPopNumSpikes
  getAllFiringRates getMaxFiringRate getMinFiringRate getNeuronMeanFiringRate
  getNeuronNumSpikes getAllFiringRatesSorted getNumNeuronsWithFiringRate
  getNumSilentNeurons getPercentNeuronsWithFiringRate getPercentSilentNeurons
  getSpikeVector2D isRecording getMode getRecordingTotalTime : queries.

Lemma query_keeps_idle A (q : M A) : query A q -> keeps_idle q.
Proof. destruct 1; repeat autounfold with queries; repeat keeps_idle_step. Qed.

Lemma query_recording A (q : M A) s :
  query A q -> recordSet_ (this s) = true -> q s = AssertFail.
Proof.
  intros Hq Hrec.
  destruct Hq;
    unfold getPopMeanFiringRate, getPopStdFiringRate, getPopNumSpikes, getAllFiringRates,
      getMaxFiringRate, getMinFiringRate, getNeuronMeanFiringRate, getNeuronNumSpikes,
      getAllFiringRatesSorted, getNumSilentNeurons, getPercentNeuronsWithFiringRate,
      getPercentSilentNeurons, getNumNeuronsWithFiringRate, getSpikeVector2D, isRecording;
    mstep; rewrite Hrec; now mstep.
Qed.

Lemma step_wf s s' : wf (this s) -> step s s' -> wf (this s').
Proof.
  intros Hwf Hstep. destruct Hstep as
    [s s' H|s s' H|s s' H|t id s s' H|f s s' H|b s s' H|A q a s s' Hq H|s c].
  - (* clear *)
    destruct (recordSet_ (this s)) eqn:Hrec; [now rewrite clear_recording in H|].
    rewrite clear_ok in H by (auto; apply Hwf). injection H as <-.
    now apply wf_cleared.
  - (* startRecording *)
    destruct (recordSet_ (this s)) eqn:Hrec; [now rewrite startRecording_recording in H|].
    destruct (persistentData_ (this s)) eqn:Hp.
    + rewrite startRecording_persistent in H by assumption. injection H as <-.
      now apply wf_started_persistent.
    + rewrite startRecording_fresh in H by (auto; apply Hwf). injection H as <-.
      now apply wf_started_fresh.
  - (* stopRecording *)
    destruct (recordSet_ (this s)) eqn:Hrec; [|now rewrite stopRecording_idle in H].
    destruct (List.Forall_dec (in_store (this s)) (in_store_dec (this s)) (buffered (snn_ s)))
      as [Hin|Hin].
    + destruct (Z_lt_dec (-1) (startTime_ (this s))) as [H0|H0];
        [|rewrite stopRecording_unset in H by (auto; lia); discriminate].
      destruct (Z_lt_dec (-1) (startTimeLast_ (this s))) as [H1|H1];
        [|rewrite stopRecording_unset in H by (auto; lia); discriminate].
      destruct (Z_lt_dec (-1) (accumTime_ (this s))) as [H2|H2];
        [|rewrite stopRecording_unset in H by (auto; lia); discriminate].
      rewrite stopRecording_run in H by (auto; apply Hwf).
      destruct (0 <=? _); [|discriminate]. injection H as <-.
      unfold flushed. cbn [upd this].
      apply wf_stopped; [|now destruct (this s)].
      now apply wf_pushed.
    + destruct (Z_lt_dec (-1) (startTime_ (this s))) as [H0|H0];
        [|rewrite stopRecording_unset in H by (auto; lia); discriminate].
      destruct (Z_lt_dec (-1) (startTimeLast_ (this s))) as [H1|H1];
        [|rewrite stopRecording_unset in H by (auto; lia); discriminate].
      destruct (Z_lt_dec (-1) (accumTime_ (this s))) as [H2|H2];
        [|rewrite stopRecording_unset in H by (auto; lia); discriminate].
      rewrite stopRecording_undefined in H by (auto; apply Hwf). discriminate.
  - (* pushAER *)
    destruct (recordSet_ (this s)) eqn:Hrec; [|now rewrite pushAER_idle in H].
    destruct (in_store_dec (this s) (t, id)) as [Hin|Hin].
    + rewrite pushAER_ok in H by (auto; apply Hwf). injection H as <-.
      now apply (wf_pushed _ [(t, id)]).
    + rewrite pushAER_out_of_range in H by (auto; apply Hwf). discriminate.
  - (* setSpikeFileId *)
    destruct (recordSet_ (this s)) eqn:Hrec; [now rewrite setSpikeFileId_recording in H|].
    destruct (streams (snn_ s) !! f) as [st|] eqn:Hf;
      [|rewrite setSpikeFileId_closed in H by assumption; discriminate].
    destruct (writable st) eqn:Hw.
    + rewrite (setSpikeFileId_ok _ _ st) in H by assumption. injection H as <-.
      now apply wf_file.
    + rewrite (setSpikeFileId_unwritable _ _ st) in H by assumption. injection H as <-.
      now apply wf_file.
  - (* setPersistentData *)
    injection H as <-. destruct Hwf as [Hn Hl Hm Hr Hs Hrec]. open_state s.
    constructor; proj_simpl; auto.
  - (* a query *)
    destruct (recordSet_ (this s)) eqn:Hrec.
    + now rewrite query_recording in H.
    + eapply query_keeps_idle; [eassumption|split; eassumption|eassumption].
  - (* the simulator *)
    exact Hwf.
Qed.

Theorem reachable_wf s : reachable s -> wf (this s).
Proof.
  induction 1 as [raw snn monitorId grpId s H|s s' _ IH Hstep].
  - destruct (Z_lt_le_dec 0 (groupNumNeurons snn grpId)) as [Hn|Hn].
    + rewrite SpikeMonitorCore_new_ok in H by assumption. injection H as <-.
      now apply wf_fresh.
    + now rewrite SpikeMonitorCore_new_empty in H.
  - eapply step_wf; eassumption.
Qed.

(** ** The runs the spec lists as tests *)

Example single_neuron_three_spikes :
  exists s, single_neuron_run = Ok ((3, float_of_Z 3), s).
Proof. eexists. vm_compute. reflexivity. Qed.

Example default_mode_keeps_last_window :
  exists s,
    two_windows_default [(100, 0); (200, 1)] [(600, 1); (700, 0); (900, 1)] s_fresh
    = Ok ((500, 3), s).
Proof. eexists. vm_compute. reflexivity. Qed.

Example push_while_idle_rejected : pushAER 5 0 s_recorded = AssertFail.
Proof. reflexivity. Qed.

Example query_while_recording_rejected : getPopMeanFiringRate s_recording = AssertFail.
Proof. reflexivity. Qed.

Example stop_reaches_recorded :
  stopRecording s_recording = Ok (tt, s_recorded).
Proof. vm_compute. reflexivity. Qed.

(** * The claims *)

(** C1, as the spec states it, fails: right after construction (which ends
    in [clear()]) a two-neuron monitor is idle, and [clear()] followed by
    [getAllFiringRates()] does not return all-zero rates but stops at the
    assertion [totalTime_ > 0] of [calculateFiringRates()]. *)
Lemma clear_then_rates_counterexample :
  idle (this s_fresh) /\
  (clear ;; getAllFiringRates) s_fresh = AssertFail.
Proof. split; [apply s_fresh_idle|]. vm_compute. reflexivity. Qed.

(** C1 (amended): on every idle monitor, [clear()] followed by the mean-rate
    query returns zero (the negative zero [0 * 1000.0 / -neuronCount], which
    compares equal to 0) and followed by the spike-count query returns 0;
    followed by any query that needs the rate caches (standard deviation,
    all rates, sorted rates, count in a range, silent count, percent silent)
    it is rejected by the assertion [totalTime_ > 0], because [clear()] has
    set the total time to the unset value -1. *)
Theorem clear_then_query (s : St) :
  idle (this s) ->
  (clear ;; getPopMeanFiringRate) s = Ok (S754_zero true, upd cleared s) /\
  SFeqb (S754_zero true) fzero = true /\
  (clear ;; getPopNumSpikes) s = Ok (0, upd cleared s) /\
  totalTime_ (cleared (this s)) = -1 /\
  (clear ;; getPopStdFiringRate) s = AssertFail /\
  (clear ;; getAllFiringRates) s = AssertFail /\
  (clear ;; getAllFiringRatesSorted) s = AssertFail /\
  (forall min max, (clear ;; getNumNeuronsWithFiringRate min max) s = AssertFail) /\
  (clear ;; getNumSilentNeurons) s = AssertFail /\
  (clear ;; getPercentSilentNeurons) s = AssertFail.
Proof.
  intros [[Hn Hl Hm _ _ _] Hrec].
  assert (Hc : clear s = Ok (tt, upd cleared s)) by (apply clear_ok; assumption).
  open_state s. subst.
  assert (Hl' : Z.of_nat (length (replicate (length spkVector_0) (@nil Z)))
                = Z.of_nat (length spkVector_0)) by (now rewrite length_replicate).
  repeat split; try intros min max; rewrite (run_bind _ _ _ _ _ Hc).
  - rewrite getPopMeanFiringRate_ok by (try reflexivity; exact Hl').
    unfold cleared, spike_counts. proj_simpl. cbn [Z.eqb].
    rewrite sumZ_counts_empty, zero_over_negative by lia. reflexivity.
  - rewrite getPopNumSpikes_ok by (try reflexivity; exact Hl').
    unfold cleared, spike_counts. proj_simpl. now rewrite sumZ_counts_empty.
  - apply getPopStdFiringRate_unset; solve [reflexivity | exact Hl'].
  - apply getAllFiringRates_unset; reflexivity.
  - apply getAllFiringRatesSorted_unset; reflexivity.
  - apply getNumNeuronsWithFiringRate_unset; reflexivity.
  - apply getNumSilentNeurons_unset; reflexivity.
  - apply getPercentSilentNeurons_unset; reflexivity.
Qed.

Lemma clear_then_query_witness :
  (clear ;; getPopMeanFiringRate) s_fresh = Ok (S754_zero true, upd cleared s_fresh) /\
  (clear ;; getPopStdFiringRate) s_fresh = AssertFail.
Proof.
  pose proof (clear_then_query s_fresh s_fresh_idle) as H.
  split; [apply H|]. destruct H as (_ & _ & _ & _ & H & _). exact H.
Defined.

(** C3: [stopRecording()] on a recording monitor whose timing fields are all
    non-negative makes it idle, sets [stopTime_] to the current time and
    [totalTime_] to [stopTime_ - startTimeLast_ + accumTime_]; the total is
    non-negative whenever the call returns, and a negative total ends the
    call in a failed assertion instead. *)
Theorem stopRecording_spec (s : St) :
  recordSet_ (this s) = true ->
  mode_ (this s) = AER ->
  Forall (in_store (this s)) (buffered (snn_ s)) ->
  -1 < startTime_ (this s) ->
  -1 < startTimeLast_ (this s) ->
  -1 < accumTime_ (this s) ->
  let now := current_time (snn_ s) in
  let total := now - startTimeLast_ (this s) + accumTime_ (this s) in
  (0 <= total ->
   exists s', stopRecording s = Ok (tt, s') /\
     recordSet_ (this s') = false /\
     stopTime_ (this s') = now /\
     totalTime_ (this s')
       = stopTime_ (this s') - startTimeLast_ (this s') + accumTime_ (this s') /\
     startTimeLast_ (this s') = startTimeLast_ (this s) /\
     accumTime_ (this s') = accumTime_ (this s) /\
     0 <= totalTime_ (this s')) /\
  (total < 0 -> stopRecording s = AssertFail).
Proof.
  intros Hrec Hmode Hin H0 H1 H2 now total.
  rewrite stopRecording_run by assumption. fold now total.
  split; intros Ht.
  - destruct (Z.leb_spec 0 total); [|lia].
    eexists; split; [reflexivity|].
    subst now total. unfold stopped, flushed. open_state s. repeat split; lia.
  - destruct (Z.leb_spec 0 total); [lia|reflexivity].
Qed.

Lemma stopRecording_spec_witness :
  exists s', stopRecording s_recording = Ok (tt, s') /\ totalTime_ (this s') = 1000.
Proof.
  destruct (stopRecording_spec s_recording) as [H _].
  - reflexivity.
  - reflexivity.
  - repeat constructor; vm_compute; easy.
  - reflexivity.
  - reflexivity.
  - reflexivity.
  - destruct H as (s' & Hs & Hr & Hst & Ht & Hsl & Hac & _); [vm_compute; easy|].
    exists s'. split; [exact Hs|]. rewrite Ht, Hst, Hsl, Hac. reflexivity.
Defined.

(** C4, evaluated where the code departs from it: on a recording monitor
    of two neurons, [pushAER] with neuron id 2 meets no assertion and runs
    into the unchecked [spkVector_[neurId]], which is undefined behaviour,
    whereas the sibling accessor [getNeuronNumSpikes] asserts the range of
    the same id. *)
Theorem pushAER_unchecked_id :
  recordSet_ (this s_recording) = true /\
  nNeurons_ (this s_recording) = 2 /\
  pushAER 40 2 s_recording = Undefined /\
  pushAER 40 (-1) s_recording = Undefined /\
  getNeuronNumSpikes 2 s_recorded = AssertFail.
Proof. repeat split; vm_compute; reflexivity. Qed.



Lemma time_split t : t / 1000 * 1000 + t mod 1000 = t.
Proof. pose proof (Z.div_mod t 1000). lia. Qed.

Lemma two_windows_run monitorId grpId snn w1 w2 :
  0 < groupNumNeurons snn grpId ->
  0 <= current_time snn ->
  length w1 = 2%nat ->
  length w2 = 3%nat ->
  Forall (fun ev => 0 <= snd ev < groupNumNeurons snn grpId) w1 ->
  Forall (fun ev => 0 <= snd ev < groupNumNeurons snn grpId) w2 ->
  exists s',
    two_windows w1 w2
      {| this := fresh_monitor monitorId grpId (groupNumNeurons snn grpId); snn_ := snn |}
    = Ok ((1000, 5), s').
Proof.
  intros Hn Ht0 Hw1 Hw2 Hin1 Hin2. unfold two_windows, setPersistentData, simulate.
  destruct snn as [sec ms groups buf ss lg]. unfold current_time in Ht0. proj_simpl_all.
  set (n := groups grpId) in *. unfold fresh_monitor. eexists.
  mstep.
  erewrite run_bind by (apply startRecording_persistent; reflexivity).
  cbv beta. unfold started_persistent, current_time. proj_simpl. cbn [Z.ltb Z.compare].
  mstep.
  set (t0 := sec * 1000 + ms) in *.
  assert (Hlen : forall evs, length (fold_left store_push evs (replicate (Z.to_nat n) []))
                             = Z.to_nat n).
  { intros evs. now rewrite fold_store_push_length, length_replicate. }
  erewrite run_bind; cycle 1.
  { rewrite stopRecording_run; proj_simpl; try reflexivity; try lia.
    - unfold current_time. proj_simpl. rewrite ?time_split.
      destruct (Z.leb_spec 0 (t0 + 500 - t0 + 0)); [reflexivity|lia].
    - eapply Forall_impl; [exact Hin1|]. intros ev Hev. cbn beta in Hev. unfold in_store. proj_simpl.
      rewrite length_replicate. lia. }
  cbv beta. unfold flushed, stopped, current_time. proj_simpl. rewrite ?time_split.
  erewrite run_bind by (apply startRecording_persistent; reflexivity).
  cbv beta. unfold started_persistent, current_time. proj_simpl. rewrite ?time_split.
  replace (t0 + 500 - t0 + 0) with 500 by lia. cbn [Z.ltb Z.compare].
  destruct (Z.ltb_spec t0 0); [lia|].
  mstep.
  erewrite run_bind; cycle 1.
  { rewrite stopRecording_run; proj_simpl; try reflexivity; try lia.
    - unfold current_time. proj_simpl. rewrite ?time_split.
      destruct (Z.leb_spec 0 (t0 + 500 + 500 - (t0 + 500) + 500)); [reflexivity|lia].
    - eapply Forall_impl; [exact Hin2|]. intros ev Hev. cbn beta in Hev. unfold in_store. proj_simpl.
      rewrite Hlen. lia. }
  cbv beta. unfold flushed, stopped, current_time. proj_simpl. rewrite ?time_split.
  unfold getRecordingTotalTime. mstep.
  erewrite run_bind; cycle 1.
  { apply getPopNumSpikes_ok; proj_simpl; try reflexivity.
    rewrite fold_store_push_length, Hlen. lia. }
  cbv beta. unfold ret. f_equal. f_equal. f_equal.
  - lia.
  - unfold spike_counts. proj_simpl. cbn [app].
    rewrite sumZ_counts_flush.
    + rewrite sumZ_counts_flush.
      * rewrite sumZ_counts_empty, Hw1, Hw2. reflexivity.
      * eapply Forall_impl; [exact Hin1|]. intros ev Hev. cbn beta in *.
        rewrite length_replicate. lia.
    + eapply Forall_impl; [exact Hin2|]. intros ev Hev. cbn beta in *.
      rewrite Hlen. lia.
Qed.

(** C2: [startRecording()] in persistent mode on an idle monitor clears no
    stored spike; it assigns the current time to [startTime_] only if that
    is still unset (negative) and otherwise keeps it; it sets
    [startTimeLast_] to the current time; and it seeds [accumTime_] with the
    previous total time if there is one and with 0 otherwise.  Consequently
    two consecutive 500 ms windows with 2 and then 3 spikes end with a total
    time of 1000 ms and a population spike count of 5. *)
Theorem startRecording_persistent_spec :
  (forall s,
     recordSet_ (this s) = false ->
     persistentData_ (this s) = true ->
     exists s', startRecording s = Ok (tt, s') /\
       recordSet_ (this s') = true /\
       spkVector_ (this s') = spkVector_ (this s) /\
       startTime_ (this s')
         = (if startTime_ (this s) <? 0 then current_time (snn_ s)
            else startTime_ (this s)) /\
       startTimeLast_ (this s') = current_time (snn_ s) /\
       (0 <= totalTime_ (this s) -> accumTime_ (this s') = totalTime_ (this s)) /\
       (totalTime_ (this s) < 0 -> accumTime_ (this s') = 0)) /\
  (forall monitorId grpId snn w1 w2,
     0 < groupNumNeurons snn grpId ->
     0 <= current_time snn ->
     length w1 = 2%nat ->
     length w2 = 3%nat ->
     Forall (fun ev => 0 <= snd ev < groupNumNeurons snn grpId) w1 ->
     Forall (fun ev => 0 <= snd ev < groupNumNeurons snn grpId) w2 ->
     exists s',
       two_windows w1 w2
         {| this := fresh_monitor monitorId grpId (groupNumNeurons snn grpId);
            snn_ := snn |}
       = Ok ((1000, 5), s')).
Proof.
  split.
  - intros s Hrec Hp. eexists. split; [apply startRecording_persistent; assumption|].
    unfold started_persistent. open_state s. repeat split.
    + intros Ht. destruct (Z.ltb_spec 0 totalTime_0); lia.
    + intros Ht. destruct (Z.ltb_spec 0 totalTime_0); lia.
  - apply two_windows_run.
Qed.

Lemma startRecording_persistent_spec_witness :
  exists s',
    two_windows [(100, 0); (200, 1)] [(600, 1); (700, 0); (900, 1)] s_fresh
    = Ok ((1000, 5), s').
Proof.
  destruct startRecording_persistent_spec as [_ H].
  apply (H 0 0 snn_example).
  - reflexivity.
  - vm_compute. discriminate.
  - reflexivity.
  - reflexivity.
  - repeat constructor; vm_compute; easy.
  - repeat constructor; vm_compute; easy.
Defined.

(** C6, as the spec states it, fails: the freshly constructed monitor of two
    neurons is idle and has more than one neuron, and
    [getPopStdFiringRate()] does not return but stops at the assertion
    [totalTime_ > 0], the total time being unset. *)
Lemma getPopStdFiringRate_counterexample :
  idle (this s_fresh) /\
  1 < nNeurons_ (this s_fresh) /\
  getPopStdFiringRate s_fresh = AssertFail.
Proof. split; [apply s_fresh_idle|]. split; vm_compute; reflexivity. Qed.

(** C6 (amended): on every idle monitor whose total time is set (a recording
    has been stopped), [getPopStdFiringRate()] returns, for more than one
    neuron, the square root of the sample variance of the per-neuron rates,
    [sqrt(sum_i (rate[i] - meanRate)^2 / (neuronCount - 1))], where
    [meanRate] is what [getPopMeanFiringRate()] returns and [rate] what
    [getAllFiringRates()] returns; for a single neuron it returns 0. *)
Theorem getPopStdFiringRate_spec (s : St) :
  recorded (this s) ->
  exists mean rates s1 s',
    getPopMeanFiringRate s = Ok (mean, s) /\
    getAllFiringRates s = Ok (rates, s1) /\
    (1 < nNeurons_ (this s) ->
     getPopStdFiringRate s
     = Ok (fsqrt (fdiv (sum_sq_dev mean rates) (float_of_Z (nNeurons_ (this s) - 1))),
           s')) /\
    (nNeurons_ (this s) <= 1 -> getPopStdFiringRate s = Ok (fzero, s')).
Proof.
  intros Hr. pose proof Hr as (Hwf & Hrec & Ht).
  exists (mean_rate_spec (this s)), (rates_of (this s)), (after_calculate s),
         (if totalTime_ (this s) =? 0 then s else after_calculate s).
  split; [apply getPopMeanFiringRate_ok; [assumption|apply Hwf..]|].
  split; [now apply getAllFiringRates_ok|].
  rewrite getPopStdFiringRate_ok by assumption.
  split; intros Hn.
  - destruct (Z.ltb_spec 1 (nNeurons_ (this s))); [|lia].
    destruct (Z.eqb_spec (totalTime_ (this s)) 0) as [Hz|Hz]; [|reflexivity].
    rewrite <- (std_rate_zero (this s)) by assumption. reflexivity.
  - destruct (Z.ltb_spec 1 (nNeurons_ (this s))); [lia|].
    destruct (totalTime_ (this s) =? 0); reflexivity.
Qed.

Lemma getPopStdFiringRate_spec_witness :
  exists s', getPopStdFiringRate s_recorded = Ok (S754_finite false 11863283 (-24), s').
Proof.
  destruct (getPopStdFiringRate_spec s_recorded s_recorded_recorded)
    as (mean & rates & s1 & s' & Hm & Hrt & Hstd & _).
  exists s'. rewrite Hstd by reflexivity.
  vm_compute in Hm. injection Hm as <-.
  vm_compute in Hrt. injection Hrt as <- _.
  reflexivity.
Defined.

(** C7: on an idle monitor after a completed recording,
    [getAllFiringRatesSorted()] returns a non-decreasing permutation of what
    [getAllFiringRates()] returns, [getMaxFiringRate()] returns a maximum and
    [getMinFiringRate()] a minimum of those rates, and a second call of
    [getAllFiringRatesSorted()] returns the same list again (and leaves the
    monitor as the first call left it). *)
Theorem getAllFiringRatesSorted_spec (s : St) :
  recorded (this s) ->
  totalTime_ (this s) <= LONG_MAX ->
  exists rates srt mx mn s1 s2,
    getAllFiringRates s = Ok (rates, s1) /\
    getAllFiringRatesSorted s = Ok (srt, s2) /\
    Permutation srt rates /\
    non_decreasing srt /\
    getMaxFiringRate s = Ok (mx, s2) /\ is_max_of mx rates /\
    getMinFiringRate s = Ok (mn, s2) /\ is_min_of mn rates /\
    getAllFiringRatesSorted s2 = Ok (srt, s2) /\
    (recorded (this s1) /\ rates_of (this s1) = rates) /\
    (recorded (this s2) /\ rates_of (this s2) = rates).
Proof.
  intros Hr Hmax. pose proof Hr as (Hwf & Hrec & Ht).
  set (R := rates_of (this s)).
  assert (Hnn : Forall (fun r => is_nan r = false) R) by (apply rates_of_nonnan; lia).
  assert (Hss : StronglySorted (fun a b => fle a b = true) (std_sort R))
    by (now apply std_sort_sorted).
  assert (Hnn' : Forall (fun r => is_nan r = false) (std_sort R)).
  { apply (Permutation_Forall (Permutation_sym (std_sort_perm R))), Hnn. }
  destruct (getMaxFiringRate_ok s Hr) as (mx & Hlast & Hmx).
  destruct (getMinFiringRate_ok s Hr) as (mn & Hhead & Hmn).
  destruct (recorded_sorted _ Hr) as [Hr2 HR2].
  destruct (recorded_calculated _ Hr) as [Hr1 HR1].
  exists R, (std_sort R), mx, mn, (after_calculate s), (after_sort s).
  split; [now apply getAllFiringRates_ok|].
  split; [now apply getAllFiringRatesSorted_ok|].
  split; [apply std_sort_perm|].
  split; [now apply sorted_non_decreasing|].
  split; [exact Hmx|]. split.
  { split.
    - apply (Permutation_in _ (std_sort_perm R)).
      apply list_elem_of_In, list_elem_of_lookup. rewrite last_lookup in Hlast. eauto.
    - apply (Permutation_Forall (std_sort_perm R)). now apply sorted_last_max. }
  split; [exact Hmn|]. split.
  { split.
    - apply (Permutation_in _ (std_sort_perm R)).
      fold R in Hhead. destruct (std_sort R); [discriminate|].
      cbn [head] in Hhead. injection Hhead as <-. now left.
    - apply (Permutation_Forall (std_sort_perm R)). now apply sorted_head_min. }
  split; [|split; split; assumption].
  rewrite getAllFiringRatesSorted_ok by exact Hr2.
  change (this (after_sort s)) with (sorted (this s)).
  now rewrite HR2, after_sort_idempotent.
Qed.

Lemma getAllFiringRatesSorted_spec_witness :
  exists s2,
    getAllFiringRatesSorted s_recorded
    = Ok ([S754_finite false 8388608 (-23); S754_finite false 8388608 (-22)], s2) /\
    getMaxFiringRate s_recorded = Ok (S754_finite false 8388608 (-22), s2).
Proof.
  destruct (getAllFiringRatesSorted_spec s_recorded s_recorded_recorded)
    as (rates & srt & mx & mn & s1 & s2 & _ & Hs & _ & _ & Hmx & _).
  - vm_compute. discriminate.
  - exists s2. split.
    + rewrite Hs. vm_compute in Hs. now injection Hs as <- _.
    + rewrite Hmx. vm_compute in Hmx. now injection Hmx as <- _.
Defined.

(** C8, as the spec states it, fails: the freshly constructed monitor is
    idle and [0, 0] is a valid range, and [getNumNeuronsWithFiringRate(0, 0)]
    counts nothing but stops at the assertion [totalTime_ > 0]. *)
Lemma getNumNeuronsWithFiringRate_counterexample :
  idle (this s_fresh) /\
  fge fzero fzero = true /\
  getNumNeuronsWithFiringRate fzero fzero s_fresh = AssertFail.
Proof. split; [apply s_fresh_idle|]. split; vm_compute; reflexivity. Qed.

(** C8 (amended): on every idle monitor whose total time is set (a recording
    has been stopped) and for every range with [max >= min >= 0],
    [getNumNeuronsWithFiringRate(min, max)] returns the number of neurons
    whose rate [r], as [getAllFiringRates()] returns it, satisfies
    [min <= r <= max]; [getNumSilentNeurons()] returns what
    [getNumNeuronsWithFiringRate(0, 0)] returns; and
    [getPercentSilentNeurons()] returns that count times 100.0 divided by
    the number of neurons. *)
Theorem getNumNeuronsWithFiringRate_spec (s : St) :
  recorded (this s) ->
  exists rates s1 s2,
    getAllFiringRates s = Ok (rates, s1) /\
    (forall min max,
       fge min fzero = true -> fge max min = true ->
       getNumNeuronsWithFiringRate min max s = Ok (count_in_range min max rates, s2)) /\
    getNumSilentNeurons s = getNumNeuronsWithFiringRate fzero fzero s /\
    getPercentSilentNeurons s
    = Ok (float_of_double
            (ddiv (dmul (double_of_Z (count_in_range fzero fzero rates)) d100)
                  (double_of_Z (nNeurons_ (this s)))), s2).
Proof.
  intros Hr.
  exists (rates_of (this s)), (after_calculate s), (after_sort s).
  split; [now apply getAllFiringRates_ok|]. split; [|split].
  - intros min max Hmin Hmm. apply getNumNeuronsWithFiringRate_ok; try assumption.
    unfold fge in *. eapply SFleb_trans; eassumption.
  - rewrite getNumSilentNeurons_ok by assumption.
    now rewrite getNumNeuronsWithFiringRate_ok.
  - now rewrite getPercentSilentNeurons_ok.
Qed.

Lemma getNumNeuronsWithFiringRate_spec_witness :
  exists s2,
    getNumNeuronsWithFiringRate fone (float_of_Z 2) s_recorded = Ok (2, s2) /\
    getPercentSilentNeurons s_recorded = Ok (fzero, s2).
Proof.
  destruct (getNumNeuronsWithFiringRate_spec s_recorded s_recorded_recorded)
    as (rates & s1 & s2 & Hrt & Hcount & _ & Hpct).
  exists s2. vm_compute in Hrt. injection Hrt as <- _. split.
  - now rewrite Hcount.
  - rewrite Hpct. reflexivity.
Defined.

(** C9, evaluated where the code departs from it: binding the same open
    stream twice writes the header twice to that one stream.  The second
    [setSpikeFileId] logs the error, marks the header as to be written and
    writes it again, although the stream is the one that already holds it. *)
Theorem setSpikeFileId_same_stream_twice :
  exists s',
    (setSpikeFileId 7 ;; setSpikeFileId 7) s_fresh = Ok (tt, s') /\
    written <$> streams (snn_ s') !! 7
    = Some [IntBytes 206661989; FloatBytes fone; IntBytes 206661989; FloatBytes fone] /\
    logged (snn_ s') = [rebind_error] /\
    spikeFileId_ (this s') = 7 /\
    needToWriteFileHeader_ (this s') = false.
Proof. eexists. split; [vm_compute; reflexivity|]. repeat split. Qed.

(** C10: a statistics query that returns has left every member of the
    monitor other than the two rate caches and their two dirty flags as it
    was (the spike store, the five timing fields and the recording flag in
    particular), and has left the simulator's clock, buffer and streams as
    they were. *)
Theorem queries_keep_frame :
  framed getPopMeanFiringRate /\
  framed getPopStdFiringRate /\
  framed getPopNumSpikes /\
  (forall neurId, framed (getNeuronNumSpikes neurId)) /\
  framed getAllFiringRates /\
  framed getAllFiringRatesSorted /\
  framed getMaxFiringRate /\
  framed getMinFiringRate /\
  (forall min max, framed (getNumNeuronsWithFiringRate min max)) /\
  framed getNumSilentNeurons /\
  framed getSpikeVector2D.
Proof.
  split; [apply framed_getPopMeanFiringRate|].
  split; [apply framed_getPopStdFiringRate|].
  split; [apply framed_getPopNumSpikes|].
  split; [apply framed_getNeuronNumSpikes|].
  split; [apply framed_getAllFiringRates|].
  split; [apply framed_getAllFiringRatesSorted|].
  split; [apply framed_getMaxFiringRate|].
  split; [apply framed_getMinFiringRate|].
  split; [apply framed_getNumNeuronsWithFiringRate|].
  split; [apply framed_getNumSilentNeurons|].
  apply framed_getSpikeVector2D.
Qed.

Lemma queries_keep_frame_witness :
  exists srt s',
    getAllFiringRatesSorted s_recorded = Ok (srt, s') /\
    spkVector_ (this s') = [[10; 20]; [30]] /\
    totalTime_ (this s') = 1000 /\
    recordSet_ (this s') = false.
Proof.
  destruct (getAllFiringRatesSorted s_recorded) as [[srt s']| |] eqn:E;
    try (vm_compute in E; discriminate).
  exists srt, s'. split; [reflexivity|].
  destruct queries_keep_frame as (_ & _ & _ & _ & _ & H & _).
  destruct (H _ _ _ E) as [_ _ _ _ Hrec _ _ _ _ _ _ Hv _ _ _ _ Ht _ _ _ _ _].
  rewrite Hv, Ht, Hrec. repeat split.
Defined.
(** * Further properties of the monitor *)

(** ** More about the methods *)



Lemma getNeuronMeanFiringRate_range s i :
  recordSet_ (this s) = false ->
  ~ (0 <= i < nNeurons_ (this s)) ->
  getNeuronMeanFiringRate i s = AssertFail.
Proof.
  intros Hrec Hi. unfold getNeuronMeanFiringRate, isRecording.
  mstep. rewrite Hrec. repeat mstep.
  destruct (Z.leb_spec 0 i), (Z.ltb_spec i (nNeurons_ (this s))); try reflexivity. lia.
Qed.


Lemma cleared_cleared m : cleared (cleared m) = cleared m.
Proof. destruct m. unfold cleared. proj_simpl. now rewrite length_replicate. Qed.

Lemma reachable_s_fresh : reachable s_fresh.
Proof.
  apply (reachable_new (fresh_monitor 0 0 0) snn_example 0 0).
  rewrite SpikeMonitorCore_new_ok; reflexivity.
Qed.

Lemma reachable_s_recorded : reachable s_recorded.
Proof.
  apply reachable_step with s_recording; [|apply step_stop, stop_reaches_recorded].
  apply (reachable_step
           {| this := this s_recording; snn_ := set_buffered [] snn_example |});
    [|exact (step_simulator
               {| this := this s_recording; snn_ := set_buffered [] snn_example |}
               (snn_ s_recording))].
  apply reachable_step with s_fresh; [apply reachable_s_fresh|].
  apply step_start. vm_compute. reflexivity.
Qed.

(** ** Properties *)

(** X1: the constructor aborts in the assertion of [init()] when the group
    has no neuron; for a group of [n > 0] neurons it returns, whatever the
    storage it is built in holds, a monitor that is not recording, is in
    mode [AER] and in the default (non-persistent) mode, has no file and a
    header still to write, [n] empty spike lists, unset times (-1, the
    accumulated time 0), and [n] zeros in each of the two rate caches, both
    marked out of date.  The simulator is not changed. *)
Theorem constructor_outcome (raw : SpikeMonitorCore) (snn : CpuSNN) (monitorId grpId : Z) :
  SpikeMonitorCore_new raw snn monitorId grpId
  = if 0 <? groupNumNeurons snn grpId
    then Ok (tt, {| this := fresh_monitor monitorId grpId (groupNumNeurons snn grpId);
                    snn_ := snn |})
    else AssertFail.
Proof.
  destruct (Z.ltb_spec 0 (groupNumNeurons snn grpId)).
  - now apply SpikeMonitorCore_new_ok.
  - apply SpikeMonitorCore_new_empty. lia.
Qed.

(** X2: whatever public methods have been called on a constructed monitor,
    and whatever the simulator has done in between, the object keeps its
    invariant: the group is not empty, the store has one spike list per
    neuron, the mode is [AER], both rate caches are marked out of date
    while it records, a rate cache that is marked up to date holds exactly
    the rates (sorted rates) that the store and the total time give, and
    the rate cache is only marked up to date for a positive total time. *)
Theorem monitor_invariant (s : St) :
  reachable s ->
  0 < nNeurons_ (this s) /\
  Z.of_nat (length (spkVector_ (this s))) = nNeurons_ (this s) /\
  mode_ (this s) = AER /\
  (recordSet_ (this s) = true ->
   needToCalculateFiringRates_ (this s) = true /\ needToSortFiringRates_ (this s) = true) /\
  (needToCalculateFiringRates_ (this s) = false ->
   0 < totalTime_ (this s) /\ firingRates_ (this s) = rates_of (this s)) /\
  (needToSortFiringRates_ (this s) = false ->
   firingRatesSorted_ (this s) = std_sort (rates_of (this s))).
Proof.
  intros Hr. destruct (reachable_wf s Hr) as [H1 H2 H3 H4 H5 H6].
  split; [exact H1|]. split; [exact H2|]. split; [exact H3|].
  split; [exact H6|]. split; [exact H4|].
  intros H. apply H5, H.
Qed.

Lemma monitor_invariant_witness :
  reachable s_recorded /\ Z.of_nat (length (spkVector_ (this s_recorded))) = 2.
Proof.
  split; [apply reachable_s_recorded|].
  destruct (monitor_invariant s_recorded reachable_s_recorded) as (_ & H & _).
  exact H.
Defined.

(** X3: on a monitor reached by any sequence of calls that is not recording
    and has a total time, the rate queries never answer from a stale cache:
    [getAllFiringRates()] returns the rate of every neuron as the current
    store and total time give it, and [getAllFiringRatesSorted()] the
    sorted arrangement of the same rates. *)
Theorem rates_never_stale (s : St) :
  reachable s ->
  recordSet_ (this s) = false ->
  0 <= totalTime_ (this s) ->
  (exists s1, getAllFiringRates s = Ok (rates_of (this s), s1)) /\
  (exists s2, getAllFiringRatesSorted s = Ok (std_sort (rates_of (this s)), s2)).
Proof.
  intros Hr Hrec Ht.
  assert (Hrd : recorded (this s)).
  { split; [now apply reachable_wf|split; assumption]. }
  split; eexists.
  - now apply getAllFiringRates_ok.
  - now apply getAllFiringRatesSorted_ok.
Qed.

Lemma rates_never_stale_witness :
  exists s1, getAllFiringRates s_recorded = Ok ([float_of_Z 2; float_of_Z 1], s1).
Proof.
  destruct (rates_never_stale s_recorded reachable_s_recorded) as [[s1 H] _].
  - reflexivity.
  - vm_compute. discriminate.
  - exists s1. exact H.
Defined.



(** X5: [pushAER(time, neurId)] on a recording monitor with a neuron id of
    the group appends [time] to the end of that neuron's spike list and
    changes nothing else, neither in the object nor in the simulator: the
    other lists, the number of lists and every other member stay.  No
    condition is put on [time]: it may be negative, or earlier than the
    times already stored. *)
Theorem pushAER_appends (s : St) (time neurId : Z) (row : list Z) :
  recordSet_ (this s) = true ->
  mode_ (this s) = AER ->
  0 <= neurId ->
  spkVector_ (this s) !! Z.to_nat neurId = Some row ->
  exists v,
    pushAER time neurId s = Ok (tt, upd (set_spkVector_ v) s) /\
    v !! Z.to_nat neurId = Some (row ++ [time]) /\
    (forall j, j <> Z.to_nat neurId -> v !! j = spkVector_ (this s) !! j) /\
    length v = length (spkVector_ (this s)).
Proof.
  intros Hrec Hmode Hid Hrow.
  pose proof (lookup_lt_Some _ _ _ Hrow) as Hlt.
  exists (<[Z.to_nat neurId := row ++ [time]]> (spkVector_ (this s))).
  split; [|split; [|split]].
  - rewrite pushAER_ok by (auto; lia). unfold upd. cbv beta.
    unfold store_push. cbn [snd fst]. rewrite Hrow. reflexivity.
  - now apply list_lookup_insert_eq.
  - intros j Hj. now apply list_lookup_insert_ne.
  - apply length_insert.
Qed.

Lemma pushAER_appends_witness :
  exists v, pushAER (-5) 1 s_recording = Ok (tt, upd (set_spkVector_ v) s_recording) /\
            v !! 1%nat = Some [-5].
Proof.
  destruct (pushAER_appends s_recording (-5) 1 []) as (v & H1 & H2 & _).
  - reflexivity.
  - reflexivity.
  - lia.
  - reflexivity.
  - exists v. split; [exact H1|exact H2].
Defined.



(** ** Rates of single neurons, and what a rate can be *)



Lemma rate_Hz_nonneg c t :
  0 <= c -> 0 < t <= LONG_MAX -> nonneg_rate (rate_Hz c t).
Proof.
  intros Hc Ht. destruct (Z.eq_dec c 0) as [->|Hne].
  - rewrite rate_Hz_zero by assumption. split; reflexivity.
  - destruct (signed_nonzero_above_zero _ (rate_Hz_pos c t ltac:(lia) Ht)) as (H1 & H2 & _).
    split; assumption.
Qed.

Lemma rates_of_nonneg m :
  0 <= totalTime_ m <= LONG_MAX -> Forall nonneg_rate (rates_of m).
Proof.
  intros Ht. unfold rates_of. destruct (Z.eqb_spec (totalTime_ m) 0).
  - unfold vec_assign. apply Forall_replicate. split; reflexivity.
  - apply Forall_forall. intros r Hr. apply list_elem_of_fmap in Hr.
    destruct Hr as (row & -> & _). apply rate_Hz_nonneg; lia.
Qed.

Lemma fle_infinity r : is_nan r = false -> fle r (S754_infinity false) = true.
Proof. destruct r as [[]|[]| |[] m e]; try discriminate; reflexivity. Qed.

Lemma count_in_range_all l :
  Forall nonneg_rate l ->
  count_in_range fzero (S754_infinity false) l = Z.of_nat (length l).
Proof.
  induction 1 as [|r l [Hn Hr] _ IH]; [reflexivity|].
  cbn [count_in_range length]. change (fge r fzero) with (fle fzero r).
  rewrite Hr, fle_infinity by assumption.
  cbn [andb]. rewrite IH. lia.
Qed.

Lemma count_in_range_bounds min max l :
  0 <= count_in_range min max l <= Z.of_nat (length l).
Proof.
  induction l as [|r l IH]; cbn [count_in_range length]; [lia|].
  destruct (fge r min && fle r max); lia.
Qed.

Lemma count_in_range_zeros k :
  count_in_range fzero fzero (replicate k fzero) = Z.of_nat k.
Proof.
  induction k as [|k IH]; [reflexivity|].
  cbn [replicate count_in_range]. rewrite IH.
  change (fge fzero fzero && fle fzero fzero) with true. lia.
Qed.

Lemma count_in_range_silent t v :
  0 < t <= LONG_MAX ->
  count_in_range fzero fzero (map (fun row : list Z => rate_Hz (Z.of_nat (length row)) t) v)
  = count_silent v.
Proof.
  intros Ht. unfold count_silent.
  induction v as [|row v IH]; [reflexivity|].
  cbn [map count_in_range List.filter]. rewrite IH.
  destruct row as [|x row].
  - cbn [length]. change (Z.of_nat 0) with 0. rewrite rate_Hz_zero by assumption.
    change (fge fzero fzero && fle fzero fzero) with true. cbn [length]. lia.
  - destruct (signed_nonzero_above_zero _
                (rate_Hz_pos (Z.of_nat (length (x :: row))) t ltac:(cbn [length]; lia) Ht))
      as (_ & _ & H).
    rewrite H, andb_false_r. lia.
Qed.





(** X9: every rate the monitor reports for a recording with a total time
    that fits a [long] is a number that is not negative: no entry of
    [getAllFiringRates()] is a NaN or below zero, and counting the neurons
    with a rate between 0 and plus infinity counts every neuron. *)
Theorem rates_are_nonnegative (s : St) :
  recorded (this s) ->
  totalTime_ (this s) <= LONG_MAX ->
  exists rates s1 s2,
    getAllFiringRates s = Ok (rates, s1) /\
    Forall nonneg_rate rates /\
    getNumNeuronsWithFiringRate fzero (S754_infinity false) s
    = Ok (nNeurons_ (this s), s2).
Proof.
  intros Hr Ht. pose proof Hr as (Hwf & Hrec & Ht0).
  pose proof (rates_of_nonneg (this s) ltac:(lia)) as Hnn.
  exists (rates_of (this s)), (after_calculate s), (after_sort s).
  split; [now apply getAllFiringRates_ok|]. split; [exact Hnn|].
  rewrite getNumNeuronsWithFiringRate_ok by (auto; reflexivity).
  rewrite count_in_range_all by assumption.
  rewrite rates_of_length by apply Hwf.
  pose proof (wf_neurons _ Hwf). do 2 f_equal. lia.
Qed.

Lemma rates_are_nonnegative_witness :
  exists s2,
    getNumNeuronsWithFiringRate fzero (S754_infinity false) s_recorded = Ok (2, s2).
Proof.
  destruct (rates_are_nonnegative s_recorded s_recorded_recorded)
    as (rates & s1 & s2 & _ & _ & H).
  - vm_compute. discriminate.
  - exists s2. exact H.
Defined.

(** X10: [getNumSilentNeurons()] counts exactly the neurons without a
    spike.  For a recording with a positive total time that fits a [long],
    rounding never turns the rate of a neuron that has spiked into zero,
    so the count is the number of empty spike lists; for a total time of 0
    every neuron counts as silent, whatever it has fired. *)
Theorem silent_count_exact (s : St) :
  recorded (this s) ->
  totalTime_ (this s) <= LONG_MAX ->
  exists s',
    getNumSilentNeurons s
    = Ok (if totalTime_ (this s) =? 0 then nNeurons_ (this s)
          else count_silent (spkVector_ (this s)), s').
Proof.
  intros Hr Ht. pose proof Hr as (Hwf & Hrec & Ht0).
  exists (after_sort s). rewrite getNumSilentNeurons_ok by assumption.
  do 2 f_equal. unfold rates_of.
  destruct (Z.eqb_spec (totalTime_ (this s)) 0).
  - unfold vec_assign. rewrite count_in_range_zeros.
    pose proof (wf_neurons _ Hwf). lia.
  - apply count_in_range_silent. lia.
Qed.

Lemma silent_count_exact_witness :
  exists s', getNumSilentNeurons s_recorded = Ok (0, s').
Proof.
  destruct (silent_count_exact s_recorded s_recorded_recorded) as (s' & H).
  - vm_compute. discriminate.
  - exists s'. exact H.
Defined.

(** X11: [getNumNeuronsWithFiringRate(min, max)] on an idle monitor with a
    total time returns exactly when [min >= 0], [max >= 0] and
    [max >= min] hold as comparisons of floats, so a negative bound, a
    reversed range or a NaN bound ends in a failed assertion; when it
    returns, the count lies between 0 and the number of neurons. *)
Theorem count_in_range_outcome (s : St) (min max : float) :
  recorded (this s) ->
  getNumNeuronsWithFiringRate min max s
  = (if fge min fzero && fge max fzero && fge max min
     then Ok (count_in_range min max (rates_of (this s)), after_sort s)
     else AssertFail) /\
  0 <= count_in_range min max (rates_of (this s)) <= nNeurons_ (this s).
Proof.
  intros Hr. pose proof Hr as (Hwf & Hrec & Ht0). split.
  - destruct (fge min fzero) eqn:H1, (fge max fzero) eqn:H2, (fge max min) eqn:H3;
      cbn [andb];
      try (now apply getNumNeuronsWithFiringRate_ok);
      unfold getNumNeuronsWithFiringRate, isRecording;
      mstep; rewrite Hrec; repeat mstep; rewrite ?H1, ?H2, ?H3; repeat mstep; reflexivity.
  - pose proof (count_in_range_bounds min max (rates_of (this s))) as H.
    rewrite rates_of_length in H by apply Hwf.
    pose proof (wf_neurons _ Hwf). lia.
Qed.

Lemma count_in_range_outcome_witness :
  getNumNeuronsWithFiringRate (float_of_Z 2) fone s_recorded = AssertFail /\
  getNumNeuronsWithFiringRate S754_nan fone s_recorded = AssertFail.
Proof.
  split.
  - rewrite (proj1 (count_in_range_outcome s_recorded (float_of_Z 2) fone
                      s_recorded_recorded)). reflexivity.
  - rewrite (proj1 (count_in_range_outcome s_recorded S754_nan fone
                      s_recorded_recorded)). reflexivity.
Defined.

(** ** The zero-time warning, [clear] and the default start *)

Lemma calculated_zero_time m :
  needToCalculateFiringRates_ m = true -> totalTime_ m = 0 ->
  needToCalculateFiringRates_ (calculated m) = true /\
  totalTime_ (calculated m) = 0 /\
  nNeurons_ (calculated m) = nNeurons_ m.
Proof.
  intros Hneed Ht. unfold calculated. rewrite Hneed, Ht. cbn [Z.eqb].
  destruct m. proj_simpl_all. auto.
Qed.

Lemma repeat_getAllFiringRates_zero_time k : forall i s,
  recorded (this s) ->
  totalTime_ (this s) = 0 ->
  exists s',
    for_fold k i (fun _ _ => _ <- getAllFiringRates ;; ret tt) tt s = Ok (tt, s') /\
    recorded (this s') /\ totalTime_ (this s') = 0 /\
    nNeurons_ (this s') = nNeurons_ (this s) /\
    logged (snn_ s') = logged (snn_ s) ++ replicate k warn_zero_time.
Proof.
  induction k as [|k IH]; intros i s Hr Ht.
  - exists s. cbn [for_fold replicate]. rewrite app_nil_r. auto.
  - pose proof Hr as (Hwf & Hrec & _).
    assert (Hneed : needToCalculateFiringRates_ (this s) = true).
    { destruct (needToCalculateFiringRates_ (this s)) eqn:E; [reflexivity|].
      destruct (wf_rates _ Hwf E). lia. }
    destruct (calculated_zero_time _ Hneed Ht) as (Hn1 & Ht1 & Hnn1).
    destruct (recorded_calculated _ Hr) as [Hr1 _].
    destruct (IH (i + 1) (after_calculate s) Hr1 Ht1) as (s' & Hrun & Hr' & Ht' & Hn' & Hlog).
    exists s'. split; [|split; [|split; [|split]]]; try assumption.
    + cbn [for_fold]. mstep.
      erewrite run_bind by (apply getAllFiringRates_ok; assumption).
      cbv beta. mstep. exact Hrun.
    + rewrite Hn'. exact Hnn1.
    + rewrite Hlog. unfold after_calculate, calculated_snn. cbn [snn_].
      rewrite Hneed, Ht. cbn [andb Z.eqb]. destruct (snn_ s). proj_simpl.
      cbn [replicate]. rewrite <- app_assoc. reflexivity.
Qed.

(** X12: for a recording with a total time of 0 the rate cache is never
    brought up to date.  Every [getAllFiringRates()] call returns a zero
    for each neuron and logs the warning about the zero total time again,
    so that [k] calls in a row add [k] warnings to the log. *)
Theorem zero_time_warning_repeats (s : St) (k : nat) :
  recorded (this s) ->
  totalTime_ (this s) = 0 ->
  (exists s1,
     getAllFiringRates s = Ok (replicate (Z.to_nat (nNeurons_ (this s))) fzero, s1) /\
     logged (snn_ s1) = logged (snn_ s) ++ [warn_zero_time]) /\
  (exists s',
     repeat_getAllFiringRates k s = Ok (tt, s') /\
     logged (snn_ s') = logged (snn_ s) ++ replicate k warn_zero_time).
Proof.
  intros Hr Ht. split.
  - pose proof Hr as (Hwf & Hrec & _).
    assert (Hneed : needToCalculateFiringRates_ (this s) = true).
    { destruct (needToCalculateFiringRates_ (this s)) eqn:E; [reflexivity|].
      destruct (wf_rates _ Hwf E). lia. }
    exists (after_calculate s). split.
    + rewrite getAllFiringRates_ok by assumption. unfold rates_of, vec_assign.
      rewrite Ht. reflexivity.
    + unfold after_calculate, calculated_snn. cbn [snn_].
      rewrite Hneed, Ht. cbn [andb Z.eqb]. destruct (snn_ s). reflexivity.
  - destruct (repeat_getAllFiringRates_zero_time k 0 s Hr Ht) as (s' & H1 & _ & _ & _ & H2).
    exists s'. split; assumption.
Qed.

Lemma zero_time_warning_repeats_witness :
  exists s',
    repeat_getAllFiringRates 3 (upd (set_totalTime_ 0) s_recorded) = Ok (tt, s') /\
    logged (snn_ s') = [warn_zero_time; warn_zero_time; warn_zero_time].
Proof.
  destruct (zero_time_warning_repeats (upd (set_totalTime_ 0) s_recorded) 3) as [_ H].
  - split; [|split; [reflexivity|vm_compute; discriminate]].
    apply wf_dirty; vm_compute; reflexivity.
  - reflexivity.
  - exact H.
Defined.

(** X13: [clear()] on an idle monitor is idempotent, and it resets the
    recording only: the persistent-mode switch, the file the monitor is
    bound to, the pending header and the simulator are left as they are,
    and the monitor stays idle. *)
Theorem clear_idempotent (s : St) :
  idle (this s) ->
  exists s',
    clear s = Ok (tt, s') /\
    (clear ;; clear) s = Ok (tt, s') /\
    idle (this s') /\
    persistentData_ (this s') = persistentData_ (this s) /\
    spikeFileId_ (this s') = spikeFileId_ (this s) /\
    needToWriteFileHeader_ (this s') = needToWriteFileHeader_ (this s) /\
    snn_ s' = snn_ s.
Proof.
  intros [Hwf Hrec]. pose proof (wf_store _ Hwf) as Hl.
  assert (Hc : clear s = Ok (tt, upd cleared s)) by now apply clear_ok.
  assert (Hwf' : wf (cleared (this s))) by now apply wf_cleared.
  exists (upd cleared s). split; [exact Hc|]. split; [|split].
  - rewrite (run_bind _ _ _ _ _ Hc).
    rewrite clear_ok.
    + unfold upd. cbn [this snn_]. now rewrite cleared_cleared.
    + cbn [upd this]. destruct (this s). reflexivity.
    + cbn [upd this]. apply Hwf'.
  - cbn [upd this]. split; [exact Hwf'|]. destruct (this s). reflexivity.
  - cbn [upd this snn_]. destruct (this s). repeat split.
Qed.

Lemma clear_idempotent_witness :
  exists s', (clear ;; clear) s_recorded = Ok (tt, s') /\ clear s_recorded = Ok (tt, s').
Proof.
  destruct (clear_idempotent s_recorded) as (s' & H1 & H2 & _).
  - destruct s_recorded_recorded as (Hwf & Hrec & _). split; assumption.
  - exists s'. split; assumption.
Defined.

(** X14: in the default mode a recording never carries anything over.
    [startRecording()] on an idle monitor that is not in persistent mode
    does what [clear()] followed by [startRecording()] does: it empties
    every spike list and unsets the total time before it starts, so that
    what an earlier recording stored is gone. *)
Theorem startRecording_default_clears (s : St) :
  idle (this s) ->
  persistentData_ (this s) = false ->
  startRecording s = (clear ;; startRecording) s /\
  exists s',
    startRecording s = Ok (tt, s') /\
    recordSet_ (this s') = true /\
    spkVector_ (this s') = replicate (Z.to_nat (nNeurons_ (this s))) [] /\
    totalTime_ (this s') = -1 /\
    stopTime_ (this s') = -1 /\
    startTime_ (this s') = current_time (snn_ s) /\
    startTimeLast_ (this s') = current_time (snn_ s) /\
    accumTime_ (this s') = 0.
Proof.
  intros [Hwf Hrec] Hp. pose proof (wf_store _ Hwf) as Hl.
  assert (Hc : clear s = Ok (tt, upd cleared s)) by now apply clear_ok.
  pose proof (wf_store _ (wf_cleared _ Hwf)) as Hl'.
  split.
  - rewrite (run_bind _ _ _ _ _ Hc).
    rewrite (startRecording_fresh s) by assumption.
    rewrite (startRecording_fresh (upd cleared s)).
    + unfold started_fresh. cbn [upd this snn_]. now rewrite cleared_cleared.
    + cbn [upd this]. destruct (this s). reflexivity.
    + cbn [upd this]. destruct (this s). exact Hp.
    + exact Hl'.
  - eexists. split; [now apply startRecording_fresh|].
    unfold started_fresh, cleared. cbn [this]. destruct (this s). proj_simpl_all.
    repeat split. f_equal. lia.
Qed.

Lemma startRecording_default_clears_witness :
  exists s', startRecording s_recorded = Ok (tt, s') /\ spkVector_ (this s') = [[]; []].
Proof.
  destruct (startRecording_default_clears s_recorded) as (_ & s' & H1 & _ & H2 & _).
  - destruct s_recorded_recorded as (Hwf & Hrec & _). split; assumption.
  - reflexivity.
  - exists s'. split; [exact H1|exact H2].
Defined.

(** ** The spike file and the destructor *)

Lemma SpikeMonitorCore_delete_unbound s :
  spikeFileId_ (this s) = NULL -> SpikeMonitorCore_delete s = Ok (tt, s).
Proof.
  intros Hf. unfold SpikeMonitorCore_delete. mstep. rewrite Hf. reflexivity.
Qed.

Lemma SpikeMonitorCore_delete_bound s st :
  spikeFileId_ (this s) <> NULL ->
  streams (snn_ s) !! spikeFileId_ (this s) = Some st ->
  SpikeMonitorCore_delete s
  = Ok (tt, {| this := set_spikeFileId_ NULL (this s);
               snn_ := set_streams (delete (spikeFileId_ (this s)) (streams (snn_ s)))
                         (snn_ s) |}).
Proof.
  intros Hf Hst. unfold SpikeMonitorCore_delete. mstep.
  destruct (Z.eqb_spec (spikeFileId_ (this s)) NULL); [contradiction|]. cbn [negb].
  unfold bind, fclose. rewrite Hst. reflexivity.
Qed.

Lemma SpikeMonitorCore_delete_closed s :
  spikeFileId_ (this s) <> NULL ->
  streams (snn_ s) !! spikeFileId_ (this s) = None ->
  SpikeMonitorCore_delete s = Undefined.
Proof.
  intros Hf Hst. unfold SpikeMonitorCore_delete. mstep.
  destruct (Z.eqb_spec (spikeFileId_ (this s)) NULL); [contradiction|]. cbn [negb].
  unfold bind, fclose. rewrite Hst. reflexivity.
Qed.

(** X15: [setSpikeFileId(f)] on an idle monitor with an open, writable
    stream [f] binds the monitor to [f] and appends the two header items,
    the signature and then the version, behind whatever the stream already
    holds; no other stream is touched and no recorded data changes.  If a
    file was bound before, the call logs an error and goes on all the
    same: the earlier stream is neither written nor closed. *)
Theorem setSpikeFileId_writes_header (s : St) (f : FILE) (st : stream) :
  recordSet_ (this s) = false ->
  streams (snn_ s) !! f = Some st ->
  writable st = true ->
  exists s',
    setSpikeFileId f s = Ok (tt, s') /\
    spikeFileId_ (this s') = f /\
    needToWriteFileHeader_ (this s') = false /\
    streams (snn_ s') !! f
    = Some {| writable := true;
              written := written st ++ [IntBytes (spikeFileSignature_ (this s));
                                        FloatBytes (spikeFileVersion_ (this s))] |} /\
    (forall g, g <> f -> streams (snn_ s') !! g = streams (snn_ s) !! g) /\
    logged (snn_ s')
    = logged (snn_ s) ++ (if spikeFileId_ (this s) =? NULL then [] else [rebind_error]) /\
    spkVector_ (this s') = spkVector_ (this s) /\
    totalTime_ (this s') = totalTime_ (this s).
Proof.
  intros Hrec Hst Hw. eexists. split; [now apply (setSpikeFileId_ok s f st)|].
  unfold stream_append, header_of. destruct s as [m c]. destruct m, c. proj_simpl_all.
  split; [reflexivity|]. split; [reflexivity|]. split; [apply lookup_insert_eq|].
  split; [|repeat split]. intros g Hg. now apply lookup_insert_ne.
Qed.

Lemma setSpikeFileId_writes_header_witness :
  exists s',
    setSpikeFileId 7 s_fresh = Ok (tt, s') /\
    streams (snn_ s') !! 7
    = Some {| writable := true; written := [IntBytes 206661989; FloatBytes fone] |}.
Proof.
  destruct (setSpikeFileId_writes_header s_fresh 7 {| writable := true; written := [] |})
    as (s' & H1 & _ & _ & H2 & _).
  - reflexivity.
  - reflexivity.
  - reflexivity.
  - exists s'. split; [exact H1|exact H2].
Defined.

(** X16: a header that cannot be written is lost for good.  When both
    [fwrite] calls fail, [setSpikeFileId(f)] logs the write error twice and
    returns with the monitor bound to [f] and the header marked as
    written; nothing has reached the stream, and a later
    [writeSpikeFileHeader()] does nothing, whatever has become of the
    stream in the meantime. *)
Theorem setSpikeFileId_write_failure (s : St) (f : FILE) (st : stream) :
  recordSet_ (this s) = false ->
  streams (snn_ s) !! f = Some st ->
  writable st = false ->
  exists s',
    setSpikeFileId f s = Ok (tt, s') /\
    spikeFileId_ (this s') = f /\
    needToWriteFileHeader_ (this s') = false /\
    streams (snn_ s') = streams (snn_ s) /\
    logged (snn_ s')
    = logged (snn_ s) ++ (if spikeFileId_ (this s) =? NULL then [] else [rebind_error])
        ++ [header_error; header_error] /\
    (forall c : CpuSNN,
       writeSpikeFileHeader {| this := this s'; snn_ := c |}
       = Ok (tt, {| this := this s'; snn_ := c |})).
Proof.
  intros Hrec Hst Hw. eexists. split; [now apply (setSpikeFileId_unwritable f s st)|].
  destruct s as [m c]. destruct m, c. proj_simpl_all.
  repeat split.
Qed.

Lemma setSpikeFileId_write_failure_witness :
  exists s',
    setSpikeFileId 7
      {| this := this s_fresh;
         snn_ := set_streams {[ 7 := {| writable := false; written := [] |} ]} snn_example |}
    = Ok (tt, s') /\
    logged (snn_ s') = [header_error; header_error].
Proof.
  destruct (setSpikeFileId_write_failure
              {| this := this s_fresh;
                 snn_ := set_streams {[ 7 := {| writable := false; written := [] |} ]}
                           snn_example |}
              7 {| writable := false; written := [] |})
    as (s' & H1 & _ & _ & _ & H2 & _).
  - reflexivity.
  - reflexivity.
  - reflexivity.
  - exists s'. split; [exact H1|exact H2].
Defined.

(** X17: [setSpikeFileId] does not check the handle it is given.  With a
    handle that is not an open stream (the null pointer, or a stream that
    has been closed) an idle monitor meets no assertion and no error path:
    the first [fwrite] of the header is undefined behaviour. *)
Theorem setSpikeFileId_unchecked_handle (s : St) (f : FILE) :
  recordSet_ (this s) = false ->
  streams (snn_ s) !! f = None ->
  setSpikeFileId f s = Undefined.
Proof. intros Hrec Hst. now apply setSpikeFileId_closed. Qed.

Lemma setSpikeFileId_unchecked_handle_witness :
  setSpikeFileId NULL s_fresh = Undefined.
Proof. apply setSpikeFileId_unchecked_handle; reflexivity. Defined.

(** X18: the destructor closes the stream the monitor is bound to and
    nothing else, so a stream that a second [setSpikeFileId] has replaced
    is never closed.  After [setSpikeFileId(f)], [setSpikeFileId(g)] with
    two different open, writable streams and the destructor, [g] is closed
    and [f] is still open, holding the header it was given. *)
Theorem destructor_leaves_replaced_stream_open (s : St) (f g : FILE) (stf stg : stream) :
  recordSet_ (this s) = false ->
  g <> NULL -> f <> g ->
  streams (snn_ s) !! f = Some stf -> writable stf = true ->
  streams (snn_ s) !! g = Some stg -> writable stg = true ->
  exists s',
    (setSpikeFileId f ;; setSpikeFileId g ;; SpikeMonitorCore_delete) s = Ok (tt, s') /\
    spikeFileId_ (this s') = NULL /\
    streams (snn_ s') !! g = None /\
    streams (snn_ s') !! f
    = Some {| writable := true; written := written stf ++ header_of (this s) |}.
Proof.
  intros Hrec Hg Hfg Hsf Hwf Hsg Hwg.
  destruct s as [m c]. destruct m, c. proj_simpl_all. subst recordSet_0.
  eexists. split.
  { erewrite run_bind by (apply (setSpikeFileId_ok _ f stf); proj_simpl; first [reflexivity|assumption]).
    cbv beta. unfold stream_append, header_of. proj_simpl.
    erewrite run_bind; cycle 1.
    { apply (setSpikeFileId_ok _ g stg); proj_simpl; [reflexivity| |assumption].
      rewrite lookup_insert_ne by assumption. exact Hsg. }
    cbv beta. unfold stream_append, header_of. proj_simpl.
    erewrite SpikeMonitorCore_delete_bound; proj_simpl; [reflexivity|assumption|].
    apply lookup_insert_eq. }
  proj_simpl. split; [reflexivity|]. split; [apply lookup_delete_eq|].
  rewrite lookup_delete_ne by congruence. rewrite lookup_insert_ne by congruence.
  apply lookup_insert_eq.
Qed.

Lemma destructor_leaves_replaced_stream_open_witness :
  exists s',
    (setSpikeFileId 7 ;; setSpikeFileId 8 ;; SpikeMonitorCore_delete)
      {| this := this s_fresh;
         snn_ := set_streams {[ 7 := {| writable := true; written := [] |};
                                8 := {| writable := true; written := [] |} ]} snn_example |}
    = Ok (tt, s') /\
    streams (snn_ s') !! 8 = None /\
    streams (snn_ s') !! 7
    = Some {| writable := true; written := [IntBytes 206661989; FloatBytes fone] |}.
Proof.
  destruct (destructor_leaves_replaced_stream_open
              {| this := this s_fresh;
                 snn_ := set_streams {[ 7 := {| writable := true; written := [] |};
                                        8 := {| writable := true; written := [] |} ]}
                           snn_example |}
              7 8 {| writable := true; written := [] |} {| writable := true; written := [] |})
    as (s' & H1 & _ & H2 & H3); try reflexivity; try discriminate.
  exists s'. split; [exact H1|]. split; [exact H2|exact H3].
Defined.

(** X19: two monitors must not share a stream.  When two monitors are
    bound to the same open stream, the destructor of the first closes it,
    and the destructor of the second then calls [fclose] on a closed
    stream, which is undefined behaviour. *)
Theorem destructor_double_close (s : St) (other : SpikeMonitorCore) (st : stream) :
  spikeFileId_ (this s) <> NULL ->
  spikeFileId_ other = spikeFileId_ (this s) ->
  streams (snn_ s) !! spikeFileId_ (this s) = Some st ->
  exists s',
    SpikeMonitorCore_delete s = Ok (tt, s') /\
    SpikeMonitorCore_delete {| this := other; snn_ := snn_ s' |} = Undefined.
Proof.
  intros Hf Ho Hst. eexists. split; [now apply (SpikeMonitorCore_delete_bound s st)|].
  apply SpikeMonitorCore_delete_closed; cbn [this snn_]; rewrite Ho; [exact Hf|].
  destruct (snn_ s). proj_simpl. apply lookup_delete_eq.
Qed.

Lemma destructor_double_close_witness :
  exists s',
    SpikeMonitorCore_delete (upd (set_spikeFileId_ 7) s_fresh) = Ok (tt, s') /\
    SpikeMonitorCore_delete {| this := set_spikeFileId_ 7 (this s_recorded); snn_ := snn_ s' |}
    = Undefined.
Proof.
  apply (destructor_double_close (upd (set_spikeFileId_ 7) s_fresh)
           (set_spikeFileId_ 7 (this s_recorded)) {| writable := true; written := [] |}).
  - discriminate.
  - reflexivity.
  - reflexivity.
Defined.

(** ** What no call changes *)

Lemma framed_getNeuronMeanFiringRate i : framed (getNeuronMeanFiringRate i).
Proof.
  unfold getNeuronMeanFiringRate, isRecording, getRecordingTotalTime.
  repeat first [apply framed_getNeuronNumSpikes | framed_step].
Qed.

Lemma framed_getPercentNeuronsWithFiringRate min max :
  framed (getPercentNeuronsWithFiringRate min max).
Proof.
  unfold getPercentNeuronsWithFiringRate, isRecording.
  repeat first [apply framed_getNumNeuronsWithFiringRate | framed_step].
Qed.

Lemma framed_getPercentSilentNeurons : framed getPercentSilentNeurons.
Proof.
  unfold getPercentSilentNeurons, isRecording.
  repeat first [apply framed_getNumNeuronsWithFiringRate | framed_step].
Qed.

Lemma query_framed A (q : M A) : query A q -> framed q.
Proof.
  destruct 1.
  - apply framed_getPopMeanFiringRate.
  - apply framed_getPopStdFiringRate.
  - apply framed_getPopNumSpikes.
  - apply framed_getAllFiringRates.
  - apply framed_getMaxFiringRate.
  - apply framed_getMinFiringRate.
  - apply framed_getNeuronMeanFiringRate.
  - apply framed_getNeuronNumSpikes.
  - apply framed_getAllFiringRatesSorted.
  - apply framed_getNumNeuronsWithFiringRate.
  - apply framed_getNumSilentNeurons.
  - apply framed_getPercentNeuronsWithFiringRate.
  - apply framed_getPercentSilentNeurons.
  - apply framed_getSpikeVector2D.
Qed.

Lemma same_identity_refl m : same_identity m m.
Proof. repeat split. Qed.

(** Evaluation of nested member updates by value: each update meets a
    record that is already evaluated. *)
Declare Reduction members_by_value :=
  cbv [this snn_ upd
       grpId_ monitorId_ nNeurons_ spikeFileId_ recordSet_ spkMonLastUpdated_ mode_
       persistentData_ needToWriteFileHeader_ spikeFileSignature_ spikeFileVersion_
       spkVector_ startTime_ startTimeLast_ stopTime_ accumTime_ totalTime_
       needToCalculateFiringRates_ needToSortFiringRates_ firingRates_ firingRatesSorted_
       set_nNeurons_ set_spikeFileId_ set_recordSet_ set_persistentData_
       set_needToWriteFileHeader_ set_spkVector_ set_startTime_ set_startTimeLast_
       set_stopTime_ set_accumTime_ set_totalTime_ set_needToCalculateFiringRates_
       set_needToSortFiringRates_ set_firingRates_ set_firingRatesSorted_
       simTimeSec simTimeMs groupNumNeurons buffered streams logged
       set_buffered set_streams set_logged set_simTime
       same_identity cleared started_persistent started_fresh stopped flushed].

Ltac identity_step s :=
  destruct s as [?m ?c];
  match goal with m : SpikeMonitorCore |- _ => destruct m end;
  match goal with |- ?G => let G' := eval members_by_value in G in change G' end;
  repeat split;
  rewrite ?length_replicate, ?fold_store_push_length, ?store_push_length; reflexivity.

(** X20: the three queries built on other queries,
    [getNeuronMeanFiringRate], [getPercentNeuronsWithFiringRate] and
    [getPercentSilentNeurons], change as little as those: whenever one of
    them returns, the spike store, the timing fields, the recording flag,
    the file binding and the simulator's clock, buffer and streams are as
    before; only the two rate caches, their flags and the log can differ. *)
Theorem derived_queries_keep_frame :
  (forall neurId, framed (getNeuronMeanFiringRate neurId)) /\
  (forall min max, framed (getPercentNeuronsWithFiringRate min max)) /\
  framed getPercentSilentNeurons.
Proof.
  split; [apply framed_getNeuronMeanFiringRate|].
  split; [apply framed_getPercentNeuronsWithFiringRate|].
  apply framed_getPercentSilentNeurons.
Qed.

(** X21: nothing a user can call changes what the constructor has fixed.
    Across any call of a public method that returns ([clear],
    [startRecording], [stopRecording], [pushAER], [setSpikeFileId],
    [setPersistentData], any query) and across anything the simulator
    does, the group id, the monitor id, the number of neurons, the mode,
    the file signature and version, and the number of spike lists stay the
    same. *)
Theorem methods_keep_identity (s s' : St) :
  wf (this s) -> step s s' -> same_identity (this s) (this s').
Proof.
  intros Hwf Hstep. destruct Hstep as
    [s s' H|s s' H|s s' H|t id s s' H|f s s' H|b s s' H|A q a s s' Hq H|s c].
  - destruct (recordSet_ (this s)) eqn:Hrec; [now rewrite clear_recording in H|].
    rewrite clear_ok in H by (auto; apply Hwf). injection H as <-. identity_step s.
  - destruct (recordSet_ (this s)) eqn:Hrec; [now rewrite startRecording_recording in H|].
    destruct (persistentData_ (this s)) eqn:Hp.
    + rewrite startRecording_persistent in H by assumption. injection H as <-.
      identity_step s.
    + rewrite startRecording_fresh in H by (auto; apply Hwf). injection H as <-.
      identity_step s.
  - destruct (recordSet_ (this s)) eqn:Hrec; [|now rewrite stopRecording_idle in H].
    destruct (Z_lt_dec (-1) (startTime_ (this s))) as [H0|H0];
      [|rewrite stopRecording_unset in H by (auto; lia); discriminate].
    destruct (Z_lt_dec (-1) (startTimeLast_ (this s))) as [H1|H1];
      [|rewrite stopRecording_unset in H by (auto; lia); discriminate].
    destruct (Z_lt_dec (-1) (accumTime_ (this s))) as [H2|H2];
      [|rewrite stopRecording_unset in H by (auto; lia); discriminate].
    destruct (List.Forall_dec (in_store (this s)) (in_store_dec (this s)) (buffered (snn_ s)))
      as [Hin|Hin].
    + rewrite stopRecording_run in H by (auto; apply Hwf).
      destruct (0 <=? _); [|discriminate]. injection H as <-. identity_step s.
    + rewrite stopRecording_undefined in H by (auto; apply Hwf). discriminate.
  - destruct (recordSet_ (this s)) eqn:Hrec; [|now rewrite pushAER_idle in H].
    destruct (in_store_dec (this s) (t, id)) as [Hin|Hin].
    + rewrite pushAER_ok in H by (auto; apply Hwf). injection H as <-. identity_step s.
    + rewrite pushAER_out_of_range in H by (auto; apply Hwf). discriminate.
  - destruct (recordSet_ (this s)) eqn:Hrec; [now rewrite setSpikeFileId_recording in H|].
    destruct (streams (snn_ s) !! f) as [st|] eqn:Hf;
      [|rewrite setSpikeFileId_closed in H by assumption; discriminate].
    destruct (writable st) eqn:Hw.
    + rewrite (setSpikeFileId_ok _ _ st) in H by assumption. injection H as <-.
      identity_step s.
    + rewrite (setSpikeFileId_unwritable _ _ st) in H by assumption. injection H as <-.
      identity_step s.
  - injection H as <-. identity_step s.
  - destruct (query_framed A q Hq s a s' H)
      as [Hg Hmi Hn _ _ _ Hmd _ _ Hsg Hv Hst _ _ _ _ _ _ _ _ _ _].
    unfold same_identity. now rewrite Hg, Hmi, Hn, Hmd, Hsg, Hv, Hst.
  - apply same_identity_refl.
Qed.

Lemma methods_keep_identity_witness :
  same_identity (this s_recording) (this s_recorded).
Proof.
  apply (methods_keep_identity s_recording s_recorded).
  - apply s_recording_wf.
  - apply step_stop, stop_reaches_recorded.
Defined.
(** * The spike sender of the demo server *)

Lemma take_put (b : list Z) (p : nat) x y :
  (S p < length b)%nat ->
  take (S (S p)) (<[S p := y]> (<[p := x]> b)) = take p b ++ [x; y].
Proof.
  intros Hp.
  rewrite (take_S_r _ (S p) y) by (apply list_lookup_insert_eq; rewrite length_insert; lia).
  rewrite (take_S_r _ p x).
  - rewrite !take_insert_ge by lia. rewrite <- app_assoc. reflexivity.
  - rewrite list_lookup_insert_ne by lia. apply list_lookup_insert_eq. lia.
Qed.

Lemma sender_inv_start simTime grpId c w :
  length (buf c) = Z.to_nat BUF_LEN -> bufPos c = 0 ->
  sender_inv simTime grpId c w [] (c, w).
Proof.
  intros Hl Hp. split; [reflexivity|]. split; [reflexivity|]. split; [exact Hl|].
  exists 0%nat, []. cbn [fst snd]. rewrite Hp. unfold sent_as, reported_as.
  cbn [map concat flat_map app]. rewrite !app_nil_r.
  split; [reflexivity|]. split; [vm_compute; lia|]. split; [constructor|]. auto.
Qed.

Lemma put_spike_inv simTime grpId c0 w0 done st t id :
  sender_inv simTime grpId c0 w0 done st ->
  exists st',
    put_spike (to_uint (t + simTime - 1000)) (spike_word id (group_bits grpId)) st = Ok st' /\
    sender_inv simTime grpId c0 w0 (done ++ [(t, id)]) st'.
Proof.
  destruct st as [c w]. intros (Hs & Ha & Hl & k & full & Hp & Hk & Hfull & Hd & Hc & Hw).
  cbn [fst snd] in *. unfold put_spike. rewrite Hp.
  change (Z.to_nat BUF_LEN) with 128%nat in *. change BUF_LEN with 128.
  set (p := (2 * k)%nat) in *.
  destruct (Z.leb_spec 0 (Z.of_nat p)); [|lia].
  destruct (Z.ltb_spec (Z.of_nat p + 1) 128); [|lia].
  cbn [andb].
  replace (Z.to_nat (Z.of_nat p + 1)) with (S p) by lia. rewrite Nat2Z.id.
  set (time := to_uint (t + simTime - 1000)).
  set (word := spike_word id (group_bits grpId)).
  set (b := <[S p := word]> (<[p := time]> (buf c))).
  assert (Hb : length b = 128%nat) by (subst b; rewrite !length_insert; exact Hl).
  assert (Ht : take (S (S p)) b = take p (buf c) ++ [time; word]) by (apply take_put; lia).
  assert (Hflat : flat_map (spike_words simTime grpId) (done ++ [(t, id)])
                  = flat_map (spike_words simTime grpId) done ++ [time; word]).
  { rewrite flat_map_app. reflexivity. }
  destruct (Z.leb_spec 128 (Z.of_nat p + 2)).
  - eexists. split; [reflexivity|].
    assert (Hp126 : S (S p) = 128%nat) by lia.
    split; [exact Hs|]. split; [exact Ha|]. split; [exact Hb|].
    exists 0%nat, (full ++ [b]). cbn [fst snd bufPos buf].
    change (Z.to_nat BUF_LEN) with 128%nat.
    split; [reflexivity|]. split; [lia|].
    split; [apply Forall_app; split; [exact Hfull|repeat constructor; exact Hb]|].
    unfold send_and_report, sendto. cbn [datagrams console].
    rewrite (take_ge b) by lia.
    split; [|split].
    + rewrite Hd. unfold sent_as. rewrite map_app, app_assoc, Hs, Ha. reflexivity.
    + rewrite Hc. unfold reported_as. rewrite map_app, app_assoc. cbn [map].
      rewrite Hb, Ha. reflexivity.
    + rewrite concat_app. cbn [concat]. change (take (2 * 0) b) with (@nil Z).
      rewrite !app_nil_r, Hflat, <- Hw, <- app_assoc, <- Ht, Hp126.
      rewrite (take_ge b) by lia. reflexivity.
  - eexists. split; [reflexivity|].
    split; [exact Hs|]. split; [exact Ha|]. split; [exact Hb|].
    exists (S k), full. cbn [fst snd bufPos buf].
    change (Z.to_nat BUF_LEN) with 128%nat.
    replace (2 * S k)%nat with (S (S p)) by lia.
    split; [lia|]. split; [lia|]. split; [exact Hfull|].
    split; [exact Hd|]. split; [exact Hc|].
    rewrite Ht, Hflat, <- Hw, app_assoc. reflexivity.
Qed.

Lemma spikes_of_ms_inv simTime grpId c0 w0 t Nids n : forall (pos : nat) done st,
  sender_inv simTime grpId c0 w0 done st ->
  (pos + n <= length Nids)%nat ->
  Z.of_nat (pos + n) <= INT_MAX ->
  exists st',
    spikes_of_ms n simTime (group_bits grpId) t Nids (Z.of_nat pos) st
    = Ok (Z.of_nat (pos + n), st') /\
    sender_inv simTime grpId c0 w0 (done ++ map (pair t) (take n (drop pos Nids))) st'.
Proof.
  induction n as [|n IH]; intros pos done st Hinv Hlen Hmax.
  - exists st. cbn [spikes_of_ms]. rewrite take_0, Nat.add_0_r. cbn [map].
    rewrite app_nil_r. auto.
  - cbn [spikes_of_ms].
    destruct (Z.leb_spec 0 (Z.of_nat pos)); [|lia].
    destruct (Z.ltb_spec (Z.of_nat pos) (Z.of_nat (length Nids))); [|lia].
    cbn [andb]. rewrite Nat2Z.id.
    destruct (lookup_lt_is_Some_2 Nids pos ltac:(lia)) as [id Hid]. rewrite Hid.
    destruct (put_spike_inv simTime grpId c0 w0 done st t id Hinv) as (st1 & -> & Hinv1).
    destruct (Z.ltb_spec (Z.of_nat pos) INT_MAX); [|lia].
    replace (Z.of_nat pos + 1) with (Z.of_nat (S pos)) by lia.
    destruct (IH (S pos) _ st1 Hinv1 ltac:(lia) ltac:(lia)) as (st' & Hrun & Hinv').
    exists st'. split.
    + rewrite Hrun. do 2 f_equal. lia.
    + rewrite (drop_S _ _ _ Hid). cbn [take firstn map].
      rewrite <- app_assoc in Hinv'. exact Hinv'.
Qed.

Lemma ms_loop_inv simTime grpId c0 w0 Nids timeCnts k : forall (t pos : nat) done st,
  sender_inv simTime grpId c0 w0 done st ->
  (t + k <= length timeCnts)%nat ->
  (pos + total_spikes (take k (drop t timeCnts)) <= length Nids)%nat ->
  Z.of_nat (pos + total_spikes (take k (drop t timeCnts))) <= INT_MAX ->
  exists st',
    ms_loop k simTime (group_bits grpId) (Z.of_nat t) Nids timeCnts (Z.of_nat pos) st
    = Ok (Z.of_nat (pos + total_spikes (take k (drop t timeCnts))), st') /\
    sender_inv simTime grpId c0 w0
      (done ++ spike_events (Z.of_nat t) (take k (drop t timeCnts)) (drop pos Nids)) st'.
Proof.
  induction k as [|k IH]; intros t pos done st Hinv Ht Hlen Hmax.
  - exists st. cbn [ms_loop]. rewrite take_0. cbn [total_spikes spike_events].
    rewrite Nat.add_0_r, app_nil_r. auto.
  - cbn [ms_loop]. rewrite Nat2Z.id.
    destruct (lookup_lt_is_Some_2 timeCnts t ltac:(lia)) as [cnt Hcnt]. rewrite Hcnt.
    rewrite (drop_S _ _ _ Hcnt) in *. cbn [take firstn total_spikes spike_events] in *.
    set (n := Z.to_nat cnt) in *.
    set (rest := take k (drop (S t) timeCnts)) in *.
    destruct (spikes_of_ms_inv simTime grpId c0 w0 (Z.of_nat t) Nids n pos done st Hinv
                ltac:(lia) ltac:(lia)) as (st1 & -> & Hinv1).
    replace (Z.of_nat t + 1) with (Z.of_nat (S t)) by lia.
    destruct (IH (S t) (pos + n)%nat _ st1 Hinv1 ltac:(lia)) as (st' & Hrun & Hinv').
    + fold rest. lia.
    + fold rest. lia.
    + exists st'. fold rest in Hrun, Hinv'. split.
      * rewrite Hrun. do 2 f_equal. lia.
      * rewrite drop_drop. rewrite <- app_assoc in Hinv'. exact Hinv'.
Qed.

Lemma update_run simTime grpId Nids timeCnts c w :
  length (buf c) = Z.to_nat BUF_LEN ->
  bufPos c = 0 ->
  (1000 <= length timeCnts)%nat ->
  (total_spikes (take 1000 timeCnts) <= length Nids)%nat ->
  Z.of_nat (total_spikes (take 1000 timeCnts)) <= INT_MAX ->
  exists c' w' full rest,
    update simTime grpId Nids timeCnts (c, w) = Ok (c', w') /\
    bufPos c' = 0 /\
    length (buf c') = Z.to_nat BUF_LEN /\
    dataSocket c' = dataSocket c /\
    clientAddr c' = clientAddr c /\
    Forall (fun d => length d = Z.to_nat BUF_LEN) full /\
    (length rest < Z.to_nat BUF_LEN)%nat /\
    concat full ++ rest = payload simTime grpId Nids timeCnts /\
    datagrams w'
    = datagrams w ++ sent_as c (full ++ match rest with [] => [] | _ :: _ => [rest] end) /\
    console w'
    = console w ++ reported_as c (full ++ match rest with [] => [] | _ :: _ => [rest] end).
Proof.
  intros Hl Hp Ht Hn Hmax.
  destruct (ms_loop_inv simTime grpId c w Nids timeCnts 1000 0 0 [] (c, w)
              (sender_inv_start simTime grpId c w Hl Hp))
    as ([c1 w1] & Hrun & Hinv); rewrite ?drop_0; try lia.
  rewrite drop_0 in Hrun, Hinv. cbn [app] in Hinv.
  destruct Hinv as (Hs & Ha & Hl1 & k & full & Hp1 & Hk & Hfull & Hd & Hc & Hw).
  cbn [fst snd] in *. change (Z.to_nat BUF_LEN) with 128%nat in *.
  unfold update. change (Z.of_nat 0) with 0 in Hrun. rewrite Hrun.
  set (rest := take (2 * k) (buf c1)) in *.
  assert (Hrest : length rest = (2 * k)%nat).
  { subst rest. rewrite length_take. lia. }
  eexists _, _, full, rest. split; [reflexivity|].
  cbn [bufPos buf dataSocket clientAddr].
  split; [reflexivity|]. split; [exact Hl1|]. split; [exact Hs|]. split; [exact Ha|].
  split; [exact Hfull|]. split; [lia|]. split; [exact Hw|].
  rewrite Hp1, Nat2Z.id. fold rest.
  destruct (Z.ltb_spec 0 (Z.of_nat (2 * k))) as [Hpos|Hzero].
  - destruct rest as [|x rest'] eqn:Er; [cbn [length] in Hrest; lia|]. rewrite <- Er in *.
    unfold send_and_report, sendto. cbn [datagrams console].
    unfold sent_as, reported_as in *. rewrite !map_app. cbn [map].
    rewrite Hd, Hc, Hs, Ha, <- !app_assoc. split; reflexivity.
  - destruct rest as [|x rest'] eqn:Er; [|cbn [length] in Hrest; lia].
    rewrite !app_nil_r. split; assumption.
Qed.

Lemma words_sent_as c l : concat (map snd (sent_as c l)) = concat l.
Proof.
  unfold sent_as. rewrite map_map. cbn [snd]. now rewrite map_id.
Qed.

Lemma updates_run calls : forall c w,
  length (buf c) = Z.to_nat BUF_LEN ->
  bufPos c = 0 ->
  Forall arrays_fit calls ->
  exists c' w',
    updates calls (c, w) = Ok (c', w') /\
    bufPos c' = 0 /\
    length (buf c') = Z.to_nat BUF_LEN /\
    dataSocket c' = dataSocket c /\
    clientAddr c' = clientAddr c /\
    words_sent w' = words_sent w ++ flat_map payload_of calls.
Proof.
  induction calls as [|[[[simTime grpId] Nids] timeCnts] calls IH]; intros c w Hl Hp Hall.
  - exists c, w. cbn [updates flat_map]. rewrite app_nil_r. auto 10.
  - inversion Hall as [|? ? Hfit Hall']; subst.
    unfold arrays_fit in Hfit. destruct Hfit as (Ht & Hn & Hmax).
    destruct (update_run simTime grpId Nids timeCnts c w Hl Hp Ht Hn Hmax)
      as (c1 & w1 & full & rest & Hrun & Hp1 & Hl1 & Hs1 & Ha1 & _ & _ & Hpay & Hd & _).
    destruct (IH c1 w1 Hl1 Hp1 Hall') as (c' & w' & Hrun' & Hp' & Hl' & Hs' & Ha' & Hw').
    exists c', w'. cbn [updates]. rewrite Hrun.
    split; [exact Hrun'|]. split; [exact Hp'|]. split; [exact Hl'|].
    split; [congruence|]. split; [congruence|].
    rewrite Hw'. unfold words_sent. rewrite Hd, map_app, concat_app, words_sent_as.
    cbn [flat_map payload_of]. rewrite <- Hpay, <- app_assoc. f_equal. f_equal.
    rewrite concat_app. f_equal. destruct rest; cbn [concat]; [reflexivity|].
    now rewrite app_nil_r.
Qed.

(** ** Properties *)

(** X22: [update] never writes outside [buf] and always leaves it empty.
    Starting from the controller the constructor builds, any series of
    [update] calls whose arrays are as long as the counts say returns
    without undefined behaviour and ends with [bufPos == 0]; socket and
    client address never change; and the words of all datagrams sent, in
    the order sent, are the words of all spikes of all calls, two per
    spike: nothing is dropped, repeated or reordered, within a call or
    between calls. *)
Theorem updates_send_every_spike (raw : list Z) (ds : Z) (cd : SOCKADDR_IN) (w : Wire)
    (calls : list (Z * Z * list Z * list Z)) :
  length raw = Z.to_nat BUF_LEN ->
  Forall arrays_fit calls ->
  exists c' w',
    updates calls (SpikeController_new raw ds cd, w) = Ok (c', w') /\
    bufPos c' = 0 /\
    length (buf c') = Z.to_nat BUF_LEN /\
    dataSocket c' = ds /\
    clientAddr c' = cd /\
    words_sent w' = words_sent w ++ flat_map payload_of calls.
Proof.
  intros Hl Hall.
  apply (updates_run calls (SpikeController_new raw ds cd) w Hl eq_refl Hall).
Qed.

Lemma updates_send_every_spike_witness :
  exists c' w',
    updates [(2000, 1, [5; 6; 7], [2; 1] ++ replicate 998 0);
             (3000, 1, [9], [0; 1] ++ replicate 998 0)]
      (SpikeController_new (replicate 128 0) 1 {| sin_addr := 0; sin_port := 4660 |},
       {| datagrams := []; console := [] |})
    = Ok (c', w') /\
    bufPos c' = 0 /\
    words_sent w' = [1000; 16777221; 1000; 16777222; 1001; 16777223; 2001; 16777225].
Proof.
  destruct (updates_send_every_spike (replicate 128 0) 1 {| sin_addr := 0; sin_port := 4660 |}
              {| datagrams := []; console := [] |}
              [(2000, 1, [5; 6; 7], [2; 1] ++ replicate 998 0);
               (3000, 1, [9], [0; 1] ++ replicate 998 0)])
    as (c' & w' & H1 & H2 & _ & _ & _ & H3).
  - reflexivity.
  - repeat constructor; vm_compute; try lia; discriminate.
  - exists c', w'. split; [exact H1|]. split; [exact H2|]. rewrite H3. reflexivity.
Defined.



(** X24: the two words of a spike can be told apart again.  For a group id
    below 256 and a neuron id below 2^24 (the comment in [update] promises
    256 groups) the id word is [id + grpId * 2^24], an [unsigned int] from
    which a shift by 24 recovers the group and a mask of 24 bits the
    neuron; and when [update] runs once a full second has passed, the time
    word of a spike of millisecond [t] is [simTime - 1000 + t]. *)
Theorem spike_words_decode (simTime grpId t id : Z) :
  0 <= grpId < 256 ->
  0 <= id < 2 ^ 24 ->
  1000 <= simTime < 2 ^ 32 ->
  0 <= t < 1000 ->
  spike_words simTime grpId (t, id) = [simTime - 1000 + t; id + grpId * 2 ^ 24] /\
  0 <= id + grpId * 2 ^ 24 < 2 ^ 32 /\
  Z.shiftr (spike_word id (group_bits grpId)) 24 = grpId /\
  Z.land (spike_word id (group_bits grpId)) (Z.ones 24) = id.
Proof.
  intros Hg Hid Hs Ht.
  assert (Hgb : group_bits grpId = grpId * 2 ^ 24).
  { unfold group_bits, to_uint. rewrite Z.shiftl_mul_pow2 by lia.
    apply Z.mod_small. lia. }
  assert (Hsh : Z.shiftr (spike_word id (group_bits grpId)) 24 = grpId).
  { unfold spike_word. rewrite Hgb, Z.shiftr_lor, !Z.shiftr_div_pow2 by lia.
    rewrite Z.div_small by lia. rewrite Z.div_mul by lia. apply Z.lor_0_l. }
  assert (Hld : Z.land (spike_word id (group_bits grpId)) (Z.ones 24) = id).
  { unfold spike_word. rewrite Hgb, Z.land_lor_distr_l, !Z.land_ones by lia.
    rewrite Z.mod_small by lia. rewrite Z.mod_mul by lia. apply Z.lor_0_r. }
  assert (Hw : spike_word id (group_bits grpId) = id + grpId * 2 ^ 24).
  { pose proof (Z.div_mod (spike_word id (group_bits grpId)) (2 ^ 24) ltac:(lia)) as H.
    rewrite <- Z.shiftr_div_pow2, <- Z.land_ones, Hsh, Hld in H by lia. lia. }
  split; [|split; [lia|split; assumption]].
  unfold spike_words. cbn [fst snd]. rewrite Hw. unfold to_uint.
  rewrite Z.mod_small by lia. do 2 f_equal. lia.
Qed.

Lemma spike_words_decode_witness :
  spike_words 5000 3 (7, 42) = [4007; 50331690] /\
  Z.shiftr (spike_word 42 (group_bits 3)) 24 = 3.
Proof.
  destruct (spike_words_decode 5000 3 7 42) as (H1 & _ & H2 & _); try lia.
  split; [exact H1|exact H2].
Defined.

Lemma spikes_of_ms_overrun simTime grpId c0 w0 t Nids n : forall (pos : nat) done st,
  sender_inv simTime grpId c0 w0 done st ->
  (pos <= length Nids)%nat ->
  (length Nids < pos + n)%nat ->
  spikes_of_ms n simTime (group_bits grpId) t Nids (Z.of_nat pos) st = Undefined.
Proof.
  induction n as [|n IH]; intros pos done st Hinv Hpos Hover; [lia|].
  cbn [spikes_of_ms].
  destruct (Z.leb_spec 0 (Z.of_nat pos)); [|lia].
  destruct (Z.ltb_spec (Z.of_nat pos) (Z.of_nat (length Nids))); [|reflexivity].
  cbn [andb]. rewrite Nat2Z.id.
  destruct (lookup_lt_is_Some_2 Nids pos ltac:(lia)) as [id Hid]. rewrite Hid.
  destruct (put_spike_inv simTime grpId c0 w0 done st t id Hinv) as (st1 & -> & Hinv1).
  destruct (Z.ltb_spec (Z.of_nat pos) INT_MAX); [|reflexivity].
  replace (Z.of_nat pos + 1) with (Z.of_nat (S pos)) by lia.
  apply (IH (S pos) _ st1 Hinv1); lia.
Qed.

Lemma ms_loop_overrun simTime grpId c0 w0 Nids timeCnts k : forall (t pos : nat) done st,
  sender_inv simTime grpId c0 w0 done st ->
  (t + k <= length timeCnts)%nat ->
  Z.of_nat (length Nids) <= INT_MAX ->
  (pos <= length Nids)%nat ->
  (length Nids < pos + total_spikes (take k (drop t timeCnts)))%nat ->
  ms_loop k simTime (group_bits grpId) (Z.of_nat t) Nids timeCnts (Z.of_nat pos) st
  = Undefined.
Proof.
  induction k as [|k IH]; intros t pos done st Hinv Ht Hmax Hpos Hover.
  - rewrite take_0 in Hover. cbn [total_spikes] in Hover. lia.
  - cbn [ms_loop]. rewrite Nat2Z.id.
    destruct (lookup_lt_is_Some_2 timeCnts t ltac:(lia)) as [cnt Hcnt]. rewrite Hcnt.
    rewrite (drop_S _ _ _ Hcnt) in Hover. cbn [take firstn total_spikes] in Hover.
    set (n := Z.to_nat cnt) in *.
    destruct (Nat.le_gt_cases (pos + n) (length Nids)) as [Hfit|Hout].
    + destruct (spikes_of_ms_inv simTime grpId c0 w0 (Z.of_nat t) Nids n pos done st Hinv
                  Hfit ltac:(lia)) as (st1 & -> & Hinv1).
      replace (Z.of_nat t + 1) with (Z.of_nat (S t)) by lia.
      apply (IH (S t) (pos + n)%nat _ st1 Hinv1); lia.
    + now rewrite (spikes_of_ms_overrun simTime grpId c0 w0 (Z.of_nat t) Nids n pos done st).
Qed.

(** X25: [update] trusts the counts it is given.  When [timeCnts]
    announces more spikes for the second than [Nids] holds ids, the call
    reads past the end of [Nids]: no check stops it, and the behaviour is
    undefined. *)
Theorem update_reads_past_ids (simTime grpId : Z) (Nids timeCnts : list Z)
    (c : SpikeController) (w : Wire) :
  length (buf c) = Z.to_nat BUF_LEN ->
  bufPos c = 0 ->
  (1000 <= length timeCnts)%nat ->
  Z.of_nat (length Nids) <= INT_MAX ->
  (length Nids < total_spikes (take 1000 timeCnts))%nat ->
  update simTime grpId Nids timeCnts (c, w) = Undefined.
Proof.
  intros Hl Hp Ht Hmax Hover.
  pose proof (ms_loop_overrun simTime grpId c w Nids timeCnts 1000 0 0 [] (c, w)
                (sender_inv_start simTime grpId c w Hl Hp)) as H.
  rewrite drop_0 in H. change (Z.of_nat 0) with 0 in H.
  unfold update. cbv zeta. rewrite H by lia. reflexivity.
Qed.

Lemma update_reads_past_ids_witness :
  update 2000 1 [5; 6] ([2; 1] ++ replicate 998 0)
    (SpikeController_new (replicate 128 0) 1 {| sin_addr := 0; sin_port := 4660 |},
     {| datagrams := []; console := [] |})
  = Undefined.
Proof.
  apply update_reads_past_ids.
  - reflexivity.
  - reflexivity.
  - vm_compute. lia.
  - vm_compute. discriminate.
  - vm_compute. lia.
Defined.
